(** * actions-npm-scanner: the version matcher, the version extractor, the
    vulnerability index, the four manifest scanners, their linear variants
    and [ScanAction], as src/github.go has them (the line numbers below are
    those of that file), and the action references of a workflow, embedded as
    Rocq functions and relations, with the properties of their
    specification.

    Go strings are byte strings; they are modelled by [string] (a list of
    8-bit [ascii]).  A Go [map[string]V] is a [gmap string V]; a [range] over
    it visits the entries in an order the language leaves unspecified, which
    is modelled by quantifying over the permutations of [map_to_list]: a
    scanner that ranges over a map is a relation between its input and its
    possible results, and its loop bodies are functions. *)

From Stdlib Require Import Ascii String List NArith ZArith Lia Bool.
From Stdlib Require Import DecimalString.
From stdpp Require Import base option list gmap strings.

Local Open Scope string_scope.
Local Open Scope list_scope.

(** ** The functions of Go's [strings] package that the scanner calls *)

Module gostrings.

(** [len(s)] *)
Definition len (s : string) : nat := String.length s.

(** [strings.HasPrefix(s, prefix)] *)
Fixpoint HasPrefix (s prefix : string) : bool :=
  match prefix, s with
  | EmptyString, _ => true
  | String _ _, EmptyString => false
  | String p prefix', String c s' => Ascii.eqb c p && HasPrefix s' prefix'
  end.

(** [s[n:]] for [n <= len(s)] *)
Fixpoint from (n : nat) (s : string) : string :=
  match n, s with
  | O, _ => s
  | S _, EmptyString => EmptyString
  | S n', String _ s' => from n' s'
  end.

(** [s[:n]] for [n <= len(s)] *)
Fixpoint upto (n : nat) (s : string) : string :=
  match n, s with
  | O, _ => EmptyString
  | S _, EmptyString => EmptyString
  | S n', String c s' => String c (upto n' s')
  end.

(** [strings.HasSuffix(s, suffix)] *)
Definition HasSuffix (s suffix : string) : bool :=
  (len suffix <=? len s)%nat && String.eqb (from (len s - len suffix) s) suffix.

(** [strings.TrimPrefix(s, prefix)] *)
Definition TrimPrefix (s prefix : string) : string :=
  if HasPrefix s prefix then from (len prefix) s else s.

(** [strings.TrimSuffix(s, suffix)] *)
Definition TrimSuffix (s suffix : string) : string :=
  if HasSuffix s suffix then upto (len s - len suffix) s else s.

(** [strings.Index(s, substr)]; [None] stands for the [-1] of Go. *)
Fixpoint Index (s substr : string) : option nat :=
  if HasPrefix s substr then Some O
  else match s with
       | EmptyString => None
       | String _ s' => S <$> Index s' substr
       end.

(** [strings.Contains(s, substr)], that is [Index(s, substr) >= 0] *)
Definition Contains (s substr : string) : bool :=
  match Index s substr with Some _ => true | None => false end.

(** The pieces of [s] between the successive, non-overlapping occurrences
    of a non-empty [sep], from the left; [skip] counts the bytes of an
    occurrence still to be passed over.  The result is never empty. *)
Fixpoint cut (sep : string) (skip : nat) (s : string) : list string :=
  match s with
  | EmptyString => [EmptyString]
  | String c s' =>
      match skip with
      | S k => cut sep k s'
      | O =>
          if HasPrefix s sep then EmptyString :: cut sep (len sep - 1) s'
          else match cut sep O s' with
               | p :: ps => String c p :: ps
               | [] => [String c EmptyString]
               end
      end
  end.

(** One string per byte. *)
Fixpoint explode (s : string) : list string :=
  match s with
  | EmptyString => []
  | String c s' => String c EmptyString :: explode s'
  end.

(** [strings.Split(s, sep)].  The scanner only passes constant, non-empty
    separators; for an empty [sep] Go splits after each UTF-8 sequence,
    which is one byte for ASCII text. *)
Definition Split (s sep : string) : list string :=
  match sep with
  | EmptyString => explode s
  | String _ _ => cut sep O s
  end.

(** [strings.SplitN(s, sep, 2)] for a non-empty [sep]: at most two pieces,
    the second one unsplit. *)
Definition SplitN2 (s sep : string) : list string :=
  match Index s sep with
  | None => [s]
  | Some i => [upto i s; from (i + len sep) s]
  end.

(** [strings.Join(elems, sep)] *)
Fixpoint Join (elems : list string) (sep : string) : string :=
  match elems with
  | [] => EmptyString
  | [e] => e
  | e :: elems' => e ++ sep ++ Join elems' sep
  end.

(** [s[0] >= '0' && s[0] <= '9'] on a byte *)
Definition isDigit (c : ascii) : bool :=
  (48 <=? nat_of_ascii c)%nat && (nat_of_ascii c <=? 57)%nat.

(** The string of the given byte values. *)
Fixpoint bytes (l : list nat) : string :=
  match l with
  | [] => EmptyString
  | n :: l' => String (ascii_of_nat n) (bytes l')
  end.

(** The bytes of [s] in reverse order, onto [acc]. *)
Fixpoint revOnto (s acc : string) : string :=
  match s with
  | EmptyString => acc
  | String c s' => revOnto s' (String c acc)
  end.

Definition reverse (s : string) : string := revOnto s EmptyString.

(** [byte c] occurs in the ASCII [cutset]. *)
Fixpoint inCutset (cutset : string) (c : ascii) : bool :=
  match cutset with
  | EmptyString => false
  | String d cutset' => Ascii.eqb c d || inCutset cutset' c
  end.

(** [strings.TrimLeft(s, cutset)] for an ASCII [cutset] *)
Fixpoint TrimLeft (s cutset : string) : string :=
  match s with
  | EmptyString => EmptyString
  | String c s' => if inCutset cutset c then TrimLeft s' cutset else s
  end.

(** [strings.TrimRight(s, cutset)] for an ASCII [cutset] *)
Definition TrimRight (s cutset : string) : string :=
  reverse (TrimLeft (reverse s) cutset).

(** [strings.Trim(s, cutset)] for an ASCII [cutset] *)
Definition Trim (s cutset : string) : string :=
  TrimRight (TrimLeft s cutset) cutset.

(** The UTF-8 encodings of the code points of [unicode.IsSpace]: the six
    ASCII ones, U+0085, U+00A0, U+1680, U+2000 to U+200A, U+2028, U+2029,
    U+202F, U+205F and U+3000.  No encoding is a prefix of another. *)
Definition unicodeSpaces : list string :=
  map bytes
    ([[9]; [10]; [11]; [12]; [13]; [32]; [194; 133]; [194; 160]; [225; 154; 128]]
     ++ map (fun k => [226; 128; 128 + k]) (seq 0 11)
     ++ [[226; 128; 168]; [226; 128; 169]; [226; 128; 175]; [226; 129; 159];
         [227; 128; 128]]).

(** The length of the white-space rune [s] starts with, if any. *)
Definition spacePrefix (s : string) : option nat :=
  len <$> List.find (HasPrefix s) unicodeSpaces.

(** The length of the white-space rune [s] ends with, if any, for [r] the
    reverse of [s]. *)
Definition spaceSuffix (r : string) : option nat :=
  len <$> List.find (fun sp => HasPrefix r (reverse sp)) unicodeSpaces.

(** Drop leading white-space runes, at most [fuel] of them. *)
Fixpoint dropSpaces (front : string -> option nat) (fuel : nat) (s : string) : string :=
  match fuel with
  | O => s
  | S fuel' =>
      match front s with
      | Some n => dropSpaces front fuel' (from n s)
      | None => s
      end
  end.

(** [strings.TrimSpace(s)]: [s] without leading and trailing white space, as
    [unicode.IsSpace] defines it. *)
Definition TrimSpace (s : string) : string :=
  let s1 := dropSpaces spacePrefix (len s) s in
  reverse (dropSpaces spaceSuffix (len s1) (reverse s1)).

End gostrings.

Import gostrings.

(** ** Version extractor *)

(** The loop [for i := 1; i < len(dashParts); i++] of
    [extractVersionFromResolved], run from index [i] over the parts that
    remain: the index of the first part that starts with a digit. *)
Fixpoint versionStartFrom (i : nat) (parts : list string) : option nat :=
  match parts with
  | [] => None
  | p :: parts' =>
      match p with
      | String c _ => if isDigit c then Some i else versionStartFrom (S i) parts'
      | EmptyString => versionStartFrom (S i) parts'
      end
  end.

(** [versionStartIdx]; [None] stands for [-1]. *)
Definition versionStartIdx (dashParts : list string) : option nat :=
  versionStartFrom 1 (drop 1 dashParts).

(** [extractVersionFromResolved], lines 166-208 *)
Definition extractVersionFromResolved (resolved : string) : string :=
  if String.eqb resolved "" then ""
  else
    let parts := Split resolved "/-/" in
    if (length parts <? 2)%nat then ""
    else
      let filename := List.last parts "" in
      let filename := TrimSuffix filename ".tgz" in
      let dashParts := Split filename "-" in
      if (length dashParts <? 2)%nat then ""
      else
        match versionStartIdx dashParts with
        | None => ""
        | Some i => Join (drop i dashParts) "-"
        end.

(** [getActualVersion], lines 212-217 *)
Definition getActualVersion (declared resolved : string) : string :=
  let resolvedVersion := extractVersionFromResolved resolved in
  if negb (String.eqb resolvedVersion "") then resolvedVersion else declared.


(** ** Version matcher *)

(** The part of [github.com/Masterminds/semver/v3] that the matcher calls.
    The library is a dependency of the repository: the matcher is stated
    over this interface, and [Masterminds] below models the library. *)
Class Semver := {
  Version : Type;
  Constraints : Type;
  (** [semver.NewVersion(v)]; [None] when [err != nil] *)
  NewVersion : string -> option Version;
  (** [semver.NewConstraint(c)]; [None] when [err != nil] *)
  NewConstraint : string -> option Constraints;
  (** [c.Check(v)] *)
  Check : Constraints -> Version -> bool;
  (** [v.Equal(o)] *)
  Equal : Version -> Version -> bool;
  (** [v.Prerelease()] *)
  Prerelease : Version -> string;
  (** [v.Major()], [v.Minor()], [v.Patch()], of type [uint64] *)
  Major : Version -> N;
  Minor : Version -> N;
  Patch : Version -> N
}.

(** [fmt.Sprintf("%d", n)] for an unsigned [n] *)
Definition fmt_d (n : N) : string := NilEmpty.string_of_uint (N.to_uint n).

(** The range-operator prefixes of [cleanVersionString] and
    [isConstraintNotVersion], in the order of the source. *)
Definition constraintPrefixes : list string := ["^"; "~"; ">="; "<="; ">"; "<"; "="].

(** [cleanVersionString], lines 487-497 *)
Definition cleanVersionString (version : string) : string :=
  let version := TrimSpace version in
  match List.find (HasPrefix version) constraintPrefixes with
  | Some prefix => TrimSpace (from (len prefix) version)
  | None => version
  end.

(** [isConstraintNotVersion], lines 500-518: the tests are made on the
    string without its leading and trailing white space. *)
Definition isConstraintNotVersion (version : string) : bool :=
  let version := TrimSpace version in
  if existsb (HasPrefix version) constraintPrefixes then true
  else if Contains version " " then true
  else if Contains version "," then true
  else false.

Section Matcher.
Context `{Semver}.

(** The prerelease test of the matcher: the installed version carries a
    prerelease label, the vulnerable one does not, and the installed core
    [major.minor.patch] equals the vulnerable version. *)
Definition prereleaseOfVulnerable (installedVer vulnVer : Version) : bool :=
  if negb (String.eqb (Prerelease installedVer) "") && String.eqb (Prerelease vulnVer) ""
  then
    match NewVersion (fmt_d (Major installedVer) ++ "." ++ fmt_d (Minor installedVer)
                        ++ "." ++ fmt_d (Patch installedVer)) with
    | Some coreInstalled => Equal coreInstalled vulnVer
    | None => false
    end
  else false.

(** Body of the loop over [vulnerableVersions] when the installed string
    parsed as a constraint: [true] when the iteration returns [true]. *)
Definition constraintHits (installedConstraint : Constraints) (vulnVersion : string) : bool :=
  match NewVersion vulnVersion with
  | Some vulnVer => Check installedConstraint vulnVer
  | None => false
  end.

(** Body of the loop when the cleaned installed string parsed as a version:
    an entry that parses as a constraint is only checked as one
    ([continue]). *)
Definition versionHits (installedVer : Version) (vulnVersion : string) : bool :=
  match NewConstraint vulnVersion with
  | Some constraint => Check constraint installedVer
  | None =>
      match NewVersion vulnVersion with
      | Some vulnVer =>
          if Equal installedVer vulnVer then true
          else prereleaseOfVulnerable installedVer vulnVer
      | None => false
      end
  end.

(** Body of the loop of the [else] branch, on the uncleaned string. *)
Definition directHits (directVer : Version) (vulnVersion : string) : bool :=
  match NewVersion vulnVersion with
  | Some vulnVer =>
      if Equal directVer vulnVer then true
      else prereleaseOfVulnerable directVer vulnVer
  | None => false
  end.

(** The installed string as a constraint, when it is one and parses
    (lines 418-419). *)
Definition installedAsConstraint (installedVersion : string) : option Constraints :=
  if isConstraintNotVersion installedVersion then NewConstraint installedVersion
  else None.

(** [isVersionVulnerable], lines 408-483.  Each loop that returns [true]
    from its body and is followed by [return false], or by the end of the
    function, is an [existsb]. *)
Definition isVersionVulnerable (installedVersion : string)
    (vulnerableVersions : list string) : bool :=
  if existsb (String.eqb installedVersion) vulnerableVersions then true
  else
    match installedAsConstraint installedVersion with
    | Some installedConstraint =>
        existsb (constraintHits installedConstraint) vulnerableVersions
    | None =>
        let cleanVersion := cleanVersionString installedVersion in
        match NewVersion cleanVersion with
        | Some installedVer => existsb (versionHits installedVer) vulnerableVersions
        | None =>
            match NewVersion installedVersion with
            | Some directVer => existsb (directHits directVer) vulnerableVersions
            | None => false
            end
        end
    end.

End Matcher.

(** ** A model of the semantic-version library

    [github.com/Masterminds/semver/v3] is a dependency, not part of the
    repository.  The theorems about the matcher are proved for every
    implementation of [Semver].  This executable model of the library
    follows its release 3.4: the regular expressions of version.go and
    constraints.go, [NewVersion] with its default coercion, [Compare],
    [NewConstraint] and the constraint functions.  It gives [Semver] an
    instance, on which the tests of the repository run.  Releases before 3.3
    test the prerelease of each constraint on its own, not of the group of
    constraints that must all hold; the two agree on a group that names no
    prerelease or that holds one constraint. *)

(** *** Regular expressions with Go's leftmost-first matching *)

Module regexp.

Inductive re : Type :=
| Empty                       (* the empty expression *)
| Class (p : ascii -> bool)   (* one byte of a class *)
| Cat (a b : re)              (* ab *)
| Or (a b : re)               (* a|b, a preferred *)
| Many (a : re)               (* a repeated, greedy *)
| Group (i : nat) (a : re)    (* the i-th capturing group *)
| Bol                         (* ^ *)
| Eol.                        (* $ *)

(** The capturing groups that took part in a match, the last one first. *)
Definition submatches := list (nat * string).

(** [m[i]] of a result of [FindStringSubmatch]: empty for a group that did
    not take part. *)
Fixpoint sub (m : submatches) (i : nat) : string :=
  match m with
  | [] => EmptyString
  | (j, s) :: m' => if Nat.eqb i j then s else sub m' i
  end.

(** Backtracking match of [r] at the head of [s], continued by [k]; [total]
    is the length of the whole text. *)
Fixpoint run (total : nat) (r : re) (s : string) (c : submatches)
    (k : string -> submatches -> option (string * submatches))
    {struct r} : option (string * submatches) :=
  match r with
  | Empty => k s c
  | Class p =>
      match s with
      | String a s' => if p a then k s' c else None
      | EmptyString => None
      end
  | Cat a b => run total a s c (fun s' c' => run total b s' c' k)
  | Or a b =>
      match run total a s c k with
      | Some res => Some res
      | None => run total b s c k
      end
  | Many a =>
      (fix loop (n : nat) (s : string) (c : submatches) {struct n} :=
         match n with
         | O => k s c
         | S n' =>
             match run total a s c
                     (fun s' c' => if (len s' <? len s)%nat then loop n' s' c' else None) with
             | Some res => Some res
             | None => k s c
             end
         end) (len s) s c
  | Group i a => run total a s c (fun s' c' => k s' ((i, upto (len s - len s') s) :: c'))
  | Bol => if Nat.eqb (len s) total then k s c else None
  | Eol => match s with EmptyString => k s c | String _ _ => None end
  end.

(** The match of [r] that starts at the head of [s]: the text after it and
    the groups, group 0 being the match. *)
Definition matchHere (total : nat) (r : re) (s : string) : option (string * submatches) :=
  run total r s [] (fun s' c => Some (s', (0, upto (len s - len s') s) :: c)).

(** The leftmost match of [r] in [s]. *)
Fixpoint findLeftmost (total : nat) (r : re) (s : string) : option (string * submatches) :=
  match matchHere total r s with
  | Some res => Some res
  | None =>
      match s with
      | EmptyString => None
      | String _ s' => findLeftmost total r s'
      end
  end.

(** [r.FindStringSubmatch(s)] *)
Definition FindStringSubmatch (r : re) (s : string) : option submatches :=
  snd <$> findLeftmost (len s) r s.

(** [r.MatchString(s)] *)
Definition MatchString (r : re) (s : string) : bool :=
  match FindStringSubmatch r s with Some _ => true | None => false end.

(** The successive matches of [r] in [s], for an [r] that matches no empty
    string (after an empty match the search moves on by one byte). *)
Fixpoint findAll (total : nat) (r : re) (fuel : nat) (s : string) : list submatches :=
  match fuel with
  | O => []
  | S fuel' =>
      match findLeftmost total r s with
      | None => []
      | Some (rest, m) =>
          m :: match sub m 0, rest with
               | EmptyString, String _ rest' => findAll total r fuel' rest'
               | EmptyString, EmptyString => []
               | String _ _, _ => findAll total r fuel' rest
               end
      end
  end.

(** [r.FindAllStringSubmatch(s, -1)] *)
Definition FindAllStringSubmatch (r : re) (s : string) : list submatches :=
  findAll (len s) r (S (len s)) s.

(** [r.FindAllString(s, -1)] *)
Definition FindAllString (r : re) (s : string) : list string :=
  map (fun m => sub m 0) (FindAllStringSubmatch r s).

Definition chr (c : ascii) : re := Class (Ascii.eqb c).
Definition plus (a : re) : re := Cat a (Many a).
Definition opt (a : re) : re := Or a Empty.
Definition cats (l : list re) : re := fold_right Cat Empty l.

Fixpoint lit (s : string) : re :=
  match s with
  | EmptyString => Empty
  | String c s' => Cat (chr c) (lit s')
  end.

(** a1|a2|... for literal alternatives *)
Fixpoint alts (l : list string) : re :=
  match l with
  | [] => Class (fun _ => false)
  | [s] => lit s
  | s :: l' => Or (lit s) (alts l')
  end.

(** The class \s: tab, new line, form feed, carriage return, space *)
Definition space : re :=
  Class (fun c => existsb (Nat.eqb (nat_of_ascii c)) [9; 10; 12; 13; 32]).

End regexp.

(** *** Versions, constraints and their checks *)

Module Masterminds.
Import regexp.

Record version := {
  major : N;
  minor : N;
  patch : N;
  pre : string;
  metadata : string;
  original : string
}.

(** The class [0-9] *)
Definition num : re := Class isDigit.

(** The class [0-9|x|X|\*] of a component of a constraint version *)
Definition numOrX : re :=
  Class (fun c => isDigit c || existsb (Ascii.eqb c) ["|"; "x"; "X"; "*"]%char).

(** The class [0-9A-Za-z\-] *)
Definition ident : re :=
  Class (fun c =>
    let n := nat_of_ascii c in
    isDigit c || ((65 <=? n) && (n <=? 90))%nat || ((97 <=? n) && (n <=? 122))%nat
    || Ascii.eqb c "-").

(** The optional label  (-([0-9A-Za-z\-]+(\.[0-9A-Za-z\-]+)* ))?  with [lead]
    for the dash and the groups [g], [g+1], [g+2].  (Here and below the
    blanks in an expression are not part of it.) *)
Definition labels (lead : ascii) (g : nat) : re :=
  opt (Group g (Cat (chr lead)
    (Group (g + 1) (Cat (plus ident) (Many (Group (g + 2) (Cat (chr ".") (plus ident)))))))).

(** v?(C+)(\.C+)?(\.C+)?  followed by the labels led by - and by +, for the
    component class [comp] as C; its nine groups are numbered from [b + 1] *)
Definition versionShape (comp : re) (b : nat) : re :=
  cats [opt (chr "v"); Group (b + 1) (plus comp);
        opt (Group (b + 2) (Cat (chr ".") (plus comp)));
        opt (Group (b + 3) (Cat (chr ".") (plus comp)));
        labels "-" (b + 4); labels "+" (b + 7)].

(** [looseSemVerRegex], anchored: the expression [NewVersion] parses with *)
Definition versionRegex : re := cats [Bol; versionShape num 0; Eol].

(** [cvRegex] *)
Definition cvRegex (b : nat) : re := versionShape numOrX b.

(** =||!=|>|<|>=|=>|<=|=<|~|~>|\^ *)
Definition ops : re :=
  alts ["="; ""; "!="; ">"; "<"; ">="; "=>"; "<="; "=<"; "~"; "~>"; "^"].

(** ^\s* (ops)\s* (cvRegex)\s* $ *)
Definition constraintRegex : re :=
  cats [Bol; Many space; Group 1 ops; Many space; Group 2 (cvRegex 2); Many space; Eol].

(** \s* (cvRegex)\s+-\s+(cvRegex)\s* *)
Definition constraintRangeRegex : re :=
  cats [Many space; Group 1 (cvRegex 1); plus space; chr "-"; plus space;
        Group 11 (cvRegex 11); Many space].

(** (ops)\s* (cvRegex) *)
Definition findConstraintRegex : re :=
  cats [Group 1 ops; Many space; Group 2 (cvRegex 2)].

(** ^(\s* (ops)\s* (cvRegex)\s* )((?:\s+|,\s* )(ops)\s* (cvRegex)\s* )*$ *)
Definition validConstraintRegex : re :=
  cats [Bol;
        Group 1 (cats [Many space; Group 2 ops; Many space; Group 3 (cvRegex 3); Many space]);
        Many (Group 13 (cats [Or (plus space) (Cat (chr ",") (Many space));
                              Group 14 ops; Many space; Group 15 (cvRegex 15); Many space]));
        Eol].

(** The value of a string of decimal digits, onto [acc]. *)
Fixpoint digitsValue (acc : N) (s : string) : option N :=
  match s with
  | EmptyString => Some acc
  | String c s' =>
      if isDigit c then digitsValue (acc * 10 + (N_of_ascii c - 48)) s' else None
  end.

(** [strconv.ParseUint(s, 10, 64)]; [None] when [err != nil] *)
Definition ParseUint (s : string) : option N :=
  match s with
  | EmptyString => None
  | String _ _ =>
      n ← digitsValue 0 s;
      if (n <? 2 ^ 64)%N then Some n else None
  end.

(** All bytes of [s] are digits. *)
Fixpoint onlyDigits (s : string) : bool :=
  match s with
  | EmptyString => true
  | String c s' => isDigit c && onlyDigits s'
  end.

(** [validatePrerelease(p) == nil] for a [p] that matched the expression: no
    numeric identifier has a leading zero. *)
Definition validatePrerelease (p : string) : bool :=
  forallb (fun part =>
             negb (onlyDigits part && (1 <? len part)%nat && HasPrefix part "0"))
          (Split p ".").

(** [.N] or nothing, as a number *)
Definition optionalSegment (s : string) : option N :=
  if String.eqb s "" then Some 0%N else ParseUint (TrimPrefix s ".").

Definition NewVersion (v : string) : option version :=
  m ← FindStringSubmatch versionRegex v;
  ma ← ParseUint (sub m 1);
  mi ← optionalSegment (sub m 2);
  pa ← optionalSegment (sub m 3);
  if negb (String.eqb (sub m 5) "") && negb (validatePrerelease (sub m 5)) then None
  else Some {| major := ma; minor := mi; patch := pa; pre := sub m 5;
               metadata := sub m 8; original := v |}.

(** [comparePrePart(s, o)] *)
Definition comparePrePart (s o : string) : comparison :=
  if String.eqb s o then Eq
  else if String.eqb s "" then Lt
  else if String.eqb o "" then Gt
  else
    match ParseUint o, ParseUint s with
    | None, None => match String.compare s o with Gt => Gt | _ => Lt end
    | None, Some _ => Lt
    | Some _, None => Gt
    | Some oi, Some si => if (oi <? si)%N then Gt else Lt
    end.

(** The loop [for i := 0; i < l; i++] of [comparePrerelease], with [n]
    iterations left; a part that is missing reads as the empty string. *)
Fixpoint comparePreFrom (sparts oparts : list string) (n i : nat) : comparison :=
  match n with
  | O => Eq
  | S n' =>
      match comparePrePart (nth i sparts "") (nth i oparts "") with
      | Eq => comparePreFrom sparts oparts n' (S i)
      | d => d
      end
  end.

Definition comparePrerelease (v o : string) : comparison :=
  let sparts := Split v "." in
  let oparts := Split o "." in
  comparePreFrom sparts oparts (Nat.max (length sparts) (length oparts)) 0.

(** [v.Compare(o)]: [Lt], [Eq], [Gt] for -1, 0, 1 *)
Definition Compare (v o : version) : comparison :=
  match (major v ?= major o)%N with
  | Eq =>
      match (minor v ?= minor o)%N with
      | Eq =>
          match (patch v ?= patch o)%N with
          | Eq =>
              if String.eqb (pre v) "" && String.eqb (pre o) "" then Eq
              else if String.eqb (pre v) "" then Gt
              else if String.eqb (pre o) "" then Lt
              else comparePrerelease (pre v) (pre o)
          | d => d
          end
      | d => d
      end
  | d => d
  end.

Definition Equal (v o : version) : bool :=
  match Compare v o with Eq => true | _ => false end.

Definition LessThan (v o : version) : bool :=
  match Compare v o with Lt => true | _ => false end.

Record constraint := {
  con : version;
  orig : string;
  origfunc : string;
  minorDirty : bool;
  dirty : bool;
  patchDirty : bool
}.

Definition isX (x : string) : bool :=
  String.eqb x "x" || String.eqb x "*" || String.eqb x "X".

Definition parseConstraint (c : string) : option constraint :=
  if (0 <? len c)%nat then
    m ← FindStringSubmatch constraintRegex c;
    let '(ver, minorD, patchD, d) :=
      if isX (sub m 3) || String.eqb (sub m 3) "" then
        (("0.0.0" ++ sub m 6)%string, false, false, true)
      else if isX (TrimPrefix (sub m 4) ".") || String.eqb (sub m 4) "" then
        ((sub m 3 ++ ".0.0" ++ sub m 6)%string, true, false, true)
      else if isX (TrimPrefix (sub m 5) ".") || String.eqb (sub m 5) "" then
        ((sub m 3 ++ sub m 4 ++ ".0" ++ sub m 6)%string, false, true, true)
      else (sub m 2, false, false, false) in
    cv ← NewVersion ver;
    Some {| con := cv; orig := sub m 2; origfunc := sub m 1;
            minorDirty := minorD; dirty := d; patchDirty := patchD |}
  else
    cv ← NewVersion "0.0.0";
    Some {| con := cv; orig := c; origfunc := ""; minorDirty := false; dirty := true;
            patchDirty := false |}.

(** The test every constraint function starts with: a prerelease version
    only matches where prereleases are looked for. *)
Definition prereleaseExcluded (v : version) (includePre : bool) : bool :=
  negb (String.eqb (pre v) "") && negb includePre.

Definition constraintNotEqual (v : version) (c : constraint) (includePre : bool) : bool :=
  if prereleaseExcluded v includePre then false
  else if dirty c then
    if negb (major (con c) =? major v)%N then true
    else if negb (minor (con c) =? minor v)%N && negb (minorDirty c) then true
    else if minorDirty c then false
    else if negb (patch (con c) =? patch v)%N && negb (patchDirty c) then true
    else if patchDirty c then
      if negb (String.eqb (pre v) "") || negb (String.eqb (pre (con c)) "") then
        match comparePrerelease (pre v) (pre (con c)) with Eq => false | _ => true end
      else false
    else negb (Equal v (con c))
  else negb (Equal v (con c)).

Definition constraintGreaterThan (v : version) (c : constraint) (includePre : bool) : bool :=
  if prereleaseExcluded v includePre then false
  else if negb (dirty c) then match Compare v (con c) with Gt => true | _ => false end
  else if (major (con c) <? major v)%N then true
  else if (major v <? major (con c))%N then false
  else if minorDirty c then false
  else if patchDirty c then (minor (con c) <? minor v)%N
  else match Compare v (con c) with Gt => true | _ => false end.

Definition constraintLessThan (v : version) (c : constraint) (includePre : bool) : bool :=
  if prereleaseExcluded v includePre then false
  else match Compare v (con c) with Lt => true | _ => false end.

Definition constraintGreaterThanEqual (v : version) (c : constraint) (includePre : bool)
    : bool :=
  if prereleaseExcluded v includePre then false
  else match Compare v (con c) with Lt => false | _ => true end.

Definition constraintLessThanEqual (v : version) (c : constraint) (includePre : bool)
    : bool :=
  if prereleaseExcluded v includePre then false
  else if negb (dirty c) then match Compare v (con c) with Gt => false | _ => true end
  else if (major (con c) <? major v)%N then false
  else if (major v =? major (con c))%N && (minor (con c) <? minor v)%N
          && negb (minorDirty c) then false
  else true.

Definition constraintTilde (v : version) (c : constraint) (includePre : bool) : bool :=
  if prereleaseExcluded v includePre then false
  else if LessThan v (con c) then false
  else if (major (con c) =? 0)%N && (minor (con c) =? 0)%N && (patch (con c) =? 0)%N
          && negb (minorDirty c) && negb (patchDirty c) then true
  else if negb (major v =? major (con c))%N then false
  else if negb (minor v =? minor (con c))%N && negb (minorDirty c) then false
  else true.

Definition constraintTildeOrEqual (v : version) (c : constraint) (includePre : bool) : bool :=
  if prereleaseExcluded v includePre then false
  else if dirty c then constraintTilde v c includePre
  else Equal v (con c).

Definition constraintCaret (v : version) (c : constraint) (includePre : bool) : bool :=
  if prereleaseExcluded v includePre then false
  else if LessThan v (con c) then false
  else if (0 <? major (con c))%N || minorDirty c then (major v =? major (con c))%N
  else if (major (con c) =? 0)%N && (0 <? major v)%N then false
  else if (0 <? minor (con c))%N || patchDirty c then (minor v =? minor (con c))%N
  else if (minor (con c) =? 0)%N && (0 <? minor v)%N then false
  else (patch (con c) =? patch v)%N.

(** [constraintOps[op]]; every operator the expression [ops] lets through
    is a key of the table. *)
Definition constraintOps (op : string) : version -> constraint -> bool -> bool :=
  if existsb (String.eqb op) [""; "="] then constraintTildeOrEqual
  else if String.eqb op "!=" then constraintNotEqual
  else if String.eqb op ">" then constraintGreaterThan
  else if String.eqb op "<" then constraintLessThan
  else if existsb (String.eqb op) [">="; "=>"] then constraintGreaterThanEqual
  else if existsb (String.eqb op) ["<="; "=<"] then constraintLessThanEqual
  else if existsb (String.eqb op) ["~"; "~>"] then constraintTilde
  else constraintCaret.

(** [c.check(v, includePre)] *)
Definition check (c : constraint) (v : version) (includePre : bool) : bool :=
  constraintOps (origfunc c) v c includePre.

(** [strings.Replace(s, old, new, 1)] for a non-empty [old] *)
Definition replaceFirst (s old new : string) : string :=
  match Index s old with
  | Some i => (upto i s ++ new ++ from (i + len old) s)%string
  | None => s
  end.

(** [rewriteRange]: [a - b] becomes [>= a, <= b ]. *)
Definition rewriteRange (i : string) : string :=
  fold_left
    (fun o v => replaceFirst o (sub v 0) (">= " ++ sub v 1 ++ ", <= " ++ sub v 11 ++ " ")%string)
    (FindAllStringSubmatch constraintRangeRegex i) i.

(** [Constraints]: the groups joined by [||], each a list of constraints
    that must all hold, with its [containsPre] flag. *)
Definition constraints := list (list constraint * bool).

(** One iteration of the loop of [NewConstraint] over the [||] groups. *)
Definition parseGroup (v : string) : option (list constraint * bool) :=
  if negb (MatchString validConstraintRegex v) then None
  else
    let cs := FindAllString findConstraintRegex v in
    let cs := match cs with [] => [v] | _ => cs end in
    result ← mapM parseConstraint cs;
    Some (result, existsb (fun pc => negb (String.eqb (pre (con pc)) "")) result).

Definition NewConstraint (c : string) : option constraints :=
  mapM parseGroup (Split (rewriteRange c) "||").

(** [cs.Check(v)] with [IncludePrerelease] unset *)
Definition Check (cs : constraints) (v : version) : bool :=
  existsb (fun g => forallb (fun c => check c v (snd g)) (fst g)) cs.

End Masterminds.

#[export] Instance Masterminds_semver : Semver := {|
  Version := Masterminds.version;
  Constraints := Masterminds.constraints;
  NewVersion := Masterminds.NewVersion;
  NewConstraint := Masterminds.NewConstraint;
  Check := Masterminds.Check;
  Equal := Masterminds.Equal;
  Prerelease := Masterminds.pre;
  Major := Masterminds.major;
  Minor := Masterminds.minor;
  Patch := Masterminds.patch
|}.

(** ** Vulnerability index *)

(** Modelled from the spec: the declaration of the type [VulnerablePackage]
    is not in src/.  The spec gives an entry a name, a string, and its
    versions, an ordered sequence of strings; the scanner reads them as the
    fields [Name] and [Versions], and the tests build an entry from a string
    and a list of strings. *)
Record VulnerablePackage := {
  Name : string;
  Versions : list string
}.

(** The zero value [VulnerablePackage{}] *)
Definition noVulnerablePackage : VulnerablePackage := {| Name := ""; Versions := [] |}.

Abbreviation VulnerablePackageMap := (gmap string VulnerablePackage).

(** [buildVulnerablePackageMap], lines 223-229 *)
Definition buildVulnerablePackageMap (vulnerablePackages : list VulnerablePackage)
    : VulnerablePackageMap :=
  foldl (fun packageMap pkg => <[Name pkg := pkg]> packageMap) ∅ vulnerablePackages.

(** [formatVulnerabilityMessage], lines 242-244 *)
Definition formatVulnerabilityMessage (pkgName version filename : string)
    (vulnerablePackage : VulnerablePackage) : string :=
  "Found vulnerable package " ++ pkgName ++ " with version " ++ version ++ " in " ++ filename.

Section Index.
Context `{Semver}.

(** The method [isVulnerable] of [VulnerablePackageMap], lines 232-239 *)
Definition isVulnerable (vpm : VulnerablePackageMap) (packageName version : string)
    : bool * VulnerablePackage :=
  match vpm !! packageName with
  | Some vulnerablePackage =>
      if isVersionVulnerable version (Versions vulnerablePackage)
      then (true, vulnerablePackage)
      else (false, noVulnerablePackage)
  | None => (false, noVulnerablePackage)
  end.

(** The findings of one [(pkgName, version)] pair: the body
    [if isVuln, vulnerablePackage := vpm.isVulnerable(..); isVuln { append }]
    that the scanners share, the message being built by [message]. *)
Definition findingsOf (vpm : VulnerablePackageMap) (pkgName version : string)
    (message : VulnerablePackage -> string) : list string :=
  let '(isVuln, vulnerablePackage) := isVulnerable vpm pkgName version in
  if isVuln then [message vulnerablePackage] else [].

End Index.

(** ** Files and paths *)

(** The cutset of the yarn scanner: the double and the single quote. *)
Definition quoteCutset : string := String "034" (String "039" EmptyString).

Module filepath.

(** [filepath.Join(dir, name)] for a [dir] that is clean already (no [.] or
    [..] element, no doubled or trailing separator) and a plain file
    [name]. *)
Definition Join (dir name : string) : string :=
  if String.eqb dir "" then name else dir ++ "/" ++ name.

(** [filepath.Base(path)] *)
Definition Base (path : string) : string :=
  if String.eqb path "" then "."
  else
    let path := TrimRight path "/" in
    let path := List.last (Split path "/") "" in
    if String.eqb path "" then "/" else path.

End filepath.

(** What [os.Stat] and [ioutil.ReadFile] find at a path: nothing ([os.Stat]
    returns an error), a file that cannot be read, or a file with its
    contents.  The contents of a JSON or YAML file are given as
    [json.Unmarshal] or [yaml.Unmarshal] decodes them, [None] when the
    decoder returns an error. *)
Inductive File (T : Type) : Type :=
| Absent
| Unreadable
| Contents (data : T).
Arguments Absent {T}.
Arguments Unreadable {T}.
Arguments Contents {T} data.

(** [_, err := os.Stat(path); err == nil] *)
Definition Stat {T : Type} (file : File T) : bool :=
  match file with Absent => false | _ => true end.

(** [ioutil.ReadFile(path)]; [None] when [err != nil] *)
Definition ReadFile {T : Type} (file : File T) : option T :=
  match file with Contents data => Some data | _ => None end.

(** The two errors of a scanner, [fmt.Errorf("failed to read %s: %w", path, err)]
    and [fmt.Errorf("failed to unmarshal %s: %w", path, err)]. *)
Inductive ScanError : Type :=
| ReadError (path : string)
| ParseError (path : string).

(** The result [([]string, error)] of a scanner; [None] is the [nil]
    error. *)
Definition Result : Type := list string * option ScanError.

(** [for k, v := range m]: the loop visits every entry of [m] once, in an
    order that Go leaves unspecified and that may change from one loop to
    the next. *)
Definition ranges {V : Type} (m : gmap string V) (visited : list (string * V)) : Prop :=
  visited ≡ₚ map_to_list m.

(** ** The decoded manifests (lines 119-162)

    A [nil] map ranges over nothing and has length 0, as the empty map does;
    both are [∅] here, and the test [depType.deps == nil] of the scanners,
    which skips a loop over nothing, has no counterpart. *)

Module PackageJSON.
Record t := {
  Dependencies : gmap string string;
  DevDependencies : gmap string string;
  PeerDependencies : gmap string string;
  OptionalDependencies : gmap string string;
  BundledDependencies : list string
}.
End PackageJSON.

Module PackageLockPackageInfo.
Record t := {
  Version : string;
  Resolved : string;
  Dependencies : gmap string string
}.
End PackageLockPackageInfo.

Module PackageLockInfo.
#[warnings="-register-all"]
Inductive t : Type := Build {
  Version : string;
  Dependencies : gmap string t
}.
End PackageLockInfo.

Module PackageLockJSON.
Record t := {
  LockfileVersion : Z;
  Packages : gmap string PackageLockPackageInfo.t;
  Dependencies : gmap string PackageLockInfo.t
}.
End PackageLockJSON.

Module PnpmPackageInfo.
(** The [Resolution] field, of type [interface{}], is never read. *)
Record t := {
  Version : string;
  Dev : bool;
  Dependencies : gmap string string
}.
End PnpmPackageInfo.

Module PnpmLock.
Record t := {
  LockfileVersion : Z;
  Dependencies : gmap string string;
  DevDependencies : gmap string string;
  Packages : gmap string PnpmPackageInfo.t;
  Specifiers : gmap string string
}.
End PnpmLock.

(** ** The four scanners *)

(** [extractPackageNameFromYarnSpec], lines 638-665 *)
Definition extractPackageNameFromYarnSpec (spec : string) : string :=
  let spec := TrimSpace spec in
  if HasPrefix spec "@" then
    match Index spec "/" with
    | None => ""
    | Some firstSlash =>
        match Index (from firstSlash spec) "@" with
        | None => spec
        | Some secondAt => upto (firstSlash + secondAt) spec
        end
    end
  else
    match Index spec "@" with
    | None => spec
    | Some atIndex => upto atIndex spec
    end.

(** [extractPackageNameAndVersionFromPnpmPath], lines 792-817 *)
Definition extractPackageNameAndVersionFromPnpmPath (pkgPath : string) : string * string :=
  let pkgPath := TrimPrefix pkgPath "/" in
  let components := Split pkgPath "/" in
  if (length components <? 2)%nat then ("", "")
  else if HasPrefix pkgPath "@" then
    if (length components <? 3)%nat then ("", "")
    else ((nth 0 components "" ++ "/" ++ nth 1 components "")%string, nth 2 components "")
  else (nth 0 components "", nth 1 components "").

(** The loop over [packageSpecs] of the yarn scanner: the first
    specification that yields a non-empty name. *)
Fixpoint firstPackageName (packageSpecs : list string) : option string :=
  match packageSpecs with
  | [] => None
  | spec :: packageSpecs' =>
      let spec := Trim (TrimSpace spec) quoteCutset in
      let packageName := extractPackageNameFromYarnSpec spec in
      if negb (String.eqb packageName "") then Some packageName
      else firstPackageName packageSpecs'
  end.

Section Scanners.
Context `{Semver}.
Variable vulnerablePackageMap : VulnerablePackageMap.

(** *** package.json *)

(** The loop over the entries of one dependency map, in the order
    [visited]. *)
Definition scanDependencyType (filename name : string) (visited : list (string * string))
    : list string :=
  flat_map
    (fun '(pkgName, version) =>
       findingsOf vulnerablePackageMap pkgName version
         (fun vulnerablePackage =>
            formatVulnerabilityMessage pkgName version filename vulnerablePackage
            ++ " (" ++ name ++ ")")%string)
    visited.

(** The loop over [BundledDependencies]. *)
Definition scanBundled (filename : string) (bundled : list string) : list string :=
  flat_map
    (fun bundledPkg =>
       match vulnerablePackageMap !! bundledPkg with
       | Some _ =>
           ["Found vulnerable package " ++ bundledPkg ++ " in " ++ filename
            ++ " (bundledDependencies) - version unknown, check manually"]%string
       | None => []
       end)
    bundled.

(** [scanPackageJSONOptimized], lines 311-355 *)
Inductive scanPackageJSONOptimized (path : string)
    : File (option PackageJSON.t) -> Result -> Prop :=
| scanPackageJSON_unreadable file :
    ReadFile file = None ->
    scanPackageJSONOptimized path file ([], Some (ReadError path))
| scanPackageJSON_malformed :
    scanPackageJSONOptimized path (Contents None) ([], Some (ParseError path))
| scanPackageJSON_found packageJSON deps devDeps peerDeps optDeps :
    ranges (PackageJSON.Dependencies packageJSON) deps ->
    ranges (PackageJSON.DevDependencies packageJSON) devDeps ->
    ranges (PackageJSON.PeerDependencies packageJSON) peerDeps ->
    ranges (PackageJSON.OptionalDependencies packageJSON) optDeps ->
    let filename := filepath.Base path in
    scanPackageJSONOptimized path (Contents (Some packageJSON))
      (scanDependencyType filename "dependencies" deps
       ++ scanDependencyType filename "devDependencies" devDeps
       ++ scanDependencyType filename "peerDependencies" peerDeps
       ++ scanDependencyType filename "optionalDependencies" optDeps
       ++ scanBundled filename (PackageJSON.BundledDependencies packageJSON),
       None).

(** *** package-lock.json *)

(** The body of the loop of [scanPackageLockPackagesOptimized] on one
    entry. *)
Definition scanPackageLockEntry (filename : string)
    (entry : string * PackageLockPackageInfo.t) : list string :=
  let '(pkgPath, pkgInfo) := entry in
  let pkgName := TrimPrefix pkgPath "node_modules/" in
  if String.eqb pkgName "" || Contains pkgName "/node_modules/" then []
  else
    let actualVersion :=
      getActualVersion (PackageLockPackageInfo.Version pkgInfo)
        (PackageLockPackageInfo.Resolved pkgInfo) in
    findingsOf vulnerablePackageMap pkgName actualVersion
      (formatVulnerabilityMessage pkgName actualVersion filename).

(** [scanPackageLockPackagesOptimized], lines 868-885 *)
Inductive scanPackageLockPackagesOptimized
    (packages : gmap string PackageLockPackageInfo.t) (filename : string)
    : list string -> Prop :=
| scanPackageLockPackages_range visited :
    ranges packages visited ->
    scanPackageLockPackagesOptimized packages filename
      (flat_map (scanPackageLockEntry filename) visited).

(** The finding of one node of the version-1 tree. *)
Definition scanPackageLockNode (filename pkgName : string) (pkgInfo : PackageLockInfo.t)
    : list string :=
  findingsOf vulnerablePackageMap pkgName (PackageLockInfo.Version pkgInfo)
    (formatVulnerabilityMessage pkgName (PackageLockInfo.Version pkgInfo) filename).

(** [scanPackageLockDependenciesOptimized], lines 912-924, the recursive
    walk: every entry contributes its own finding and then those of its
    nested dependencies.  The test
    [len(pkgInfo.Dependencies) > 0] of the source only skips a walk that
    would find nothing. *)
#[warnings="-register-all"]
Inductive scanPackageLockDependenciesOptimized (filename : string)
    : gmap string PackageLockInfo.t -> list string -> Prop :=
| scanPackageLockDependencies_range dependencies visited found :
    ranges dependencies visited ->
    Forall2
      (fun entry out =>
         exists nested,
           scanPackageLockDependenciesOptimized filename
             (PackageLockInfo.Dependencies entry.2) nested
           /\ out = scanPackageLockNode filename entry.1 entry.2 ++ nested)
      visited found ->
    scanPackageLockDependenciesOptimized filename dependencies (concat found).

(** [scanPackageLockJSONOptimized], lines 819-841 *)
Inductive scanPackageLockJSONOptimized (path : string)
    : File (option PackageLockJSON.t) -> Result -> Prop :=
| scanPackageLockJSON_unreadable file :
    ReadFile file = None ->
    scanPackageLockJSONOptimized path file ([], Some (ReadError path))
| scanPackageLockJSON_malformed :
    scanPackageLockJSONOptimized path (Contents None) ([], Some (ParseError path))
| scanPackageLockJSON_packages packageLockJSON found :
    (2 <=? PackageLockJSON.LockfileVersion packageLockJSON)%Z
    && (0 <? size (PackageLockJSON.Packages packageLockJSON))%nat = true ->
    scanPackageLockPackagesOptimized (PackageLockJSON.Packages packageLockJSON)
      (filepath.Base path) found ->
    scanPackageLockJSONOptimized path (Contents (Some packageLockJSON)) (found, None)
| scanPackageLockJSON_dependencies packageLockJSON found :
    (2 <=? PackageLockJSON.LockfileVersion packageLockJSON)%Z
    && (0 <? size (PackageLockJSON.Packages packageLockJSON))%nat = false ->
    (0 <? size (PackageLockJSON.Dependencies packageLockJSON))%nat = true ->
    scanPackageLockDependenciesOptimized (filepath.Base path)
      (PackageLockJSON.Dependencies packageLockJSON) found ->
    scanPackageLockJSONOptimized path (Contents (Some packageLockJSON)) (found, None)
| scanPackageLockJSON_neither packageLockJSON :
    (2 <=? PackageLockJSON.LockfileVersion packageLockJSON)%Z
    && (0 <? size (PackageLockJSON.Packages packageLockJSON))%nat = false ->
    (0 <? size (PackageLockJSON.Dependencies packageLockJSON))%nat = false ->
    scanPackageLockJSONOptimized path (Contents (Some packageLockJSON)) ([], None).

(** *** yarn.lock *)

(** One iteration of the loop over the lines: [lines[i]] is [raw], the
    state is the current package name and the findings so far. *)
Definition scanYarnLine (filename : string) (state : string * list string) (raw : string)
    : string * list string :=
  let '(currentPackageName, foundVulnerabilities) := state in
  let line := TrimSpace raw in
  if String.eqb line "" || HasPrefix line "#" then state
  else if negb (HasPrefix raw " ") && HasSuffix line ":" then
    let packageDef := TrimSuffix line ":" in
    match firstPackageName (Split packageDef ",") with
    | Some packageName => (packageName, foundVulnerabilities)
    | None => state
    end
  else if HasPrefix raw "  " && Contains line "version" then
    match SplitN2 line "version" with
    | [_; rest] =>
        let version := Trim (TrimSpace rest) quoteCutset in
        (currentPackageName,
         foundVulnerabilities
         ++ findingsOf vulnerablePackageMap currentPackageName version
              (formatVulnerabilityMessage currentPackageName version filename))
    | _ => state
    end
  else state.

(** [scanYarnLockOptimized], lines 520-572 *)
Definition scanYarnLockOptimized (path : string) (file : File string) : Result :=
  match ReadFile file with
  | Some data =>
      let lines := Split data (String "010" EmptyString) in
      (snd (fold_left (scanYarnLine (filepath.Base path)) lines (EmptyString, [])), None)
  | None => ([], Some (ReadError path))
  end.

(** *** pnpm-lock.yaml *)

(** The body of the loop over the keys of [Packages]. *)
Definition scanPnpmPath (filename : string) (entry : string * PnpmPackageInfo.t)
    : list string :=
  let pkgPath := entry.1 in
  if String.eqb pkgPath "" || String.eqb pkgPath "/" then []
  else
    let '(pkgName, version) := extractPackageNameAndVersionFromPnpmPath pkgPath in
    if String.eqb pkgName "" || String.eqb version "" then []
    else
      findingsOf vulnerablePackageMap pkgName version
        (formatVulnerabilityMessage pkgName version filename).

(** The loop over one of the two dependency maps. *)
Definition scanPnpmDependencies (filename : string) (visited : list (string * string))
    : list string :=
  flat_map
    (fun '(pkgName, version) =>
       findingsOf vulnerablePackageMap pkgName version
         (formatVulnerabilityMessage pkgName version filename))
    visited.

(** [scanPnpmLockOptimized], lines 667-721 *)
Inductive scanPnpmLockOptimized (path : string)
    : File (option PnpmLock.t) -> Result -> Prop :=
| scanPnpmLock_unreadable file :
    ReadFile file = None ->
    scanPnpmLockOptimized path file ([], Some (ReadError path))
| scanPnpmLock_malformed :
    scanPnpmLockOptimized path (Contents None) ([], Some (ParseError path))
| scanPnpmLock_found pnpmLock packages deps devDeps :
    ranges (PnpmLock.Packages pnpmLock) packages ->
    ranges (PnpmLock.Dependencies pnpmLock) deps ->
    ranges (PnpmLock.DevDependencies pnpmLock) devDeps ->
    let filename := filepath.Base path in
    scanPnpmLockOptimized path (Contents (Some pnpmLock))
      (flat_map (scanPnpmPath filename) packages
       ++ scanPnpmDependencies filename deps
       ++ scanPnpmDependencies filename devDeps,
       None).

End Scanners.

(** ** The entry point *)

(** The four files of a downloaded action that [ScanAction] looks at. *)
Record ActionFiles := {
  package_json : File (option PackageJSON.t);
  package_lock_json : File (option PackageLockJSON.t);
  yarn_lock : File string;
  pnpm_lock_yaml : File (option PnpmLock.t)
}.

(** One block [if _, err := os.Stat(p); err == nil { .. }] of [ScanAction],
    entered with the findings [found]: the file is skipped when absent;
    otherwise its scanner runs, and either its findings are appended or its
    error is returned, with no findings. *)
Inductive scanBlock {T : Type} (file : File T) (scanner : File T -> Result -> Prop)
    (found : list string) : Result -> Prop :=
| scanBlock_skipped :
    Stat file = false ->
    scanBlock file scanner found (found, None)
| scanBlock_appended vulnerabilities :
    Stat file = true ->
    scanner file (vulnerabilities, None) ->
    scanBlock file scanner found (found ++ vulnerabilities, None)
| scanBlock_returned vulnerabilities err :
    Stat file = true ->
    scanner file (vulnerabilities, Some err) ->
    scanBlock file scanner found ([], Some err).

(** What follows a block in [ScanAction]: nothing after a [return nil, err],
    the next block otherwise. *)
Definition thenBlock (r : Result) (next : list string -> Result -> Prop) (out : Result)
    : Prop :=
  match r.2 with
  | Some _ => out = r
  | None => next r.1 out
  end.

Section Entry.
Context `{Semver}.

(** [ScanAction], lines 247-307: [out] is a possible result of scanning the
    action directory with these four files. *)
Definition ScanAction (actionDir : string) (files : ActionFiles)
    (vulnerablePackages : list VulnerablePackage) (out : Result) : Prop :=
  let vulnerablePackageMap := buildVulnerablePackageMap vulnerablePackages in
  let packageJSONPath := filepath.Join actionDir "package.json" in
  let packageLockJSONPath := filepath.Join actionDir "package-lock.json" in
  let yarnLockPath := filepath.Join actionDir "yarn.lock" in
  let pnpmLockPath := filepath.Join actionDir "pnpm-lock.yaml" in
  exists r1 r2 r3,
    scanBlock (package_json files)
      (scanPackageJSONOptimized vulnerablePackageMap packageJSONPath) [] r1
    /\ thenBlock r1 (fun found out =>
         scanBlock (package_lock_json files)
           (scanPackageLockJSONOptimized vulnerablePackageMap packageLockJSONPath) found r2
         /\ thenBlock r2 (fun found out =>
              scanBlock (yarn_lock files)
                (fun file r => r = scanYarnLockOptimized vulnerablePackageMap yarnLockPath file)
                found r3
              /\ thenBlock r3 (fun found out =>
                   scanBlock (pnpm_lock_yaml files)
                     (scanPnpmLockOptimized vulnerablePackageMap pnpmLockPath) found out)
                   out)
              out)
         out.

End Entry.

(** The number of nodes of a version-1 dependency tree, for induction on
    it. *)
Fixpoint weight (pkgInfo : PackageLockInfo.t) : nat :=
  S (map_fold (fun _ child total => weight child + total)%nat 0%nat
       (PackageLockInfo.Dependencies pkgInfo)).

Definition weightOf (dependencies : gmap string PackageLockInfo.t) : nat :=
  map_fold (fun _ child total => weight child + total)%nat 0%nat dependencies.

(** ** The linear scanners (lines 357-404, 574-630, 723-785, 843-865,
    888-909 and 927-943)

    The repository keeps, beside each scanner that looks a package up in the
    index, the scanner that walks the whole list of vulnerable packages; its
    tests call the latter. *)

Section LinearScanners.
Context `{Semver}.
Variable vulnerablePackages : list VulnerablePackage.

(** The loop [for _, vulnerablePackage := range vulnerablePackages] that the
    linear scanners run on one [(pkgName, version)] pair: every entry of that
    name whose versions make [version] vulnerable adds a message. *)
Definition linearFindings (pkgName version : string)
    (message : VulnerablePackage -> string) : list string :=
  flat_map
    (fun vulnerablePackage =>
       if String.eqb pkgName (Name vulnerablePackage) then
         if isVersionVulnerable version (Versions vulnerablePackage)
         then [message vulnerablePackage]
         else []
       else [])
    vulnerablePackages.

(** The message of the linear scanners, which name the package by the name
    of the entry. *)
Definition linearMessage (version filename : string) (vulnerablePackage : VulnerablePackage)
    : string :=
  formatVulnerabilityMessage (Name vulnerablePackage) version filename vulnerablePackage.

(** One iteration of the loop over the lines of [scanYarnLock]. *)
Definition scanYarnLineLinear (filename : string) (state : string * list string)
    (raw : string) : string * list string :=
  let '(currentPackageName, foundVulnerabilities) := state in
  let line := TrimSpace raw in
  if String.eqb line "" || HasPrefix line "#" then state
  else if negb (HasPrefix raw " ") && HasSuffix line ":" then
    let packageDef := TrimSuffix line ":" in
    match firstPackageName (Split packageDef ",") with
    | Some packageName => (packageName, foundVulnerabilities)
    | None => state
    end
  else if HasPrefix raw "  " && Contains line "version" then
    match SplitN2 line "version" with
    | [_; rest] =>
        let version := Trim (TrimSpace rest) quoteCutset in
        (currentPackageName,
         foundVulnerabilities
         ++ linearFindings currentPackageName version (linearMessage version filename))
    | _ => state
    end
  else state.

(** [scanYarnLock], lines 574-630 *)
Definition scanYarnLock (path : string) (file : File string) : Result :=
  match ReadFile file with
  | Some data =>
      let lines := Split data (String "010" EmptyString) in
      (snd (fold_left (scanYarnLineLinear (filepath.Base path)) lines (EmptyString, [])),
       None)
  | None => ([], Some (ReadError path))
  end.

(** The body of the loop of [scanPackageLockPackages] on one entry. *)
Definition scanPackageLockEntryLinear (filename : string)
    (entry : string * PackageLockPackageInfo.t) : list string :=
  let '(pkgPath, pkgInfo) := entry in
  let pkgName := TrimPrefix pkgPath "node_modules/" in
  if String.eqb pkgName "" || Contains pkgName "/node_modules/" then []
  else
    let actualVersion :=
      getActualVersion (PackageLockPackageInfo.Version pkgInfo)
        (PackageLockPackageInfo.Resolved pkgInfo) in
    linearFindings pkgName actualVersion (linearMessage actualVersion filename).

(** [scanPackageLockPackages], lines 888-909 *)
Inductive scanPackageLockPackages
    (packages : gmap string PackageLockPackageInfo.t) (filename : string)
    : list string -> Prop :=
| scanPackageLockPackagesLinear_range visited :
    ranges packages visited ->
    scanPackageLockPackages packages filename
      (flat_map (scanPackageLockEntryLinear filename) visited).

(** The findings of one node of the version-1 tree. *)
Definition scanPackageLockNodeLinear (filename pkgName : string)
    (pkgInfo : PackageLockInfo.t) : list string :=
  linearFindings pkgName (PackageLockInfo.Version pkgInfo)
    (linearMessage (PackageLockInfo.Version pkgInfo) filename).

(** [scanPackageLockDependencies], lines 927-943 *)
#[warnings="-register-all"]
Inductive scanPackageLockDependencies (filename : string)
    : gmap string PackageLockInfo.t -> list string -> Prop :=
| scanPackageLockDependenciesLinear_range dependencies visited found :
    ranges dependencies visited ->
    Forall2
      (fun entry out =>
         exists nested,
           scanPackageLockDependencies filename
             (PackageLockInfo.Dependencies entry.2) nested
           /\ out = scanPackageLockNodeLinear filename entry.1 entry.2 ++ nested)
      visited found ->
    scanPackageLockDependencies filename dependencies (concat found).

(** [scanPackageLockJSON], lines 843-865 *)
Inductive scanPackageLockJSON (path : string)
    : File (option PackageLockJSON.t) -> Result -> Prop :=
| scanPackageLockJSONLinear_unreadable file :
    ReadFile file = None ->
    scanPackageLockJSON path file ([], Some (ReadError path))
| scanPackageLockJSONLinear_malformed :
    scanPackageLockJSON path (Contents None) ([], Some (ParseError path))
| scanPackageLockJSONLinear_packages packageLockJSON found :
    (2 <=? PackageLockJSON.LockfileVersion packageLockJSON)%Z
    && (0 <? size (PackageLockJSON.Packages packageLockJSON))%nat = true ->
    scanPackageLockPackages (PackageLockJSON.Packages packageLockJSON)
      (filepath.Base path) found ->
    scanPackageLockJSON path (Contents (Some packageLockJSON)) (found, None)
| scanPackageLockJSONLinear_dependencies packageLockJSON found :
    (2 <=? PackageLockJSON.LockfileVersion packageLockJSON)%Z
    && (0 <? size (PackageLockJSON.Packages packageLockJSON))%nat = false ->
    (0 <? size (PackageLockJSON.Dependencies packageLockJSON))%nat = true ->
    scanPackageLockDependencies (filepath.Base path)
      (PackageLockJSON.Dependencies packageLockJSON) found ->
    scanPackageLockJSON path (Contents (Some packageLockJSON)) (found, None)
| scanPackageLockJSONLinear_neither packageLockJSON :
    (2 <=? PackageLockJSON.LockfileVersion packageLockJSON)%Z
    && (0 <? size (PackageLockJSON.Packages packageLockJSON))%nat = false ->
    (0 <? size (PackageLockJSON.Dependencies packageLockJSON))%nat = false ->
    scanPackageLockJSON path (Contents (Some packageLockJSON)) ([], None).

(** The body of the loop of [scanPnpmLock] over the keys of [Packages]. *)
Definition scanPnpmPathLinear (filename : string) (entry : string * PnpmPackageInfo.t)
    : list string :=
  let pkgPath := entry.1 in
  if String.eqb pkgPath "" || String.eqb pkgPath "/" then []
  else
    let '(pkgName, version) := extractPackageNameAndVersionFromPnpmPath pkgPath in
    if String.eqb pkgName "" || String.eqb version "" then []
    else linearFindings pkgName version (linearMessage version filename).

(** The loop of [scanPnpmLock] over one of the two dependency maps. *)
Definition scanPnpmDependenciesLinear (filename : string)
    (visited : list (string * string)) : list string :=
  flat_map
    (fun '(pkgName, version) =>
       linearFindings pkgName version (linearMessage version filename))
    visited.

(** [scanPnpmLock], lines 723-785 *)
Inductive scanPnpmLock (path : string) : File (option PnpmLock.t) -> Result -> Prop :=
| scanPnpmLockLinear_unreadable file :
    ReadFile file = None ->
    scanPnpmLock path file ([], Some (ReadError path))
| scanPnpmLockLinear_malformed :
    scanPnpmLock path (Contents None) ([], Some (ParseError path))
| scanPnpmLockLinear_found pnpmLock packages deps devDeps :
    ranges (PnpmLock.Packages pnpmLock) packages ->
    ranges (PnpmLock.Dependencies pnpmLock) deps ->
    ranges (PnpmLock.DevDependencies pnpmLock) devDeps ->
    let filename := filepath.Base path in
    scanPnpmLock path (Contents (Some pnpmLock))
      (flat_map (scanPnpmPathLinear filename) packages
       ++ scanPnpmDependenciesLinear filename deps
       ++ scanPnpmDependenciesLinear filename devDeps,
       None).

(** The four dependency maps of a package.json with their names, in the
    order of [dependencyTypes]. *)
Definition dependencyTypes (packageJSON : PackageJSON.t)
    : list (gmap string string * string) :=
  [(PackageJSON.Dependencies packageJSON, "dependencies");
   (PackageJSON.DevDependencies packageJSON, "devDependencies");
   (PackageJSON.PeerDependencies packageJSON, "peerDependencies");
   (PackageJSON.OptionalDependencies packageJSON, "optionalDependencies")].

(** The body of the loop of [scanPackageJSON] over the vulnerable packages:
    the package is looked up in each dependency map, then in the bundled
    names. *)
Definition scanPackageJSONEntry (filename : string) (packageJSON : PackageJSON.t)
    (vulnerablePackage : VulnerablePackage) : list string :=
  flat_map
    (fun depType : gmap string string * string =>
       match depType.1 !! Name vulnerablePackage with
       | Some version =>
           if isVersionVulnerable version (Versions vulnerablePackage)
           then [(linearMessage version filename vulnerablePackage
                  ++ " (" ++ depType.2 ++ ")")%string]
           else []
       | None => []
       end)
    (dependencyTypes packageJSON)
  ++ flat_map
       (fun bundledPkg =>
          if String.eqb bundledPkg (Name vulnerablePackage)
          then ["Found vulnerable package " ++ Name vulnerablePackage ++ " in " ++ filename
                ++ " (bundledDependencies) - version unknown, check manually"]%string
          else [])
       (PackageJSON.BundledDependencies packageJSON).

(** [scanPackageJSON], lines 357-404.  It ranges over no map: it is a
    function. *)
Definition scanPackageJSON (path : string) (file : File (option PackageJSON.t)) : Result :=
  match ReadFile file with
  | None => ([], Some (ReadError path))
  | Some None => ([], Some (ParseError path))
  | Some (Some packageJSON) =>
      (flat_map (scanPackageJSONEntry (filepath.Base path) packageJSON) vulnerablePackages,
       None)
  end.

End LinearScanners.

(** ** Action references of a workflow (src/unnamed/part_002, lines 338-426,
    and the type [Action] of main.go, lines 11-17) *)

Record Action := {
  Owner : string;
  Repo : string;
  ActionVersion : string;
  Path : string
}.

(** [parseAction], lines 396-426; [None] is the [nil] result.  The field
    [Version] of [Action] is [ActionVersion] here. *)
Definition parseAction (uses : string) : option Action :=
  if HasPrefix uses "./" then None
  else
    match Split uses "@" with
    | [actionName; version] =>
        let actionParts := Split actionName "/" in
        if (length actionParts <? 2)%nat then None
        else
          let owner := nth 0 actionParts "" in
          let repo := nth 1 actionParts "" in
          let path :=
            if (2 <? length actionParts)%nat then Join (drop 2 actionParts) "/" else "" in
          Some {| Owner := owner; Repo := repo; ActionVersion := version; Path := path |}
    | _ => None
    end.

(** [Step], [Job] and [Workflow], lines 349-361 *)
Record Step := { Uses : string }.

Record Job := { Steps : list Step }.

Record Workflow := { Jobs : gmap string Job }.

(** The loop of [ExtractActions] over the steps of one job. *)
Definition extractSteps (job : Job) : list Action :=
  flat_map
    (fun step =>
       if negb (String.eqb (Uses step) "") then
         match parseAction (Uses step) with
         | Some action => [action]
         | None => []
         end
       else [])
    (Steps job).

(** [ExtractActions], lines 379-394: the jobs are visited in the order of a
    [range] over the map, the steps of a job in their order. *)
Inductive ExtractActions (workflow : Workflow) : list Action -> Prop :=
| ExtractActions_range visited :
    ranges (Jobs workflow) visited ->
    ExtractActions workflow (flat_map (fun entry => extractSteps entry.2) visited).

(** ** Data of the examples *)

Definition newline : string := String "010" EmptyString.
Definition doubleQuote : string := String "034" EmptyString.

Definition tinycolor : VulnerablePackage :=
  {| Name := "@ctrl/tinycolor"; Versions := ["4.1.1"] |}.

Definition lodash : VulnerablePackage :=
  {| Name := "lodash"; Versions := ["4.17.20"] |}.

(** A package.json with two vulnerable dependencies. *)
Definition twoDependencies : PackageJSON.t :=
  {| PackageJSON.Dependencies :=
       list_to_map [("@ctrl/tinycolor", "4.1.1"); ("lodash", "4.17.20")];
     PackageJSON.DevDependencies := ∅;
     PackageJSON.PeerDependencies := ∅;
     PackageJSON.OptionalDependencies := ∅;
     PackageJSON.BundledDependencies := [] |}.

Definition lockedPackage (version : string) : PackageLockPackageInfo.t :=
  {| PackageLockPackageInfo.Version := version;
     PackageLockPackageInfo.Resolved := "";
     PackageLockPackageInfo.Dependencies := ∅ |}.

(** A package-lock.json of lockfile version 3: the root entry, a direct
    install of @ctrl/tinycolor, a direct install of another package and an
    install of @ctrl/tinycolor nested under it. *)
Definition lockfileV3 : PackageLockJSON.t :=
  {| PackageLockJSON.LockfileVersion := 3;
     PackageLockJSON.Packages :=
       list_to_map
         [("", lockedPackage "4.1.1");
          ("node_modules/@ctrl/tinycolor", lockedPackage "4.1.1");
          ("node_modules/colors", lockedPackage "1.4.0");
          ("node_modules/colors/node_modules/@ctrl/tinycolor", lockedPackage "4.1.1")];
     PackageLockJSON.Dependencies := ∅ |}.

(** A package-lock.json of lockfile version 1 with a nested dependency. *)
Definition lockfileV1 : PackageLockJSON.t :=
  {| PackageLockJSON.LockfileVersion := 1;
     PackageLockJSON.Packages := ∅;
     PackageLockJSON.Dependencies :=
       {[ "colors" :=
            PackageLockInfo.Build "1.4.0"
              {[ "@ctrl/tinycolor" := PackageLockInfo.Build "4.1.1" ∅ ]} ]} |}.

(** A yarn.lock that locks lodash at 4.17.20. *)
Definition yarnLockOfLodash : string :=
  "lodash@^4.17.20:" ++ newline
  ++ "  version " ++ doubleQuote ++ "4.17.20" ++ doubleQuote ++ newline.

(** A pnpm-lock.yaml with one package path and one dependency. *)
Definition pnpmLockOfLodash : PnpmLock.t :=
  {| PnpmLock.LockfileVersion := 6;
     PnpmLock.Dependencies := {[ "lodash" := "4.17.20" ]};
     PnpmLock.DevDependencies := ∅;
     PnpmLock.Packages :=
       {[ "/lodash/4.17.20" :=
            {| PnpmPackageInfo.Version := ""; PnpmPackageInfo.Dev := false;
               PnpmPackageInfo.Dependencies := ∅ |} ]};
     PnpmLock.Specifiers := ∅ |}.

(** An action whose package.json cannot be read and whose yarn.lock locks a
    vulnerable lodash. *)
Definition unreadableManifest : ActionFiles :=
  {| package_json := Unreadable;
     package_lock_json := Absent;
     yarn_lock := Contents yarnLockOfLodash;
     pnpm_lock_yaml := Absent |}.

(** The yarn.lock of [TestImprovedYarnLockParsing]. *)
Definition quoted (s : string) : string := doubleQuote ++ s ++ doubleQuote.

Definition yarnLockOfTest : string :=
  Join
    [ "# This file is generated by running " ++ quoted "yarn install"
      ++ " inside your project.";
      "";
      quoted "@babel/core@^7.12.3" ++ ", " ++ quoted "@babel/core@^7.12.9" ++ ":";
      "  version " ++ quoted "7.12.0";
      "  resolved " ++ quoted "https://registry.yarnpkg.com/@babel/core/-/core-7.12.0.tgz";
      "";
      quoted "@ctrl/tinycolor@^4.1.0" ++ ", " ++ quoted "@ctrl/tinycolor@^4.1.1" ++ ":";
      "  version " ++ quoted "4.1.1";
      "  resolved "
      ++ quoted "https://registry.yarnpkg.com/@ctrl/tinycolor/-/tinycolor-4.1.1.tgz";
      "";
      "lodash@^4.17.21:";
      "  version " ++ quoted "4.17.20";
      "  resolved " ++ quoted "https://registry.yarnpkg.com/lodash/-/lodash-4.17.20.tgz";
      "";
      "# Some comment";
      "regular-package@^1.0.0:";
      "  version " ++ quoted "1.0.0";
      "  resolved "
      ++ quoted "https://registry.yarnpkg.com/regular-package/-/regular-package-1.0.0.tgz"
    ]%string
    newline.

(** An action with the yarn.lock of [TestScanActionWithYarnLock] only. *)
Definition yarnOnly : ActionFiles :=
  {| package_json := Absent;
     package_lock_json := Absent;
     yarn_lock :=
       Contents (quoted "@ctrl/tinycolor@^4.1.1" ++ ":" ++ newline
                 ++ "  version " ++ quoted "4.1.1" ++ newline)%string;
     pnpm_lock_yaml := Absent |}.

(** The workflow of [TestExtractActions]. *)
Definition buildWorkflow : Workflow :=
  {| Jobs :=
       {[ "build" :=
            {| Steps := [ {| Uses := "actions/checkout@v2" |};
                          {| Uses := "actions/setup-node@v2" |} ] |} ]} |}.

(** ** What the amended claims speak of *)

(** Modelled from the spec: a range specifier is a string that starts with
    one of the seven operators, or contains a space, or contains a comma.
    The test is made on the string as it is given. *)
Definition isRangeSpecifier (installed : string) : bool :=
  existsb (HasPrefix installed) constraintPrefixes
  || Contains installed " "
  || Contains installed ",".

(** The error of a JSON or YAML file that is there and cannot be read or
    decoded. *)
Definition decodeFailure {T : Type} (path : string) (file : File (option T))
    : option ScanError :=
  match file with
  | Absent => None
  | Unreadable => Some (ReadError path)
  | Contents None => Some (ParseError path)
  | Contents (Some _) => None
  end.

(** The error of a text file that is there and cannot be read. *)
Definition readFailure {T : Type} (path : string) (file : File T) : option ScanError :=
  match file with
  | Unreadable => Some (ReadError path)
  | _ => None
  end.

(** The first of two possible failures. *)
Definition orElse (first second : option ScanError) : option ScanError :=
  match first with
  | Some err => Some err
  | None => second
  end.

(** The error of the first of the four files, in the order in which
    [ScanAction] takes them, that is there and cannot be read or decoded. *)
Definition firstFailure (actionDir : string) (files : ActionFiles) : option ScanError :=
  orElse (decodeFailure (filepath.Join actionDir "package.json") (package_json files))
    (orElse
       (decodeFailure (filepath.Join actionDir "package-lock.json") (package_lock_json files))
       (orElse (readFailure (filepath.Join actionDir "yarn.lock") (yarn_lock files))
          (decodeFailure (filepath.Join actionDir "pnpm-lock.yaml") (pnpm_lock_yaml files)))).

(** ** What the further properties speak of *)

(** A finding about a package of the list: the message of a version that is
    vulnerable to the versions of the package, followed by the name of the
    dependency map when there is one, or the message of a bundled
    dependency. *)
Definition reported `{Semver} (vulnerablePackages : list VulnerablePackage)
    (finding : string) : Prop :=
  exists p filename,
    In p vulnerablePackages
    /\ ((exists version suffix,
            isVersionVulnerable version (Versions p) = true
            /\ finding
               = (formatVulnerabilityMessage (Name p) version filename p ++ suffix)%string)
        \/ finding
           = ("Found vulnerable package " ++ Name p ++ " in " ++ filename
              ++ " (bundledDependencies) - version unknown, check manually")%string).

(** What the block of one file adds to the findings of [ScanAction] when no
    error is returned: nothing when the file is absent, the findings of a
    run of its scanner otherwise. *)
Definition contributes {T : Type} (file : File T) (scanner : File T -> Result -> Prop)
    (found : list string) : Prop :=
  if Stat file then scanner file (found, None) else found = [].

(** * Properties *)

(** ** The tests of the repository, run on the embedding *)

Example TestIsVersionVulnerable :
  map (fun t => isVersionVulnerable t.1 t.2)
    [("4.1.1", ["4.1.1"]); ("^4.1.0", ["4.1.1"]); ("^3.0.0", ["4.1.1"]);
     ("~4.1.0", ["4.1.1"]); ("~4.0.0", ["4.1.1"]);
     ("4.1.2", ["4.1.1"; "4.1.2"; "4.1.3"]); ("4.2.0", ["4.1.1"; "4.1.2"; "4.1.3"]);
     (">=4.1.0", ["4.1.1"]); ("4.1.5", [">=4.1.1 <4.2.0"]); ("4.2.0", [">=4.1.1 <4.2.0"]);
     ("latest", ["latest"])]
  = [true; true; false; true; false; true; false; true; true; false; true].
Proof. vm_compute. reflexivity. Qed.

Example TestPrereleaseVersionHandling :
  map (fun t => isVersionVulnerable t.1 t.2)
    [("4.1.2-alpha.1", ["4.1.1"]); ("4.1.1", ["4.1.1-beta.1"])]
  = [false; false].
Proof. vm_compute. reflexivity. Qed.

Example TestCleanVersionString :
  map cleanVersionString
    ["^4.1.0"; "~4.1.0"; ">=4.1.0"; "<=4.1.0"; ">4.1.0"; "<4.1.0"; "=4.1.0"; "4.1.0";
     " ^4.1.0 "]
  = ["4.1.0"; "4.1.0"; "4.1.0"; "4.1.0"; "4.1.0"; "4.1.0"; "4.1.0"; "4.1.0"; "4.1.0"].
Proof. vm_compute. reflexivity. Qed.

Example TestExtractVersionFromResolved :
  map extractVersionFromResolved
    ["https://registry.npmjs.org/@ctrl/tinycolor/-/tinycolor-4.1.1.tgz";
     "https://registry.npmjs.org/@angular/core/-/core-15.2.3.tgz";
     "https://registry.npmjs.org/lodash/-/lodash-4.17.21.tgz";
     "";
     "https://example.com/invalid";
     "https://registry.npmjs.org/react/-/react-18.0.0-beta.0.tgz"]
  = ["4.1.1"; "15.2.3"; "4.17.21"; ""; ""; "18.0.0-beta.0"].
Proof. vm_compute. reflexivity. Qed.

Example TestGetActualVersion :
  getActualVersion "^4.1.0" "https://registry.npmjs.org/@ctrl/tinycolor/-/tinycolor-4.1.1.tgz"
  = "4.1.1"
  /\ getActualVersion "4.1.0" "https://example.com/invalid" = "4.1.0"
  /\ getActualVersion "~4.1.0" "" = "~4.1.0".
Proof. vm_compute. auto. Qed.

Example TestVulnerablePackageMapOptimization :
  let packageMap :=
    buildVulnerablePackageMap
      [tinycolor;
       {| Name := "lodash"; Versions := ["4.17.20"; "4.17.19"] |};
       {| Name := "@angular/core"; Versions := [">=15.0.0 <15.2.0"] |}] in
  map (fun t => (isVulnerable packageMap t.1 t.2).1)
    [("@ctrl/tinycolor", "4.1.1"); ("safe-package", "1.0.0"); ("lodash", "4.17.21");
     ("@angular/core", "15.1.0")]
  = [true; false; false; true].
Proof. vm_compute. reflexivity. Qed.

Example TestExtractPackageNameAndVersionFromPnpmPath :
  map extractPackageNameAndVersionFromPnpmPath
    ["/@ctrl/tinycolor/4.1.1"; "/lodash/4.17.20"; "/@babel/core/7.12.3";
     "/react-dom/17.0.2"; "/@types/node/14.14.31"]
  = [("@ctrl/tinycolor", "4.1.1"); ("lodash", "4.17.20"); ("@babel/core", "7.12.3");
     ("react-dom", "17.0.2"); ("@types/node", "14.14.31")].
Proof. vm_compute. reflexivity. Qed.

Example extractPackageNameFromYarnSpec_examples :
  map extractPackageNameFromYarnSpec ["@ctrl/tinycolor@^4.1.0"; "lodash@^4.17.21"]
  = ["@ctrl/tinycolor"; "lodash"].
Proof. vm_compute. reflexivity. Qed.

Example TestImprovedYarnLockParsing :
  scanYarnLockOptimized
    (buildVulnerablePackageMap
       [tinycolor; lodash; {| Name := "@babel/core"; Versions := ["7.12.0"] |}])
    "improved-yarn/yarn.lock" (Contents yarnLockOfTest)
  = (["Found vulnerable package @babel/core with version 7.12.0 in yarn.lock";
      "Found vulnerable package @ctrl/tinycolor with version 4.1.1 in yarn.lock";
      "Found vulnerable package lodash with version 4.17.20 in yarn.lock"],
     None).
Proof. vm_compute. reflexivity. Qed.

Example TestScanActionWithResolvedVersions :
  scanPackageLockEntry (buildVulnerablePackageMap [tinycolor]) "package-lock.json"
    ("node_modules/@ctrl/tinycolor",
     {| PackageLockPackageInfo.Version := "^4.1.0";
        PackageLockPackageInfo.Resolved :=
          "https://registry.npmjs.org/@ctrl/tinycolor/-/tinycolor-4.1.1.tgz";
        PackageLockPackageInfo.Dependencies := ∅ |})
  = ["Found vulnerable package @ctrl/tinycolor with version 4.1.1 in package-lock.json"].
Proof. vm_compute. reflexivity. Qed.

Example TestScanActionWithPnpmLock :
  scanPnpmPath (buildVulnerablePackageMap [tinycolor]) "pnpm-lock.yaml"
    ("/@ctrl/tinycolor/4.1.1",
     {| PnpmPackageInfo.Version := ""; PnpmPackageInfo.Dev := false;
        PnpmPackageInfo.Dependencies := ∅ |})
  = ["Found vulnerable package @ctrl/tinycolor with version 4.1.1 in pnpm-lock.yaml"].
Proof. vm_compute. reflexivity. Qed.

Example TestPackageLockVersions_v1 :
  scanPackageLockNode (buildVulnerablePackageMap [tinycolor]) "package-lock-v1.json"
    "@ctrl/tinycolor" (PackageLockInfo.Build "4.1.1" ∅)
  = ["Found vulnerable package @ctrl/tinycolor with version 4.1.1 in package-lock-v1.json"].
Proof. vm_compute. reflexivity. Qed.

Example TestScanActionWithYarnLock :
  forall out,
    ScanAction "action" yarnOnly [tinycolor] out ->
    out = (["Found vulnerable package @ctrl/tinycolor with version 4.1.1 in yarn.lock"], None).
Proof.
  intros out (r1 & r2 & r3 & Hblock1 & Hthen1).
  destruct Hblock1 as [_ | ? Hstat _ | ? ? Hstat _]; [| discriminate Hstat ..].
  destruct Hthen1 as [Hblock2 Hthen2].
  destruct Hblock2 as [_ | ? Hstat _ | ? ? Hstat _]; [| discriminate Hstat ..].
  destruct Hthen2 as [Hblock3 Hthen3].
  destruct Hblock3 as [Hstat | found _ Hscan | found err _ Hscan]; [discriminate Hstat | |].
  - vm_compute in Hscan. injection Hscan as ->.
    unfold thenBlock in Hthen3. cbn in Hthen3.
    by destruct Hthen3 as [_ | ? Hstat _ | ? ? Hstat _]; [| discriminate Hstat ..].
  - vm_compute in Hscan. discriminate Hscan.
Qed.

(** ** Strings *)

Lemma Index_None_cons (c : ascii) (s sep : string) :
  Index (String c s) sep = None -> HasPrefix (String c s) sep = false /\ Index s sep = None.
Proof.
  cbn [Index]. destruct (HasPrefix (String c s) sep); [discriminate |].
  destruct (Index s sep); [discriminate | auto].
Qed.

Lemma Index_None_empty (s : string) : Index s EmptyString <> None.
Proof. destruct s; discriminate. Qed.

(** A separator that does not occur cuts nothing. *)
Lemma cut_absent (sep s : string) : Index s sep = None -> cut sep 0 s = [s].
Proof.
  induction s as [| c s IH]; intros Hidx; [reflexivity |].
  apply Index_None_cons in Hidx as [Hpre Hrest].
  cbn [cut]. rewrite Hpre, (IH Hrest). reflexivity.
Qed.

Lemma Split_absent (s sep : string) : Contains s sep = false -> Split s sep = [s].
Proof.
  unfold Contains. destruct (Index s sep) eqn:Hidx; [discriminate |]. intros _.
  destruct sep; [by apply Index_None_empty in Hidx |].
  by apply cut_absent.
Qed.

Lemma Join_head (c : ascii) (p : string) (rest : list string) (sep : string) :
  exists tail, Join (String c p :: rest) sep = String c tail.
Proof. destruct rest; cbn [Join]; eauto. Qed.

(** ** Version extractor *)

Lemma versionStartFrom_ge (parts : list string) (i0 i : nat) :
  versionStartFrom i0 parts = Some i -> (i0 <= i)%nat.
Proof.
  revert i0. induction parts as [| p parts IH]; intros i0; [discriminate |].
  cbn [versionStartFrom]. destruct p as [| c p].
  - intros Hlater%IH. lia.
  - destruct (isDigit c); [intros [= <-]; lia | intros Hlater%IH; lia].
Qed.

(** The index found is that of a part that starts with a digit. *)
Lemma versionStartFrom_found (parts : list string) (i0 i : nat) :
  versionStartFrom i0 parts = Some i ->
  exists c p rest, drop (i - i0) parts = String c p :: rest /\ isDigit c = true.
Proof.
  revert i0. induction parts as [| p parts IH]; intros i0; [discriminate |].
  cbn [versionStartFrom].
  assert (Hlater : versionStartFrom (S i0) parts = Some i ->
                   exists c p' rest, drop (i - i0) (p :: parts) = String c p' :: rest
                                     /\ isDigit c = true).
  { intros Hfind. pose proof (versionStartFrom_ge _ _ _ Hfind) as Hle.
    apply IH in Hfind as (c & p' & rest & Hdrop & Hc). exists c, p', rest.
    replace (i - i0)%nat with (S (i - S i0)) by lia. done. }
  destruct p as [| c p]; [exact Hlater |].
  destruct (isDigit c) eqn:Hc; [| exact Hlater].
  intros [= <-]. rewrite Nat.sub_diag. eauto.
Qed.

Lemma extractVersionFromResolved_no_separator (resolved : string) :
  Contains resolved "/-/" = false -> extractVersionFromResolved resolved = "".
Proof.
  intros Hsep. unfold extractVersionFromResolved.
  destruct (String.eqb resolved ""); [reflexivity |].
  by rewrite (Split_absent _ _ Hsep).
Qed.

Lemma extractVersionFromResolved_digit (resolved : string) :
  extractVersionFromResolved resolved = ""
  \/ exists c rest, extractVersionFromResolved resolved = String c rest /\ isDigit c = true.
Proof.
  unfold extractVersionFromResolved.
  destruct (String.eqb resolved ""); [by left |].
  destruct (length (Split resolved "/-/") <? 2)%nat; [by left |].
  set (dashParts := Split _ "-").
  destruct (length dashParts <? 2)%nat; [by left |].
  unfold versionStartIdx. destruct (versionStartFrom 1 (drop 1 dashParts)) as [i |] eqn:Hidx; [| by left].
  right. pose proof (versionStartFrom_ge _ _ _ Hidx) as Hle.
  apply versionStartFrom_found in Hidx as (c & p & rest & Hdrop & Hc).
  rewrite drop_drop in Hdrop. replace (1 + (i - 1))%nat with i in Hdrop by lia.
  rewrite Hdrop. destruct (Join_head c p rest "-") as [tail ->]. eauto.
Qed.

(** C4. [extractVersionFromResolved] returns ["4.1.1"] on the registry URL
    of [tinycolor-4.1.1.tgz]; it returns the empty string on the empty string
    and on every string that does not contain the separator ["/-/"].
    [getActualVersion declared resolved] is the extractor's result when that
    is not empty and [declared] otherwise, so that the declared range
    ["^4.1.0"] with that URL gives ["4.1.1"]. *)
Theorem extractVersionFromResolved_getActualVersion_spec :
  extractVersionFromResolved
    "https://registry.example.org/@ctrl/tinycolor/-/tinycolor-4.1.1.tgz" = "4.1.1"
  /\ extractVersionFromResolved "" = ""
  /\ (forall resolved, Contains resolved "/-/" = false ->
        extractVersionFromResolved resolved = "")
  /\ (forall declared resolved,
        (extractVersionFromResolved resolved <> "" ->
         getActualVersion declared resolved = extractVersionFromResolved resolved)
        /\ (extractVersionFromResolved resolved = "" ->
            getActualVersion declared resolved = declared))
  /\ getActualVersion "^4.1.0"
       "https://registry.example.org/@ctrl/tinycolor/-/tinycolor-4.1.1.tgz" = "4.1.1".
Proof.
  split; [reflexivity |]. split; [reflexivity |].
  split; [exact extractVersionFromResolved_no_separator |].
  split; [| reflexivity].
  intros declared resolved. unfold getActualVersion.
  destruct (String.eqb_spec (extractVersionFromResolved resolved) "") as [-> | Hne]; cbn.
  - split; [intros []; reflexivity | reflexivity].
  - split; [reflexivity | intros He; by destruct Hne].
Qed.

(** The hypotheses of C4 hold of an URL without the separator and of the
    resolved URL of the lock file. *)
Lemma extractVersionFromResolved_getActualVersion_witness :
  (Contains "https://example.com/invalid" "/-/" = false
   /\ extractVersionFromResolved "https://example.com/invalid" = "")
  /\ (extractVersionFromResolved "https://registry.npmjs.org/lodash/-/lodash-4.17.21.tgz" <> ""
      /\ getActualVersion "^4.17.0" "https://registry.npmjs.org/lodash/-/lodash-4.17.21.tgz"
         = "4.17.21").
Proof.
  pose proof extractVersionFromResolved_getActualVersion_spec
    as (_ & _ & Hsep & Hactual & _).
  split.
  - split; [reflexivity | apply Hsep; reflexivity].
  - assert (Hne : extractVersionFromResolved
                    "https://registry.npmjs.org/lodash/-/lodash-4.17.21.tgz" <> "")
      by discriminate.
    split; [exact Hne |].
    rewrite (proj1 (Hactual "^4.17.0" _) Hne). reflexivity.
Defined.

(** C10. A non-empty result of [extractVersionFromResolved] starts with an
    ASCII digit, so [getActualVersion] returns either the declared version or
    a string that starts with a digit. *)
Theorem extractVersionFromResolved_starts_with_digit (resolved : string) :
  extractVersionFromResolved resolved <> "" ->
  (exists c rest, extractVersionFromResolved resolved = String c rest /\ isDigit c = true)
  /\ (forall declared,
        getActualVersion declared resolved = declared
        \/ exists c rest, getActualVersion declared resolved = String c rest
                          /\ isDigit c = true).
Proof.
  intros Hne. destruct (extractVersionFromResolved_digit resolved) as [He | Hdigit]; [done |].
  split; [exact Hdigit |].
  intros declared. right. unfold getActualVersion.
  destruct Hdigit as (c & rest & -> & Hc). cbn. eauto.
Qed.

(** C10 on the resolved URL of a prerelease. *)
Lemma extractVersionFromResolved_starts_with_digit_witness :
  extractVersionFromResolved "https://registry.npmjs.org/react/-/react-18.0.0-beta.0.tgz" <> ""
  /\ exists c rest,
       extractVersionFromResolved "https://registry.npmjs.org/react/-/react-18.0.0-beta.0.tgz"
       = String c rest /\ isDigit c = true.
Proof.
  assert (Hne : extractVersionFromResolved
                  "https://registry.npmjs.org/react/-/react-18.0.0-beta.0.tgz" <> "")
    by discriminate.
  split; [exact Hne |].
  exact (proj1 (extractVersionFromResolved_starts_with_digit _ Hne)).
Defined.

(** ** Version matcher, for every semantic-version library *)

Section MatcherProperties.
Context `{Semver}.

Lemma existsb_eqb_In (x : string) (l : list string) :
  existsb (String.eqb x) l = true <-> In x l.
Proof.
  rewrite existsb_exists. split.
  - intros (y & Hin & Heq). apply String.eqb_eq in Heq. by subst.
  - intros Hin. exists x. split; [done | apply String.eqb_refl].
Qed.

(** Once the installed string is taken as a constraint, the answer is the
    exact match or a vulnerable version that satisfies the constraint. *)
Lemma isVersionVulnerable_as_constraint (installed : string) (c : Constraints)
    (vulnerableVersions : list string) :
  installedAsConstraint installed = Some c ->
  isVersionVulnerable installed vulnerableVersions
  = existsb (String.eqb installed) vulnerableVersions
    || existsb (constraintHits c) vulnerableVersions.
Proof.
  intros Hc. unfold isVersionVulnerable. rewrite Hc.
  by destruct (existsb (String.eqb installed) vulnerableVersions).
Qed.

Lemma installedAsConstraint_parsed (installed : string) (c : Constraints) :
  isConstraintNotVersion installed = true -> NewConstraint installed = Some c ->
  installedAsConstraint installed = Some c.
Proof. intros Hrange Hc. unfold installedAsConstraint. by rewrite Hrange. Qed.

(** X1. When the installed string is a version, an entry that parses as a
    constraint is only ever checked as a constraint: the equality test and
    the prerelease test on versions are not reached for it. *)
Lemma isVersionVulnerable_entry_as_constraint (installed entry : string)
    (v : Version) (c : Constraints) :
  installed <> entry ->
  installedAsConstraint installed = None ->
  NewVersion (cleanVersionString installed) = Some v ->
  NewConstraint entry = Some c ->
  isVersionVulnerable installed [entry] = Check c v.
Proof.
  intros Hne Hic Hv Hc. unfold isVersionVulnerable. cbn [existsb].
  destruct (String.eqb_spec installed entry) as [-> | _]; [done |].
  cbn. rewrite Hic, Hv. cbn. unfold versionHits. rewrite Hc. by rewrite orb_false_r.
Qed.

(** C1. An installed string that is equal to an entry of the vulnerable
    list is vulnerable, whatever the entry is: a version, a range or a string
    that is neither, such as ["latest"]. *)
Theorem isVersionVulnerable_exact_match (installed : string)
    (vulnerableVersions : list string) :
  In installed vulnerableVersions ->
  isVersionVulnerable installed vulnerableVersions = true.
Proof.
  intros Hin%existsb_eqb_In. unfold isVersionVulnerable. by rewrite Hin.
Qed.

(** The test of the code is the test of the specification, made on the
    string without its surrounding white space. *)
Lemma isConstraintNotVersion_trimmed (installed : string) :
  isConstraintNotVersion installed = isRangeSpecifier (TrimSpace installed).
Proof.
  unfold isConstraintNotVersion, isRangeSpecifier.
  destruct (existsb _ constraintPrefixes); [reflexivity |].
  destruct (Contains _ " "); [reflexivity |].
  by destruct (Contains _ ",").
Qed.

(** C2, amended.  Let the installed string [r], once its surrounding white
    space is removed, be a range specifier (it starts with one of the seven
    operators or contains a space or a comma), let [r] parse as a constraint
    [c], and let the entry [e] parse as the version [v].  Then [r] is
    vulnerable to [[e]] when [v] satisfies [c] (the library's [Check]), and
    is not when [v] does not satisfy [c] and [e] is not the string [r].  For
    every vulnerable list the answer is the exact match or the constraint
    check: no parsing of [r] as a version is attempted. *)
Theorem isVersionVulnerable_range (r e : string) (c : Constraints) (v : Version) :
  isRangeSpecifier (TrimSpace r) = true ->
  NewConstraint r = Some c ->
  NewVersion e = Some v ->
  (Check c v = true -> isVersionVulnerable r [e] = true)
  /\ (Check c v = false -> r <> e -> isVersionVulnerable r [e] = false)
  /\ (forall vulnerableVersions,
        isVersionVulnerable r vulnerableVersions
        = existsb (String.eqb r) vulnerableVersions
          || existsb (constraintHits c) vulnerableVersions).
Proof.
  rewrite <- isConstraintNotVersion_trimmed. intros Hrange Hc Hv.
  pose proof (isVersionVulnerable_as_constraint r c)
    as Hshape. specialize (fun vs => Hshape vs (installedAsConstraint_parsed r c Hrange Hc)).
  assert (Hhit : constraintHits c e = Check c v) by (unfold constraintHits; by rewrite Hv).
  split; [| split; [| exact Hshape]].
  - intros Hcheck. rewrite Hshape. cbn [existsb]. rewrite Hhit, Hcheck.
    by destruct (String.eqb r e).
  - intros Hcheck Hne. rewrite Hshape. cbn [existsb]. rewrite Hhit, Hcheck.
    by destruct (String.eqb_spec r e).
Qed.

(** C7, amended.  Let the installed string [r], once its surrounding white
    space is removed, be a range specifier, let [r] parse as a constraint,
    and let the entry [e] not parse as a version.  Then [r] is vulnerable to
    [[e]] exactly when [r] and [e] are the same string. *)
Theorem isVersionVulnerable_range_opaque_entry (r e : string) (c : Constraints) :
  isRangeSpecifier (TrimSpace r) = true ->
  NewConstraint r = Some c ->
  NewVersion e = None ->
  isVersionVulnerable r [e] = String.eqb r e
  /\ (r <> e -> isVersionVulnerable r [e] = false).
Proof.
  rewrite <- isConstraintNotVersion_trimmed. intros Hrange Hc Hv.
  assert (Heq : isVersionVulnerable r [e] = String.eqb r e).
  { rewrite (isVersionVulnerable_as_constraint r c) by by apply installedAsConstraint_parsed.
    cbn [existsb]. unfold constraintHits. rewrite Hv. by destruct (String.eqb r e). }
  split; [exact Heq |].
  intros Hne. rewrite Heq. by destruct (String.eqb_spec r e).
Qed.

End MatcherProperties.

(** ** Version matcher, with the model of the library *)

(** C1 on the entry ["latest"], which is no version and no range. *)
Lemma isVersionVulnerable_exact_match_witness :
  In "latest" ["4.1.1"; "latest"]
  /\ isVersionVulnerable "latest" ["4.1.1"; "latest"] = true.
Proof.
  assert (Hin : In "latest" ["4.1.1"; "latest"]) by (right; left; reflexivity).
  split; [exact Hin |].
  exact (isVersionVulnerable_exact_match "latest" ["4.1.1"; "latest"] Hin).
Defined.

(** C2, as stated, fails.  The string [" 1.2"] contains a space and parses
    as a constraint that 1.2.5 satisfies, and is not vulnerable to
    [["1.2.5"]]; the string [" 1.2.5"] contains a space and parses as a
    constraint that 1.2 does not satisfy, and is vulnerable to [["1.2"]].
    The matcher removes the surrounding white space before it tells a range
    from a version, and takes either string for a version. *)
Lemma isVersionVulnerable_range_untrimmed :
  (isRangeSpecifier " 1.2" = true
   /\ (c ← NewConstraint " 1.2"; v ← NewVersion "1.2.5"; Some (Check c v)) = Some true
   /\ isVersionVulnerable " 1.2" ["1.2.5"] = false)
  /\ (isRangeSpecifier " 1.2.5" = true
      /\ (c ← NewConstraint " 1.2.5"; v ← NewVersion "1.2"; Some (Check c v)) = Some false
      /\ " 1.2.5" <> "1.2"
      /\ isVersionVulnerable " 1.2.5" ["1.2"] = true)
  /\ ~ (forall (r e : string) (c : Constraints) (v : Version),
          isRangeSpecifier r = true ->
          NewConstraint r = Some c ->
          NewVersion e = Some v ->
          (Check c v = true -> isVersionVulnerable r [e] = true)
          /\ (Check c v = false -> r <> e -> isVersionVulnerable r [e] = false)).
Proof.
  split; [by vm_compute |]. split; [split; [| split; [| split]]; by vm_compute |].
  intros Hclaim.
  destruct (NewConstraint " 1.2") as [c |] eqn:Hc; [| by vm_compute in Hc].
  destruct (NewVersion "1.2.5") as [v |] eqn:Hv; [| by vm_compute in Hv].
  destruct (Hclaim " 1.2" "1.2.5" c v eq_refl Hc Hv) as [Htrue _].
  assert (Hcheck : Check c v = true).
  { vm_compute in Hc, Hv. injection Hc as <-. injection Hv as <-. reflexivity. }
  specialize (Htrue Hcheck). vm_compute in Htrue. discriminate Htrue.
Qed.

(** C2, amended, on the caret range of the tests, which 4.1.1 satisfies. *)
Lemma isVersionVulnerable_range_witness :
  isRangeSpecifier (TrimSpace "^4.1.0") = true
  /\ is_Some (NewConstraint "^4.1.0")
  /\ is_Some (NewVersion "4.1.1")
  /\ isVersionVulnerable "^4.1.0" ["4.1.1"] = true.
Proof.
  destruct (NewConstraint "^4.1.0") as [c |] eqn:Hc; [| by vm_compute in Hc].
  destruct (NewVersion "4.1.1") as [v |] eqn:Hv; [| by vm_compute in Hv].
  assert (Hrange : isRangeSpecifier (TrimSpace "^4.1.0") = true) by reflexivity.
  split; [exact Hrange |]. split; [by eexists |]. split; [by eexists |].
  apply (isVersionVulnerable_range "^4.1.0" "4.1.1" c v Hrange Hc Hv).
  vm_compute in Hc, Hv. injection Hc as <-. injection Hv as <-. reflexivity.
Defined.

(** C7, as stated, fails.  The string [" 4.1.1"] contains a space and
    parses as a constraint, the entry [">=4.0.0"] does not parse as a
    version and is another string, and [" 4.1.1"] is vulnerable to it: the
    matcher takes the installed string, without its white space, for a
    version, and checks it against the entry as a constraint. *)
Lemma isVersionVulnerable_opaque_entry_untrimmed :
  isRangeSpecifier " 4.1.1" = true
  /\ is_Some (NewConstraint " 4.1.1")
  /\ NewVersion ">=4.0.0" = None
  /\ " 4.1.1" <> ">=4.0.0"
  /\ isVersionVulnerable " 4.1.1" [">=4.0.0"] = true
  /\ ~ (forall (r e : string) (c : Constraints),
          isRangeSpecifier r = true ->
          NewConstraint r = Some c ->
          NewVersion e = None ->
          r <> e ->
          isVersionVulnerable r [e] = false).
Proof.
  destruct (NewConstraint " 4.1.1") as [c |] eqn:Hc; [| by vm_compute in Hc].
  split; [reflexivity |]. split; [by eexists |]. split; [reflexivity |].
  split; [discriminate |]. split; [by vm_compute |].
  intros Hclaim.
  assert (Hfalse : isVersionVulnerable " 4.1.1" [">=4.0.0"] = false)
    by (by apply (Hclaim " 4.1.1" ">=4.0.0" c)).
  vm_compute in Hfalse. discriminate Hfalse.
Qed.

(** C7, amended, on a caret range against the entry ["latest"]. *)
Lemma isVersionVulnerable_range_opaque_entry_witness :
  isRangeSpecifier (TrimSpace "^4.1.0") = true
  /\ is_Some (NewConstraint "^4.1.0")
  /\ NewVersion "latest" = None
  /\ isVersionVulnerable "^4.1.0" ["latest"] = false.
Proof.
  destruct (NewConstraint "^4.1.0") as [c |] eqn:Hc; [| by vm_compute in Hc].
  assert (Hrange : isRangeSpecifier (TrimSpace "^4.1.0") = true) by reflexivity.
  assert (Hv : NewVersion "latest" = None) by reflexivity.
  split; [exact Hrange |]. split; [by eexists |]. split; [exact Hv |].
  apply (isVersionVulnerable_range_opaque_entry "^4.1.0" "latest" c Hrange Hc Hv).
  discriminate.
Defined.

(** The prerelease test of the matcher accepts 4.1.1-rc.0 against 4.1.1:
    had the loop reached it, the pair would be vulnerable. *)
Lemma prereleaseOfVulnerable_rc :
  (v ← NewVersion "4.1.1-rc.0"; w ← NewVersion "4.1.1"; Some (prereleaseOfVulnerable v w))
  = Some true.
Proof. reflexivity. Qed.

(** The entry ["4.1.1"] parses as a constraint, which the prerelease
    4.1.1-rc.0 does not satisfy: the loop moves on to the next entry. *)
Lemma constraint_rejects_rc :
  (v ← NewVersion "4.1.1-rc.0"; c ← NewConstraint "4.1.1"; Some (Check c v)) = Some false.
Proof. reflexivity. Qed.

(** C3. The prerelease policy, as the code runs it: 4.1.2-alpha.1 is not
    vulnerable to 4.1.1, the stable 4.1.1 is not vulnerable to 4.1.1-beta.1,
    and the prerelease 4.1.1-rc.0 of the vulnerable 4.1.1 is reported as not
    vulnerable either, although the matcher means to report it. *)
Theorem prerelease_policy_as_run :
  isVersionVulnerable "4.1.2-alpha.1" ["4.1.1"] = false
  /\ isVersionVulnerable "4.1.1" ["4.1.1-beta.1"] = false
  /\ isVersionVulnerable "4.1.1-rc.0" ["4.1.1"] = false.
Proof. repeat split; vm_compute; reflexivity. Qed.

(** ** Vulnerability index *)

Section IndexProperties.
Context `{Semver}.

Lemma foldl_insert_other (l : list VulnerablePackage) (m : VulnerablePackageMap)
    (name : string) :
  (forall x, In x l -> Name x <> name) ->
  foldl (fun packageMap pkg => <[Name pkg := pkg]> packageMap) m l !! name = m !! name.
Proof.
  revert m. induction l as [| p l IH]; intros m Hl; [reflexivity |].
  cbn [foldl]. rewrite IH by (intros x Hx; apply Hl; by right).
  apply lookup_insert_ne, Hl. by left.
Qed.

(** The index maps a name to the last entry of the list that bears it. *)
Lemma buildVulnerablePackageMap_last (before after : list VulnerablePackage)
    (q : VulnerablePackage) :
  (forall x, In x after -> Name x <> Name q) ->
  buildVulnerablePackageMap (before ++ q :: after) !! Name q = Some q.
Proof.
  intros Hafter. unfold buildVulnerablePackageMap. rewrite foldl_app. cbn [foldl].
  rewrite foldl_insert_other by done. apply lookup_insert_eq.
Qed.

Lemma isVulnerable_true (vpm : VulnerablePackageMap) (name version : string) :
  (isVulnerable vpm name version).1 = true
  <-> exists entry, vpm !! name = Some entry
                    /\ isVersionVulnerable version (Versions entry) = true.
Proof.
  unfold isVulnerable. destruct (vpm !! name) as [entry |]; cbn.
  - destruct (isVersionVulnerable version (Versions entry)) eqn:Hv; cbn.
    + split; [eauto | done].
    + split; [done | intros (e & [= <-] & He); congruence].
  - split; [done | intros (e & [=] & _)].
Qed.

(** C9. When the list holds two entries [p] and [q] of the same name, [q]
    the later one and the last of that name, the index maps the name to [q].
    A lookup of [(name, version)] answers vulnerable exactly when [name] is a
    key of the index and [version] is vulnerable to the versions of its entry,
    which is then the entry returned. *)
Theorem vulnerability_index_spec :
  (forall (l1 l2 l3 : list VulnerablePackage) (p q : VulnerablePackage),
      Name p = Name q ->
      (forall x, In x l3 -> Name x <> Name q) ->
      buildVulnerablePackageMap (l1 ++ p :: l2 ++ q :: l3) !! Name q = Some q)
  /\ (forall (vpm : VulnerablePackageMap) (name version : string),
        ((isVulnerable vpm name version).1 = true
         <-> exists entry, vpm !! name = Some entry
                           /\ isVersionVulnerable version (Versions entry) = true)
        /\ ((isVulnerable vpm name version).1 = true ->
            vpm !! name = Some (isVulnerable vpm name version).2)).
Proof.
  split.
  - intros l1 l2 l3 p q _ Hlast.
    replace (l1 ++ p :: l2 ++ q :: l3) with ((l1 ++ p :: l2) ++ q :: l3)
      by (by rewrite <- app_assoc).
    by apply buildVulnerablePackageMap_last.
  - intros vpm name version. split; [apply isVulnerable_true |].
    unfold isVulnerable. destruct (vpm !! name) as [entry |]; [| done].
    by destruct (isVersionVulnerable version (Versions entry)).
Qed.

End IndexProperties.

(** C9 on a list that names [lodash] twice: the later entry is the one
    looked up. *)
Lemma vulnerability_index_witness :
  let early := {| Name := "lodash"; Versions := ["4.17.19"] |} in
  let other := {| Name := "@ctrl/tinycolor"; Versions := ["4.1.1"] |} in
  let late := {| Name := "lodash"; Versions := ["4.17.20"] |} in
  Name early = Name late
  /\ buildVulnerablePackageMap [early; other; late] !! "lodash" = Some late.
Proof.
  intros early other late.
  assert (Hname : Name early = Name late) by reflexivity.
  split; [exact Hname |].
  apply (proj1 vulnerability_index_spec [] [other] [] early late Hname).
  intros x [].
Defined.

(** ** The lock-file scanner on the flat package map *)

Section PackageLockProperties.
Context `{Semver}.

(** The root entry and the nested installs contribute nothing, whatever the
    index holds. *)
Lemma scanPackageLockEntry_skipped (vpm : VulnerablePackageMap) (filename pkgPath : string)
    (pkgInfo : PackageLockPackageInfo.t) :
  pkgPath = "" \/ Contains (TrimPrefix pkgPath "node_modules/") "/node_modules/" = true ->
  scanPackageLockEntry vpm filename (pkgPath, pkgInfo) = [].
Proof.
  intros [-> | Hnested]; unfold scanPackageLockEntry; [reflexivity |].
  rewrite Hnested. by rewrite orb_true_r.
Qed.

(** A loop that appends something for one entry only. *)
Lemma flat_map_only {A B : Type} (f : A -> list B) (x : A) (l : list A) :
  (forall y, In y l -> f y = []) -> flat_map f (x :: l) = f x.
Proof.
  intros Hl. cbn [flat_map].
  replace (flat_map f l) with (@nil B); [apply app_nil_r |].
  induction l as [| y l IH]; [reflexivity |].
  cbn [flat_map]. rewrite (Hl y) by (by left). apply IH. intros z Hz. apply Hl. by right.
Qed.

Lemma scanPackageLockEntry_tinycolor (filename : string) (pkgInfo : PackageLockPackageInfo.t) :
  PackageLockPackageInfo.Version pkgInfo = "4.1.1" ->
  PackageLockPackageInfo.Resolved pkgInfo = "" ->
  scanPackageLockEntry (buildVulnerablePackageMap [tinycolor]) filename
    ("node_modules/@ctrl/tinycolor", pkgInfo)
  = ["Found vulnerable package @ctrl/tinycolor with version 4.1.1 in " ++ filename]%string.
Proof.
  intros Hversion Hresolved. unfold scanPackageLockEntry. cbn -[buildVulnerablePackageMap].
  rewrite Hversion, Hresolved.
  change (getActualVersion "4.1.1" "") with "4.1.1".
  unfold findingsOf, isVulnerable.
  replace (buildVulnerablePackageMap [tinycolor] !! "@ctrl/tinycolor") with (Some tinycolor)
    by (symmetry; apply lookup_insert_eq).
  rewrite (isVersionVulnerable_exact_match "4.1.1" (Versions tinycolor)) by (by left).
  reflexivity.
Qed.

(** An entry that names a package that is not in the index contributes
    nothing. *)
Lemma scanPackageLockEntry_unlisted (vpm : VulnerablePackageMap) (filename pkgPath : string)
    (pkgInfo : PackageLockPackageInfo.t) :
  vpm !! TrimPrefix pkgPath "node_modules/" = None ->
  scanPackageLockEntry vpm filename (pkgPath, pkgInfo) = [].
Proof.
  intros Hunlisted. unfold scanPackageLockEntry.
  destruct (_ || _); [reflexivity |].
  unfold findingsOf, isVulnerable. by rewrite Hunlisted.
Qed.

Lemma lookup_tinycolor_only (name : string) :
  name <> "@ctrl/tinycolor" -> buildVulnerablePackageMap [tinycolor] !! name = None.
Proof.
  intros Hne. unfold buildVulnerablePackageMap. cbn [foldl].
  rewrite lookup_insert_ne by (cbn; congruence). apply lookup_empty.
Qed.

(** C6. Take a package-lock.json of lockfile version 3 whose package map
    holds ["node_modules/@ctrl/tinycolor"] at version 4.1.1 (no resolved URL);
    let every other entry be the root entry (the empty key), a nested install
    (a key that, without the leading ["node_modules/"], still contains a
    ["/node_modules/"] segment), whatever package and version it names, or an
    entry of another package; the vulnerable list is the one entry
    @ctrl/tinycolor 4.1.1.  Then the scanner runs, and every run ends with
    exactly one finding, that of the direct entry.  For every index, the root
    entry and a nested install yield no finding. *)
Theorem scanPackageLockJSON_direct_entry_only (path : string) (lock : PackageLockJSON.t)
    (pkgInfo : PackageLockPackageInfo.t) :
  let vpm := buildVulnerablePackageMap [tinycolor] in
  let file := Contents (Some lock) in
  PackageLockJSON.LockfileVersion lock = 3%Z ->
  PackageLockJSON.Packages lock !! "node_modules/@ctrl/tinycolor" = Some pkgInfo ->
  PackageLockPackageInfo.Version pkgInfo = "4.1.1" ->
  PackageLockPackageInfo.Resolved pkgInfo = "" ->
  (forall pkgPath other,
      PackageLockJSON.Packages lock !! pkgPath = Some other ->
      pkgPath <> "node_modules/@ctrl/tinycolor" ->
      pkgPath = ""
      \/ Contains (TrimPrefix pkgPath "node_modules/") "/node_modules/" = true
      \/ TrimPrefix pkgPath "node_modules/" <> "@ctrl/tinycolor") ->
  (exists out, scanPackageLockJSONOptimized vpm path file out)
  /\ (forall out,
        scanPackageLockJSONOptimized vpm path file out ->
        out = (["Found vulnerable package @ctrl/tinycolor with version 4.1.1 in "
                ++ filepath.Base path]%string, None))
  /\ (forall index filename pkgPath other,
        pkgPath = ""
        \/ Contains (TrimPrefix pkgPath "node_modules/") "/node_modules/" = true ->
        scanPackageLockEntry index filename (pkgPath, other) = []).
Proof.
  intros vpm file Hversion Hdirect Hv Hr Hothers.
  assert (Hflat : (2 <=? PackageLockJSON.LockfileVersion lock)%Z
                  && (0 <? size (PackageLockJSON.Packages lock))%nat = true).
  { rewrite Hversion.
    destruct (size (PackageLockJSON.Packages lock)) eqn:Hsize; [| reflexivity].
    apply map_size_empty_iff in Hsize. rewrite Hsize in Hdirect.
    by rewrite lookup_empty in Hdirect. }
  assert (Hruns : forall visited,
             ranges (PackageLockJSON.Packages lock) visited ->
             flat_map (scanPackageLockEntry vpm (filepath.Base path)) visited
             = ["Found vulnerable package @ctrl/tinycolor with version 4.1.1 in "
                ++ filepath.Base path]%string).
  { intros visited Hvisited. apply Permutation_singleton_r.
    unfold ranges in Hvisited. rewrite Hvisited.
    rewrite <- (map_to_list_delete _ _ _ Hdirect).
    rewrite flat_map_only; [by rewrite scanPackageLockEntry_tinycolor |].
    intros [pkgPath other] Hin.
    apply list_elem_of_In, elem_of_map_to_list, lookup_delete_Some in Hin as [Hne Hin].
    destruct (Hothers pkgPath other Hin) as [Hroot | [Hnested | Hname]]; [congruence | | |].
    - apply scanPackageLockEntry_skipped. by left.
    - apply scanPackageLockEntry_skipped. by right.
    - by apply scanPackageLockEntry_unlisted, lookup_tinycolor_only. }
  split; [| split].
  - eexists. apply scanPackageLockJSON_packages; [exact Hflat |].
    constructor. unfold ranges. reflexivity.
  - intros out Hout.
    inversion Hout as [ ? Hread | | ? found ? Hfound | ? found Hguard | ? Hguard ]; subst.
    + discriminate Hread.
    + destruct Hfound as [visited Hvisited]. by rewrite (Hruns visited Hvisited).
    + congruence.
    + congruence.
  - intros index filename pkgPath other. apply scanPackageLockEntry_skipped.
Qed.

End PackageLockProperties.

(** The keys of a map given as a list are read off the list. *)
Lemma lookup_list_to_map_inv {V : Type} (l : list (string * V)) (k : string) (v : V) :
  (list_to_map l : gmap string V) !! k = Some v -> In (k, v) l.
Proof. intros Hl%elem_of_list_to_map_2. by apply list_elem_of_In. Qed.

(** C6 on a lock file with the root entry, the direct install, another
    package and a nested install of the vulnerable package: one finding. *)
Lemma scanPackageLockJSON_direct_entry_only_witness :
  PackageLockJSON.LockfileVersion lockfileV3 = 3%Z
  /\ PackageLockJSON.Packages lockfileV3 !! "node_modules/@ctrl/tinycolor"
     = Some (lockedPackage "4.1.1")
  /\ forall out,
       scanPackageLockJSONOptimized (buildVulnerablePackageMap [tinycolor])
         "action/package-lock.json" (Contents (Some lockfileV3)) out ->
       out = (["Found vulnerable package @ctrl/tinycolor with version 4.1.1 in package-lock.json"],
              None).
Proof.
  assert (Hdirect : PackageLockJSON.Packages lockfileV3 !! "node_modules/@ctrl/tinycolor"
                    = Some (lockedPackage "4.1.1")) by reflexivity.
  split; [reflexivity |]. split; [exact Hdirect |].
  refine (proj1 (proj2 (scanPackageLockJSON_direct_entry_only "action/package-lock.json"
                          lockfileV3 (lockedPackage "4.1.1") eq_refl Hdirect eq_refl eq_refl _))).
  intros pkgPath other Hin%lookup_list_to_map_inv Hne.
  destruct Hin as [[= <- <-] | [[= <- <-] | [[= <- <-] | [[= <- <-] | []]]]].
  - by left.
  - by destruct Hne.
  - right. right. discriminate.
  - right. by left.
Defined.

(** ** The entry point and the errors of the scanners *)

Section EntryProperties.
Context `{Semver}.

Lemma scanPackageJSON_failure (vpm : VulnerablePackageMap) (path : string)
    (file : File (option PackageJSON.t)) (found : list string) (err : option ScanError) :
  Stat file = true -> scanPackageJSONOptimized vpm path file (found, err) ->
  err = decodeFailure path file.
Proof.
  intros Hstat Hrun.
  inversion Hrun as [file' Hread | | ]; subst; [| reflexivity | reflexivity].
  by destruct file as [| | [data |]].
Qed.

Lemma scanPackageLockJSON_failure (vpm : VulnerablePackageMap) (path : string)
    (file : File (option PackageLockJSON.t)) (found : list string)
    (err : option ScanError) :
  Stat file = true -> scanPackageLockJSONOptimized vpm path file (found, err) ->
  err = decodeFailure path file.
Proof.
  intros Hstat Hrun.
  inversion Hrun as [file' Hread | | | | ]; subst; try reflexivity.
  by destruct file as [| | [data |]].
Qed.

Lemma scanYarnLock_failure (vpm : VulnerablePackageMap) (path : string)
    (file : File string) (found : list string) (err : option ScanError) :
  Stat file = true -> (found, err) = scanYarnLockOptimized vpm path file ->
  err = readFailure path file.
Proof.
  intros Hstat. unfold scanYarnLockOptimized.
  destruct file; cbn; [discriminate Hstat | |]; by intros [= _ ->].
Qed.

Lemma scanPnpmLock_failure (vpm : VulnerablePackageMap) (path : string)
    (file : File (option PnpmLock.t)) (found : list string) (err : option ScanError) :
  Stat file = true -> scanPnpmLockOptimized vpm path file (found, err) ->
  err = decodeFailure path file.
Proof.
  intros Hstat Hrun.
  inversion Hrun as [file' Hread | | ]; subst; [| reflexivity | reflexivity].
  by destruct file as [| | [data |]].
Qed.

(** A block returns the failure of its file, if it has one, and goes on
    without an error otherwise. *)
Lemma scanBlock_outcome {T : Type} (file : File T) (scanner : File T -> Result -> Prop)
    (found : list string) (failure : option ScanError) (r : Result) :
  (Stat file = false -> failure = None) ->
  (forall vulnerabilities err,
      Stat file = true -> scanner file (vulnerabilities, err) -> err = failure) ->
  scanBlock file scanner found r ->
  match failure with
  | Some err => r = ([], Some err)
  | None => r.2 = None
  end.
Proof.
  intros Habsent Hscanner Hblock.
  destruct Hblock as [Hstat | vulnerabilities Hstat Hrun | vulnerabilities err Hstat Hrun].
  - by rewrite (Habsent Hstat).
  - by rewrite <- (Hscanner _ _ Hstat Hrun).
  - by rewrite <- (Hscanner _ _ Hstat Hrun).
Qed.

Lemma decodeFailure_absent {T : Type} (path : string) (file : File (option T)) :
  Stat file = false -> decodeFailure path file = None.
Proof. by destruct file. Qed.

Lemma readFailure_absent {T : Type} (path : string) (file : File T) :
  Stat file = false -> readFailure path file = None.
Proof. by destruct file. Qed.

(** C5, amended.  When one of the four files that [ScanAction] looks at is
    there and cannot be read or decoded, [ScanAction] returns the error of
    the first such file, in the order package.json, package-lock.json,
    yarn.lock, pnpm-lock.yaml, and returns no finding at all: neither those
    of the scanners that ran before nor those of the scanners that would run
    after.  When no file fails, no error is returned. *)
Theorem ScanAction_returns_first_failure (actionDir : string) (files : ActionFiles)
    (vulnerablePackages : list VulnerablePackage) (out : Result) :
  ScanAction actionDir files vulnerablePackages out ->
  match firstFailure actionDir files with
  | Some err => out = ([], Some err)
  | None => out.2 = None
  end.
Proof.
  unfold ScanAction, firstFailure. intros (r1 & r2 & r3 & Hblock1 & Hthen1).
  set (failure1 := decodeFailure (filepath.Join actionDir "package.json") (package_json files)).
  set (failure2 := decodeFailure (filepath.Join actionDir "package-lock.json")
                     (package_lock_json files)).
  set (failure3 := readFailure (filepath.Join actionDir "yarn.lock") (yarn_lock files)).
  set (failure4 := decodeFailure (filepath.Join actionDir "pnpm-lock.yaml")
                     (pnpm_lock_yaml files)).
  apply (scanBlock_outcome _ _ _ failure1) in Hblock1;
    [| apply decodeFailure_absent | intros ? ?; apply scanPackageJSON_failure].
  unfold thenBlock in Hthen1.
  destruct failure1 as [err1 |]; cbn [orElse];
    rewrite Hblock1 in Hthen1; [exact Hthen1 |].
  destruct Hthen1 as [Hblock2 Hthen2].
  apply (scanBlock_outcome _ _ _ failure2) in Hblock2;
    [| apply decodeFailure_absent | intros ? ?; apply scanPackageLockJSON_failure].
  unfold thenBlock in Hthen2.
  destruct failure2 as [err2 |]; cbn [orElse];
    rewrite Hblock2 in Hthen2; [exact Hthen2 |].
  destruct Hthen2 as [Hblock3 Hthen3].
  apply (scanBlock_outcome _ _ _ failure3) in Hblock3;
    [| apply readFailure_absent | intros ? ?; apply scanYarnLock_failure].
  unfold thenBlock in Hthen3.
  destruct failure3 as [err3 |]; cbn [orElse];
    rewrite Hblock3 in Hthen3; [exact Hthen3 |].
  apply (scanBlock_outcome _ _ _ failure4) in Hthen3;
    [exact Hthen3 | apply decodeFailure_absent | intros ? ?; apply scanPnpmLock_failure].
Qed.

End EntryProperties.

(** A run of [ScanAction] on the action whose package.json cannot be read. *)
Lemma ScanAction_unreadableManifest_runs :
  ScanAction "action" unreadableManifest [lodash] ([], Some (ReadError "action/package.json")).
Proof.
  exists ([], Some (ReadError "action/package.json")), ([], None), ([], None).
  split; [| reflexivity].
  apply (scanBlock_returned _ _ _ []); [reflexivity |].
  by apply scanPackageJSON_unreadable.
Qed.

(** C5, as stated, fails: the yarn.lock of this action has a finding, and
    [ScanAction] returns none, because the package.json before it cannot be
    read. *)
Lemma ScanAction_drops_sibling_findings :
  scanYarnLockOptimized (buildVulnerablePackageMap [lodash]) "action/yarn.lock"
    (yarn_lock unreadableManifest)
  = (["Found vulnerable package lodash with version 4.17.20 in yarn.lock"], None)
  /\ ScanAction "action" unreadableManifest [lodash]
       ([], Some (ReadError "action/package.json"))
  /\ ~ (exists found err,
          ScanAction "action" unreadableManifest [lodash] (found, err)
          /\ In "Found vulnerable package lodash with version 4.17.20 in yarn.lock" found).
Proof.
  split; [reflexivity |]. split; [exact ScanAction_unreadableManifest_runs |].
  intros (found & err & Hrun & Hin).
  destruct Hrun as (r1 & r2 & r3 & Hblock1 & Hthen1).
  destruct Hblock1 as [Hstat | vulnerabilities Hstat Hscan | vulnerabilities e Hstat Hscan].
  - discriminate Hstat.
  - inversion Hscan.
  - unfold thenBlock in Hthen1. cbn in Hthen1. injection Hthen1 as -> _. destruct Hin.
Qed.

(** C5, amended, on that action: the read error, and no finding. *)
Lemma ScanAction_returns_first_failure_witness :
  ScanAction "action" unreadableManifest [lodash] ([], Some (ReadError "action/package.json"))
  /\ firstFailure "action" unreadableManifest = Some (ReadError "action/package.json").
Proof.
  split; [exact ScanAction_unreadableManifest_runs |].
  pose proof (ScanAction_returns_first_failure _ _ _ _ ScanAction_unreadableManifest_runs)
    as Hfirst.
  destruct (firstFailure "action" unreadableManifest) as [err |]; [| discriminate Hfirst].
  by injection Hfirst as <-.
Defined.

(** ** The order of the findings *)

Lemma ranges_agree {V : Type} (m : gmap string V) (l1 l2 : list (string * V)) :
  ranges m l1 -> ranges m l2 -> l1 ≡ₚ l2.
Proof. unfold ranges. intros -> ->. reflexivity. Qed.

Lemma ranges_map_to_list {V : Type} (m : gmap string V) : ranges m (map_to_list m).
Proof. unfold ranges. reflexivity. Qed.

(** Outputs that agree entry by entry agree as a whole. *)
Lemma Forall2_concat_agree {A B : Type} (Q R : A -> list B -> Prop) (l : list A)
    (o1 o2 : list (list B)) :
  (forall x a b, Q x a -> R x b -> a ≡ₚ b) ->
  Forall2 Q l o1 -> Forall2 R l o2 -> concat o1 ≡ₚ concat o2.
Proof.
  intros Hagree Hq. revert o2.
  induction Hq as [| x a l o1 Hxa Hq IH]; intros o2 Hr; inversion Hr as [| ? b ? o2' Hxb Hr']; subst.
  - reflexivity.
  - cbn [concat]. by rewrite (Hagree x a b Hxa Hxb), (IH o2' Hr').
Qed.

(** The outputs of a loop follow a permutation of its entries. *)
Lemma Forall2_permute {A B : Type} (Q : A -> list B -> Prop) (l l' : list A)
    (o : list (list B)) :
  l ≡ₚ l' -> Forall2 Q l o -> exists o', Forall2 Q l' o' /\ concat o ≡ₚ concat o'.
Proof.
  intros Hperm. revert o.
  induction Hperm as [| x l l' Hperm IH | x y l | l l' l'' Hperm1 IH1 Hperm2 IH2]; intros o Hq.
  - inversion Hq; subst. exists []. by split.
  - inversion Hq as [| ? a ? o1 Hxa Hq1]; subst.
    destruct (IH o1 Hq1) as (o1' & Hq1' & Hc). exists (a :: o1').
    split; [by constructor |]. cbn [concat]. by rewrite Hc.
  - inversion Hq as [| ? a ? o1 Hya Hq1]; subst.
    inversion Hq1 as [| ? b ? o2 Hxb Hq2]; subst.
    exists (b :: a :: o2). split; [by repeat constructor |].
    cbn [concat]. rewrite !app_assoc. by rewrite (Permutation_app_comm a b).
  - destruct (IH1 o Hq) as (o' & Hq' & Hc'). destruct (IH2 o' Hq') as (o'' & Hq'' & Hc'').
    exists o''. split; [done |]. by rewrite Hc'.
Qed.

Lemma Forall2_total {A B : Type} (Q : A -> B -> Prop) (l : list A) :
  (forall x, In x l -> exists o, Q x o) -> exists os, Forall2 Q l os.
Proof.
  induction l as [| x l IH]; intros Hl; [by exists [] |].
  destruct (Hl x) as [o Ho]; [by left |].
  destruct IH as [os Hos]; [intros y Hy; apply Hl; by right |].
  exists (o :: os). by constructor.
Qed.

(** A child weighs less than the map that holds it. *)
Lemma weight_child (dependencies : gmap string PackageLockInfo.t) (pkgName : string)
    (child : PackageLockInfo.t) :
  dependencies !! pkgName = Some child ->
  (weightOf (PackageLockInfo.Dependencies child) < weightOf dependencies)%nat.
Proof.
  intros Hchild. unfold weightOf at 2.
  rewrite (map_fold_delete_L _ _ pkgName child) by (intros; lia || done).
  destruct child as [version nested]. cbn [weight PackageLockInfo.Dependencies].
  fold (weightOf nested). lia.
Qed.

Section OrderProperties.
Context `{Semver}.
Variable vpm : VulnerablePackageMap.

(** Induction on a run of the recursive walk, with the induction hypothesis
    on the nested runs. *)
Lemma scanPackageLockDependencies_nested_ind (filename : string)
    (P : gmap string PackageLockInfo.t -> list string -> Prop) :
  (forall dependencies visited found,
      ranges dependencies visited ->
      Forall2
        (fun entry out =>
           exists nested,
             (scanPackageLockDependenciesOptimized vpm filename
                (PackageLockInfo.Dependencies entry.2) nested
              /\ P (PackageLockInfo.Dependencies entry.2) nested)
             /\ out = scanPackageLockNode vpm filename entry.1 entry.2 ++ nested)
        visited found ->
      P dependencies (concat found)) ->
  forall dependencies out,
    scanPackageLockDependenciesOptimized vpm filename dependencies out -> P dependencies out.
Proof.
  intros Hstep. fix IH 3. intros dependencies out Hrun.
  destruct Hrun as [dependencies visited found Hr Hf].
  apply (Hstep _ _ _ Hr). clear Hr. revert visited found Hf.
  fix IHf 3. intros visited found Hf.
  destruct Hf as [| entry o visited found Hhead Htail].
  - constructor.
  - constructor; [| apply IHf, Htail].
    destruct Hhead as (nested & Hs & Heq). exists nested.
    split; [split; [exact Hs | apply IH, Hs] | exact Heq].
Qed.

(** Two walks of the same tree find the same findings, in some order. *)
Lemma scanPackageLockDependencies_agree (filename : string)
    (dependencies : gmap string PackageLockInfo.t) (out1 out2 : list string) :
  scanPackageLockDependenciesOptimized vpm filename dependencies out1 ->
  scanPackageLockDependenciesOptimized vpm filename dependencies out2 ->
  out1 ≡ₚ out2.
Proof.
  intros Hrun1. revert out2. revert dependencies out1 Hrun1.
  apply (scanPackageLockDependencies_nested_ind filename
           (fun dependencies out1 =>
              forall out2,
                scanPackageLockDependenciesOptimized vpm filename dependencies out2 ->
                out1 ≡ₚ out2)).
  intros dependencies visited1 found1 Hr1 Hf1 out2 Hrun2. destruct Hrun2 as [dependencies visited2 found2 Hr2 Hf2].
  destruct (Forall2_permute _ _ _ _ (ranges_agree _ _ _ Hr1 Hr2) Hf1) as (found' & Hf' & ->).
  eapply Forall2_concat_agree; [| exact Hf' | exact Hf2].
  intros entry a b (n1 & [_ IH] & ->) (n2 & Hrun & ->). by rewrite (IH n2 Hrun).
Qed.

(** The walk of every tree has a run. *)
Lemma scanPackageLockDependencies_total (filename : string)
    (dependencies : gmap string PackageLockInfo.t) :
  exists out, scanPackageLockDependenciesOptimized vpm filename dependencies out.
Proof.
  remember (weightOf dependencies) as n eqn:Hn. revert dependencies Hn.
  induction n as [n IH] using lt_wf_ind. intros dependencies ->.
  destruct (Forall2_total
              (fun entry out =>
                 exists nested,
                   scanPackageLockDependenciesOptimized vpm filename
                     (PackageLockInfo.Dependencies entry.2) nested
                   /\ out = scanPackageLockNode vpm filename entry.1 entry.2 ++ nested)
              (map_to_list dependencies)) as [found Hfound].
  { intros [pkgName child] Hin%list_elem_of_In%elem_of_map_to_list.
    destruct (IH _ (weight_child _ _ _ Hin) _ eq_refl) as [nested Hnested]. eauto. }
  exists (concat found). econstructor; [apply ranges_map_to_list | exact Hfound].
Qed.

Lemma scanDependencyType_agree (filename name : string) (l1 l2 : list (string * string)) :
  l1 ≡ₚ l2 ->
  scanDependencyType vpm filename name l1 ≡ₚ scanDependencyType vpm filename name l2.
Proof. intros Hperm. unfold scanDependencyType. by rewrite Hperm. Qed.

Lemma scanPnpmDependencies_agree (filename : string) (l1 l2 : list (string * string)) :
  l1 ≡ₚ l2 -> scanPnpmDependencies vpm filename l1 ≡ₚ scanPnpmDependencies vpm filename l2.
Proof. intros Hperm. unfold scanPnpmDependencies. by rewrite Hperm. Qed.

Lemma scanPackageJSON_agree (path : string) (file : File (option PackageJSON.t))
    (r1 r2 : Result) :
  scanPackageJSONOptimized vpm path file r1 -> scanPackageJSONOptimized vpm path file r2 ->
  r1.2 = r2.2 /\ r1.1 ≡ₚ r2.1.
Proof.
  intros Hrun1 Hrun2.
  destruct Hrun1 as [file Hread | | packageJSON d1 v1 p1 o1 Hd1 Hv1 Hp1 Ho1 filename].
  - inversion Hrun2; subst; [done | discriminate | discriminate].
  - inversion Hrun2 as [? Hread | |]; subst; [discriminate Hread | done].
  - inversion Hrun2 as [? Hread | | ? d2 v2 p2 o2 Hd2 Hv2 Hp2 Ho2]; subst;
      [discriminate Hread |].
    split; [done |]. cbn [fst].
    by rewrite (scanDependencyType_agree _ _ _ _ (ranges_agree _ _ _ Hd1 Hd2)),
      (scanDependencyType_agree _ _ _ _ (ranges_agree _ _ _ Hv1 Hv2)),
      (scanDependencyType_agree _ _ _ _ (ranges_agree _ _ _ Hp1 Hp2)),
      (scanDependencyType_agree _ _ _ _ (ranges_agree _ _ _ Ho1 Ho2)).
Qed.

Lemma scanPackageLockJSON_agree (path : string) (file : File (option PackageLockJSON.t))
    (r1 r2 : Result) :
  scanPackageLockJSONOptimized vpm path file r1 ->
  scanPackageLockJSONOptimized vpm path file r2 ->
  r1.2 = r2.2 /\ r1.1 ≡ₚ r2.1.
Proof.
  intros Hrun1 Hrun2.
  destruct Hrun1 as [file Hread | | lock found1 Hflat Hfound1 | lock found1 Hflat Hdeps Hfound1
                    | lock Hflat Hdeps].
  - inversion Hrun2; subst; done || discriminate.
  - inversion Hrun2 as [? Hread | | | |]; subst; [discriminate Hread | done].
  - inversion Hrun2 as [? Hread | | ? found2 ? Hfound2 | |]; subst;
      [discriminate Hread | | congruence | congruence].
    split; [done |]. cbn [fst].
    destruct Hfound1 as [visited1 Hr1], Hfound2 as [visited2 Hr2].
    by rewrite (ranges_agree _ _ _ Hr1 Hr2).
  - inversion Hrun2 as [? Hread | | | ? found2 ? ? Hfound2 |]; subst;
      [discriminate Hread | congruence | | congruence].
    split; [done |]. exact (scanPackageLockDependencies_agree _ _ _ _ Hfound1 Hfound2).
  - inversion Hrun2 as [? Hread | | | |]; subst;
      [discriminate Hread | congruence | congruence | done].
Qed.

Lemma scanPnpmLock_agree (path : string) (file : File (option PnpmLock.t)) (r1 r2 : Result) :
  scanPnpmLockOptimized vpm path file r1 -> scanPnpmLockOptimized vpm path file r2 ->
  r1.2 = r2.2 /\ r1.1 ≡ₚ r2.1.
Proof.
  intros Hrun1 Hrun2.
  destruct Hrun1 as [file Hread | | pnpmLock k1 d1 v1 Hk1 Hd1 Hv1 filename].
  - inversion Hrun2; subst; [done | discriminate | discriminate].
  - inversion Hrun2 as [? Hread | |]; subst; [discriminate Hread | done].
  - inversion Hrun2 as [? Hread | | ? k2 d2 v2 Hk2 Hd2 Hv2]; subst; [discriminate Hread |].
    split; [done |]. cbn [fst].
    by rewrite (ranges_agree _ _ _ Hk1 Hk2),
      (scanPnpmDependencies_agree _ _ _ (ranges_agree _ _ _ Hd1 Hd2)),
      (scanPnpmDependencies_agree _ _ _ (ranges_agree _ _ _ Hv1 Hv2)).
Qed.

End OrderProperties.

Section Determinism.
Context `{Semver}.
Variable vpm : VulnerablePackageMap.

Lemma scanPackageJSON_total (path : string) (file : File (option PackageJSON.t)) :
  exists r, scanPackageJSONOptimized vpm path file r.
Proof.
  destruct file as [| | [packageJSON |]].
  - eexists. by apply scanPackageJSON_unreadable.
  - eexists. by apply scanPackageJSON_unreadable.
  - eexists. apply scanPackageJSON_found; apply ranges_map_to_list.
  - eexists. apply scanPackageJSON_malformed.
Qed.

Lemma scanPackageLockJSON_total (path : string) (file : File (option PackageLockJSON.t)) :
  exists r, scanPackageLockJSONOptimized vpm path file r.
Proof.
  destruct file as [| | [lock |]].
  - eexists. by apply scanPackageLockJSON_unreadable.
  - eexists. by apply scanPackageLockJSON_unreadable.
  - destruct ((2 <=? PackageLockJSON.LockfileVersion lock)%Z
              && (0 <? size (PackageLockJSON.Packages lock))%nat) eqn:Hflat.
    + eexists. apply scanPackageLockJSON_packages; [exact Hflat |].
      constructor. apply ranges_map_to_list.
    + destruct (0 <? size (PackageLockJSON.Dependencies lock))%nat eqn:Hdeps.
      * destruct (scanPackageLockDependencies_total vpm (filepath.Base path)
                    (PackageLockJSON.Dependencies lock)) as [found Hfound].
        eexists. by apply scanPackageLockJSON_dependencies.
      * eexists. by apply scanPackageLockJSON_neither.
  - eexists. apply scanPackageLockJSON_malformed.
Qed.

Lemma scanPnpmLock_total (path : string) (file : File (option PnpmLock.t)) :
  exists r, scanPnpmLockOptimized vpm path file r.
Proof.
  destruct file as [| | [pnpmLock |]].
  - eexists. by apply scanPnpmLock_unreadable.
  - eexists. by apply scanPnpmLock_unreadable.
  - eexists. apply scanPnpmLock_found; apply ranges_map_to_list.
  - eexists. apply scanPnpmLock_malformed.
Qed.

(** C8, amended.  Each scanner runs on every file, and two runs on the same
    file with the same index return the same error and the same findings up
    to their order: the finding lists are permutations of each other, the
    order being that in which Go ranges over the maps.  The yarn.lock
    scanner, which ranges over no map, is a function of the file and the
    index: its two runs return the same list. *)
Theorem scanners_agree_up_to_order (path : string) :
  (forall file,
      (exists r, scanPackageJSONOptimized vpm path file r)
      /\ forall r1 r2,
           scanPackageJSONOptimized vpm path file r1 ->
           scanPackageJSONOptimized vpm path file r2 ->
           r1.2 = r2.2 /\ r1.1 ≡ₚ r2.1)
  /\ (forall file,
        (exists r, scanPackageLockJSONOptimized vpm path file r)
        /\ forall r1 r2,
             scanPackageLockJSONOptimized vpm path file r1 ->
             scanPackageLockJSONOptimized vpm path file r2 ->
             r1.2 = r2.2 /\ r1.1 ≡ₚ r2.1)
  /\ (forall file r1 r2,
        r1 = scanYarnLockOptimized vpm path file ->
        r2 = scanYarnLockOptimized vpm path file ->
        r1 = r2)
  /\ (forall file,
        (exists r, scanPnpmLockOptimized vpm path file r)
        /\ forall r1 r2,
             scanPnpmLockOptimized vpm path file r1 ->
             scanPnpmLockOptimized vpm path file r2 ->
             r1.2 = r2.2 /\ r1.1 ≡ₚ r2.1).
Proof.
  split; [| split; [| split]].
  - intros file. split; [apply scanPackageJSON_total | apply scanPackageJSON_agree].
  - intros file. split; [apply scanPackageLockJSON_total | apply scanPackageLockJSON_agree].
  - by intros file r1 r2 -> ->.
  - intros file. split; [apply scanPnpmLock_total | apply scanPnpmLock_agree].
Qed.

End Determinism.

(** The two orders in which a loop may visit the dependencies of
    [twoDependencies]. *)
Lemma ranges_twoDependencies :
  ranges (PackageJSON.Dependencies twoDependencies)
    [("@ctrl/tinycolor", "4.1.1"); ("lodash", "4.17.20")]
  /\ ranges (PackageJSON.Dependencies twoDependencies)
       [("lodash", "4.17.20"); ("@ctrl/tinycolor", "4.1.1")].
Proof.
  assert (Hfirst : ranges (PackageJSON.Dependencies twoDependencies)
                     [("@ctrl/tinycolor", "4.1.1"); ("lodash", "4.17.20")]).
  { unfold ranges. symmetry. apply map_to_list_to_map.
    cbn. apply NoDup_cons_2; [by intros [=]%list_elem_of_singleton | apply NoDup_singleton]. }
  split; [exact Hfirst |]. unfold ranges in *. rewrite <- Hfirst. apply perm_swap.
Qed.

Lemma ranges_empty {V : Type} : ranges (∅ : gmap string V) [].
Proof. unfold ranges. by rewrite map_to_list_empty. Qed.

(** Two runs of the package.json scanner on [twoDependencies], one for each
    order of the loop over its dependencies. *)
Lemma scanPackageJSON_twoDependencies_runs :
  scanPackageJSONOptimized (buildVulnerablePackageMap [tinycolor; lodash])
    "action/package.json" (Contents (Some twoDependencies))
    (["Found vulnerable package @ctrl/tinycolor with version 4.1.1 in package.json (dependencies)";
      "Found vulnerable package lodash with version 4.17.20 in package.json (dependencies)"],
     None)
  /\ scanPackageJSONOptimized (buildVulnerablePackageMap [tinycolor; lodash])
       "action/package.json" (Contents (Some twoDependencies))
       (["Found vulnerable package lodash with version 4.17.20 in package.json (dependencies)";
         "Found vulnerable package @ctrl/tinycolor with version 4.1.1 in package.json (dependencies)"],
        None).
Proof.
  destruct ranges_twoDependencies as [Hfirst Hsecond].
  split.
  - refine (eq_ind _ (scanPackageJSONOptimized _ _ _)
              (scanPackageJSON_found _ _ twoDependencies _ [] [] [] Hfirst
                 ranges_empty ranges_empty ranges_empty) _ _).
    vm_compute. reflexivity.
  - refine (eq_ind _ (scanPackageJSONOptimized _ _ _)
              (scanPackageJSON_found _ _ twoDependencies _ [] [] [] Hsecond
                 ranges_empty ranges_empty ranges_empty) _ _).
    vm_compute. reflexivity.
Qed.

(** C8, as stated, fails: two runs of the package.json scanner on the same
    file, with the same vulnerable list, return the two findings in
    different orders. *)
Lemma scanPackageJSON_order_differs :
  exists found1 found2,
    scanPackageJSONOptimized (buildVulnerablePackageMap [tinycolor; lodash])
      "action/package.json" (Contents (Some twoDependencies)) (found1, None)
    /\ scanPackageJSONOptimized (buildVulnerablePackageMap [tinycolor; lodash])
         "action/package.json" (Contents (Some twoDependencies)) (found2, None)
    /\ found1 <> found2.
Proof.
  destruct scanPackageJSON_twoDependencies_runs as [Hrun1 Hrun2].
  eexists. eexists. split; [exact Hrun1 |]. split; [exact Hrun2 |]. discriminate.
Qed.

(** C8, amended, on those two runs: the same findings, in another order. *)
Lemma scanners_agree_up_to_order_witness :
  let found1 :=
    ["Found vulnerable package @ctrl/tinycolor with version 4.1.1 in package.json (dependencies)";
     "Found vulnerable package lodash with version 4.17.20 in package.json (dependencies)"] in
  let found2 :=
    ["Found vulnerable package lodash with version 4.17.20 in package.json (dependencies)";
     "Found vulnerable package @ctrl/tinycolor with version 4.1.1 in package.json (dependencies)"] in
  scanPackageJSONOptimized (buildVulnerablePackageMap [tinycolor; lodash])
    "action/package.json" (Contents (Some twoDependencies)) (found1, None)
  /\ scanPackageJSONOptimized (buildVulnerablePackageMap [tinycolor; lodash])
       "action/package.json" (Contents (Some twoDependencies)) (found2, None)
  /\ found1 ≡ₚ found2.
Proof.
  intros found1 found2.
  destruct scanPackageJSON_twoDependencies_runs as [Hrun1 Hrun2].
  split; [exact Hrun1 |]. split; [exact Hrun2 |].
  exact (proj2 (proj2 (proj1 (scanners_agree_up_to_order
                                (buildVulnerablePackageMap [tinycolor; lodash])
                                "action/package.json") (Contents (Some twoDependencies)))
                  _ _ Hrun1 Hrun2)).
Defined.

(** ** [ScanAction] has a run on every action *)

Section Totality.
Context `{Semver}.

Lemma scanBlock_total {T : Type} (file : File T) (scanner : File T -> Result -> Prop)
    (found : list string) :
  (exists r, scanner file r) -> exists r, scanBlock file scanner found r.
Proof.
  intros [[vulnerabilities [err |]] Hscan]; destruct (Stat file) eqn:Hstat.
  - eexists. by eapply scanBlock_returned.
  - eexists. by apply scanBlock_skipped.
  - eexists. by eapply scanBlock_appended.
  - eexists. by apply scanBlock_skipped.
Qed.

Lemma ScanAction_total (actionDir : string) (files : ActionFiles)
    (vulnerablePackages : list VulnerablePackage) :
  exists out, ScanAction actionDir files vulnerablePackages out.
Proof.
  unfold ScanAction.
  set (vpm := buildVulnerablePackageMap vulnerablePackages).
  destruct (scanBlock_total (package_json files)
              (scanPackageJSONOptimized vpm (filepath.Join actionDir "package.json")) [])
    as [r1 Hr1]; [apply scanPackageJSON_total |].
  destruct r1 as [found1 [err1 |]].
  { exists (found1, Some err1), (found1, Some err1), ([], None), ([], None).
    by split. }
  destruct (scanBlock_total (package_lock_json files)
              (scanPackageLockJSONOptimized vpm (filepath.Join actionDir "package-lock.json"))
              found1)
    as [r2 Hr2]; [apply scanPackageLockJSON_total |].
  destruct r2 as [found2 [err2 |]].
  { exists (found2, Some err2), (found1, None), (found2, Some err2), ([], None).
    split; [done |]. by split. }
  destruct (scanBlock_total (yarn_lock files)
              (fun file r =>
                 r = scanYarnLockOptimized vpm (filepath.Join actionDir "yarn.lock") file)
              found2)
    as [r3 Hr3]; [by eexists |].
  destruct r3 as [found3 [err3 |]].
  { exists (found3, Some err3), (found1, None), (found2, None), (found3, Some err3).
    split; [done |]. split; [done |]. by split. }
  destruct (scanBlock_total (pnpm_lock_yaml files)
              (scanPnpmLockOptimized vpm (filepath.Join actionDir "pnpm-lock.yaml")) found3)
    as [r4 Hr4]; [apply scanPnpmLock_total |].
  exists r4, (found1, None), (found2, None), (found3, None).
  split; [done |]. split; [done |]. by split.
Qed.

End Totality.

(** * Further properties *)

(** ** More on strings *)

Lemma append_cons (c : ascii) (a b : string) :
  (String c a ++ b)%string = String c (a ++ b).
Proof. reflexivity. Qed.

Lemma append_empty_r (s : string) : (s ++ "")%string = s.
Proof. induction s as [| c s IH]; [reflexivity | by rewrite append_cons, IH]. Qed.

Lemma append_assoc (a b c : string) : ((a ++ b) ++ c)%string = (a ++ (b ++ c))%string.
Proof. induction a as [| x a IH]; [reflexivity | by rewrite !append_cons, IH]. Qed.

Lemma len_append (a b : string) : len (a ++ b) = (len a + len b)%nat.
Proof.
  induction a as [| x a IH]; [reflexivity |].
  rewrite append_cons. unfold len in *. cbn. by rewrite IH.
Qed.

Lemma HasPrefix_append (p s : string) : HasPrefix (p ++ s) p = true.
Proof.
  induction p as [| c p IH]; [by destruct s |].
  rewrite append_cons. cbn [HasPrefix]. by rewrite Ascii.eqb_refl.
Qed.

Lemma HasPrefix_inv (s p : string) :
  HasPrefix s p = true -> s = (p ++ from (len p) s)%string.
Proof.
  revert s. induction p as [| c p IH]; intros s; [by destruct s |].
  destruct s as [| d s]; cbn [HasPrefix]; [discriminate |].
  destruct (Ascii.eqb_spec d c) as [-> | _]; [| discriminate].
  cbn [andb len String.length from]. intros Hp. rewrite append_cons.
  f_equal. exact (IH s Hp).
Qed.

(** A prefix no longer than [x] is looked for in [x] alone. *)
Lemma HasPrefix_long (x y p : string) :
  (len p <= len x)%nat -> HasPrefix (x ++ y) p = HasPrefix x p.
Proof.
  revert x. induction p as [| c p IH]; intros x Hlen; [by destruct x, y |].
  destruct x as [| d x]; cbn in Hlen; [lia |].
  rewrite append_cons. cbn [HasPrefix]. rewrite IH by (unfold len; lia). reflexivity.
Qed.

Lemma from_append (a b : string) : from (len a) (a ++ b) = b.
Proof. induction a as [| c a IH]; [by destruct b | exact IH]. Qed.

Lemma upto_append (a b : string) : upto (len a) (a ++ b) = a.
Proof.
  induction a as [| c a IH]; [by destruct b |].
  rewrite append_cons. cbn [len String.length upto]. f_equal. exact IH.
Qed.

Lemma upto_from (n : nat) (s : string) : (upto n s ++ from n s)%string = s.
Proof.
  revert s. induction n as [| n IH]; intros s; [reflexivity |].
  destruct s as [| c s]; cbn [upto from]; [reflexivity |].
  by rewrite append_cons, IH.
Qed.

Lemma len_upto (n : nat) (s : string) : (n <= len s)%nat -> len (upto n s) = n.
Proof.
  revert s. induction n as [| n IH]; intros s Hn; [reflexivity |].
  destruct s as [| c s]; cbn in *; [lia |].
  fold (len (upto n s)). rewrite IH; [reflexivity | unfold len; lia].
Qed.

Lemma cut_nonempty (sep : string) (skip : nat) (s : string) : cut sep skip s <> [].
Proof.
  revert skip. induction s as [| c s IH]; intros skip; [discriminate |].
  cbn [cut]. destruct skip as [| k]; [| apply IH].
  destruct (HasPrefix (String c s) sep); [discriminate |].
  destruct (cut sep 0 s); discriminate.
Qed.

(** The bytes of an occurrence that remain to be passed over are passed
    over. *)
Lemma cut_skip (sep x b : string) : cut sep (len x) (x ++ b) = cut sep 0 b.
Proof.
  induction x as [| c x IH]; [by destruct b | exact IH].
Qed.

(** The first piece is what precedes the first occurrence of the
    separator. *)
Lemma cut_append (sep a b : string) :
  sep <> "" ->
  Index (a ++ upto (len sep - 1) sep) sep = None ->
  cut sep 0 (a ++ sep ++ b) = a :: cut sep 0 b.
Proof.
  intros Hsep. induction a as [| c a IH]; intros Hidx.
  - destruct sep as [| d sep]; [done |].
    change ("" ++ String d sep ++ b)%string with (String d (sep ++ b)).
    cbn [cut]. change (String d (sep ++ b)) with (String d sep ++ b)%string.
    rewrite HasPrefix_append.
    replace (len (String d sep) - 1)%nat with (len sep) by (unfold len; cbn; lia).
    by rewrite (cut_skip (String d sep) sep b).
  - change (String c a ++ upto (len sep - 1) sep)%string
      with (String c (a ++ upto (len sep - 1) sep)) in Hidx.
    apply Index_None_cons in Hidx as [Hpre Hrest].
    change (String c a ++ sep ++ b)%string with (String c (a ++ sep ++ b)).
    cbn [cut].
    assert (Hfalse : HasPrefix (String c (a ++ sep ++ b)) sep = false).
    { rewrite <- Hpre.
      rewrite <- (upto_from (len sep - 1) sep) at 1.
      rewrite append_assoc, <- append_assoc.
      change (String c ((a ++ upto (len sep - 1) sep) ++ from (len sep - 1) sep ++ b))
        with (String c (a ++ upto (len sep - 1) sep) ++ (from (len sep - 1) sep ++ b))%string.
      apply HasPrefix_long.
      cbn [len String.length]. fold (len (a ++ upto (len sep - 1) sep)).
      rewrite len_append, len_upto by lia. lia. }
    rewrite Hfalse, (IH Hrest). reflexivity.
Qed.

(** *** Separators of one byte *)

Lemma HasPrefix_byte (c d : ascii) (s : string) :
  HasPrefix (String c s) (String d "") = Ascii.eqb c d.
Proof. cbn. destruct s; apply andb_true_r. Qed.

Lemma Split_append_byte (d : ascii) (a b : string) :
  Split (a ++ String d b) (String d "") = Split a (String d "") ++ Split b (String d "").
Proof.
  unfold Split. induction a as [| c a IH].
  - change ("" ++ String d b)%string with (String d b).
    cbn [cut]. rewrite HasPrefix_byte, Ascii.eqb_refl. cbn. reflexivity.
  - change (String c a ++ String d b)%string with (String c (a ++ String d b)).
    cbn [cut]. rewrite !HasPrefix_byte. destruct (Ascii.eqb c d).
    + cbn [len String.length Nat.sub]. by rewrite IH.
    + rewrite IH. pose proof (cut_nonempty (String d "") 0 a) as Hne.
      by destruct (cut (String d "") 0 a).
Qed.

Lemma Split_first_byte (d : ascii) (a b : string) :
  Index a (String d "") = None ->
  Split (a ++ String d b) (String d "") = a :: Split b (String d "").
Proof.
  intros Hidx. rewrite Split_append_byte. unfold Split at 1. by rewrite cut_absent.
Qed.

Lemma Join_cons (e : string) (elems : list string) (sep : string) :
  elems <> [] -> Join (e :: elems) sep = (e ++ sep ++ Join elems sep)%string.
Proof. by destruct elems. Qed.

Lemma Join_cons_byte (c : ascii) (p : string) (elems : list string) (sep : string) :
  Join (String c p :: elems) sep = String c (Join (p :: elems) sep).
Proof. by destruct elems. Qed.

Lemma Join_Split_byte (d : ascii) (s : string) :
  Join (Split s (String d "")) (String d "") = s.
Proof.
  unfold Split. induction s as [| c s IH]; [reflexivity |].
  cbn [cut]. rewrite HasPrefix_byte. destruct (Ascii.eqb_spec c d) as [-> | _].
  - cbn [len String.length Nat.sub]. rewrite Join_cons by apply cut_nonempty.
    by rewrite IH.
  - pose proof (cut_nonempty (String d "") 0 s) as Hne.
    destruct (cut (String d "") 0 s) as [| p ps]; [done |].
    by rewrite Join_cons_byte, IH.
Qed.

Lemma Index_byte_cons (c d : ascii) (s : string) :
  Index (String c s) (String d "") = None
  <-> c <> d /\ Index s (String d "") = None.
Proof.
  cbn [Index]. rewrite HasPrefix_byte. destruct (Ascii.eqb_spec c d) as [-> | Hne].
  - split; [discriminate | by intros []].
  - destruct (Index s (String d "")); cbn; split; try done. by intros [].
Qed.

(** No piece holds the separator. *)
Lemma Split_pieces_byte (d : ascii) (s p : string) :
  In p (Split s (String d "")) -> Index p (String d "") = None.
Proof.
  unfold Split. revert p. induction s as [| c s IH]; intros p.
  - intros [<- | []]. reflexivity.
  - cbn [cut]. rewrite HasPrefix_byte. destruct (Ascii.eqb_spec c d) as [-> | Hne].
    + cbn [len String.length Nat.sub]. intros [<- | Hin]; [reflexivity | by apply IH].
    + pose proof (cut_nonempty (String d "") 0 s) as Hnil.
      destruct (cut (String d "") 0 s) as [| q qs]; [done |].
      intros [<- | Hin].
      * apply Index_byte_cons. split; [done |]. apply IH. by left.
      * apply IH. by right.
Qed.

Lemma Index_append_byte (d : ascii) (a b : string) :
  Index a (String d "") = None -> Index (a ++ String d b) (String d "") = Some (len a).
Proof.
  induction a as [| c a IH]; intros Hidx.
  - change ("" ++ String d b)%string with (String d b). cbn [Index].
    by rewrite HasPrefix_byte, Ascii.eqb_refl.
  - apply Index_byte_cons in Hidx as [Hne Hrest].
    change (String c a ++ String d b)%string with (String c (a ++ String d b)).
    cbn [Index]. rewrite HasPrefix_byte.
    destruct (Ascii.eqb_spec c d) as [-> | _]; [done |].
    by rewrite (IH Hrest).
Qed.

Lemma Index_None_append_byte (d : ascii) (a b : string) :
  Index (a ++ b) (String d "") = None
  <-> Index a (String d "") = None /\ Index b (String d "") = None.
Proof.
  induction a as [| c a IH].
  - change ("" ++ b)%string with b. split; [by split | by intros []].
  - change (String c a ++ b)%string with (String c (a ++ b)).
    rewrite !Index_byte_cons, IH. tauto.
Qed.

(** Two pieces are a string with one occurrence of the separator. *)
Lemma Split_two_byte (d : ascii) (s a b : string) :
  Split s (String d "") = [a; b]
  <-> s = (a ++ String d b)%string
      /\ Index a (String d "") = None /\ Index b (String d "") = None.
Proof.
  split.
  - intros Hsplit. split; [| split].
    + rewrite <- (Join_Split_byte d s), Hsplit. reflexivity.
    + apply (Split_pieces_byte d s). rewrite Hsplit. by left.
    + apply (Split_pieces_byte d s). rewrite Hsplit. right. by left.
  - intros (-> & Ha & Hb). rewrite (Split_first_byte d a b Ha).
    unfold Split. by rewrite (cut_absent _ _ Hb).
Qed.

Lemma Split_length_byte (d : ascii) (s : string) :
  (1 <= length (Split s (String d "")))%nat.
Proof.
  unfold Split. pose proof (cut_nonempty (String d "") 0 s).
  destruct (cut (String d "") 0 s); [done | cbn; lia].
Qed.

Lemma Join_pieces_byte (d e : ascii) (elems : list string) :
  Index (Join elems (String d "")) (String e "") = None ->
  forall p, In p elems -> Index p (String e "") = None.
Proof.
  induction elems as [| q elems IH]; [by intros _ p [] |].
  destruct elems as [| r elems].
  - cbn [Join]. intros Hq p [<- | []]. exact Hq.
  - rewrite Join_cons by done.
    intros (Hq & Hrest)%Index_None_append_byte p [<- | Hin]; [exact Hq |].
    change (String d "" ++ Join (r :: elems) (String d ""))%string
      with (String d (Join (r :: elems) (String d ""))) in Hrest.
    apply Index_byte_cons in Hrest as [_ Hrest]. by apply IH.
Qed.

(** ** More on the version matcher *)

Section MatcherEntries.
Context `{Semver}.

(** Two loops that return [true] from their bodies, one after the other,
    are one loop over the entries. *)
Lemma existsb_then {A : Type} (first second : A -> bool) (l : list A) :
  (if existsb first l then true else existsb second l)
  = existsb (fun x => if existsb first [x] then true else existsb second [x]) l.
Proof.
  induction l as [| x l IH]; [reflexivity |].
  cbn [existsb] in *. rewrite <- IH, !orb_false_r.
  by destruct (first x), (second x), (existsb first l).
Qed.

(** X2. A version is vulnerable to a list exactly when it is vulnerable to
    one of its entries taken alone: the entries do not interact, and the
    order and the repetitions of the list do not matter. *)
Theorem isVersionVulnerable_entrywise (installedVersion : string)
    (vulnerableVersions : list string) :
  isVersionVulnerable installedVersion vulnerableVersions
  = existsb (fun entry => isVersionVulnerable installedVersion [entry]) vulnerableVersions.
Proof.
  unfold isVersionVulnerable.
  destruct (installedAsConstraint installedVersion) as [installedConstraint |];
    [apply existsb_then |].
  destruct (NewVersion (cleanVersionString installedVersion)) as [installedVer |];
    [apply existsb_then |].
  destruct (NewVersion installedVersion) as [directVer |]; [apply existsb_then |].
  induction vulnerableVersions as [| entry l IH]; [reflexivity |].
  cbn [existsb] in *. rewrite <- IH, orb_false_r.
  by destruct (String.eqb installedVersion entry), (existsb (String.eqb installedVersion) l).
Qed.

(** X3. An installed string that the library parses neither as a
    constraint nor as a version, cleaned or not, is vulnerable exactly when
    it is an entry of the list, byte for byte. *)
Theorem isVersionVulnerable_unparsed (installedVersion : string)
    (vulnerableVersions : list string) :
  installedAsConstraint installedVersion = None ->
  NewVersion (cleanVersionString installedVersion) = None ->
  NewVersion installedVersion = None ->
  isVersionVulnerable installedVersion vulnerableVersions = true
  <-> In installedVersion vulnerableVersions.
Proof.
  intros Hc Hclean Hdirect. unfold isVersionVulnerable. rewrite Hc, Hclean, Hdirect.
  rewrite <- existsb_eqb_In.
  by destruct (existsb (String.eqb installedVersion) vulnerableVersions).
Qed.

End MatcherEntries.

(** The tag ["latest"], against a list that holds it and against one that
    does not. *)
Lemma isVersionVulnerable_unparsed_witness :
  isVersionVulnerable "latest" ["4.1.1"; "latest"] = true
  /\ isVersionVulnerable "latest" ["4.1.1"; "next"] <> true.
Proof.
  split.
  - apply (isVersionVulnerable_unparsed "latest" ["4.1.1"; "latest"]); try reflexivity.
    right. by left.
  - intros Hvulnerable.
    apply (isVersionVulnerable_unparsed "latest" ["4.1.1"; "next"]) in Hvulnerable;
      try reflexivity.
    by destruct Hvulnerable as [[=] | [[=] | []]].
Defined.

(** A version against a range of the list, once inside and once outside. *)
Lemma isVersionVulnerable_entry_as_constraint_witness :
  isVersionVulnerable "4.1.5" [">=4.1.1 <4.2.0"] = true
  /\ isVersionVulnerable "4.1.1-rc.0" ["4.1.1"] = false.
Proof.
  split.
  - destruct (NewVersion (cleanVersionString "4.1.5")) as [v |] eqn:Hv;
      [| by vm_compute in Hv].
    destruct (NewConstraint ">=4.1.1 <4.2.0") as [c |] eqn:Hc; [| by vm_compute in Hc].
    rewrite (isVersionVulnerable_entry_as_constraint "4.1.5" ">=4.1.1 <4.2.0" v c);
      [| discriminate | reflexivity | exact Hv | exact Hc].
    vm_compute in Hv, Hc. injection Hv as <-. injection Hc as <-. reflexivity.
  - destruct (NewVersion (cleanVersionString "4.1.1-rc.0")) as [v |] eqn:Hv;
      [| by vm_compute in Hv].
    destruct (NewConstraint "4.1.1") as [c |] eqn:Hc; [| by vm_compute in Hc].
    rewrite (isVersionVulnerable_entry_as_constraint "4.1.1-rc.0" "4.1.1" v c);
      [| discriminate | reflexivity | exact Hv | exact Hc].
    vm_compute in Hv, Hc. injection Hv as <-. injection Hc as <-. reflexivity.
Defined.

(** ** The operators of a range *)

Lemma find_HasPrefix_operator (operator rest : string) :
  In operator constraintPrefixes ->
  HasPrefix rest "=" = false ->
  List.find (HasPrefix (operator ++ rest)) constraintPrefixes = Some operator.
Proof.
  intros Hin Hrest. unfold constraintPrefixes in *.
  destruct rest as [| c rest].
  - repeat (destruct Hin as [<- | Hin]; [reflexivity |]). destruct Hin.
  - rewrite HasPrefix_byte in Hrest.
    repeat (destruct Hin as [<- | Hin];
            [cbv [append find HasPrefix]; cbn; rewrite ?Hrest; reflexivity |]).
    destruct Hin.
Qed.

(** X4. [cleanVersionString] removes the white space around its argument,
    one leading operator and the white space that follows it, and nothing
    else: the rest of the string is returned as it is, a second operator
    included.  [isConstraintNotVersion] tells such a string to be a range. *)
Theorem cleanVersionString_operator (version operator rest : string) :
  TrimSpace version = (operator ++ rest)%string ->
  In operator constraintPrefixes ->
  HasPrefix rest "=" = false ->
  cleanVersionString version = TrimSpace rest
  /\ isConstraintNotVersion version = true.
Proof.
  intros Hversion Hin Hrest.
  pose proof (find_HasPrefix_operator operator rest Hin Hrest) as Hfind.
  unfold cleanVersionString, isConstraintNotVersion. rewrite Hversion, Hfind, from_append.
  split; [reflexivity |].
  replace (existsb (HasPrefix (operator ++ rest)) constraintPrefixes) with true; [reflexivity |].
  symmetry. apply existsb_exists. exists operator. split; [exact Hin |].
  apply HasPrefix_append.
Qed.

Lemma cleanVersionString_operator_witness :
  (cleanVersionString " ^4.1.0 " = "4.1.0" /\ isConstraintNotVersion " ^4.1.0 " = true)
  /\ (cleanVersionString ">= ~1.2" = "~1.2" /\ isConstraintNotVersion ">= ~1.2" = true).
Proof.
  split.
  - apply (cleanVersionString_operator " ^4.1.0 " "^" "4.1.0"); [reflexivity | | reflexivity].
    by left.
  - apply (cleanVersionString_operator ">= ~1.2" ">=" " ~1.2"); [reflexivity | | reflexivity].
    right. right. by left.
Defined.

(** X5. A string that [isConstraintNotVersion] does not tell to be a range
    is cleaned of its surrounding white space only. *)
Theorem cleanVersionString_plain (version : string) :
  isConstraintNotVersion version = false -> cleanVersionString version = TrimSpace version.
Proof.
  unfold isConstraintNotVersion, cleanVersionString.
  destruct (existsb (HasPrefix (TrimSpace version)) constraintPrefixes) eqn:Hany;
    [discriminate |].
  intros _. destruct (List.find _ constraintPrefixes) as [operator |] eqn:Hfind; [| reflexivity].
  apply find_some in Hfind as [Hin Hprefix].
  assert (Htrue : existsb (HasPrefix (TrimSpace version)) constraintPrefixes = true)
    by (apply existsb_exists; eauto).
  congruence.
Qed.

Lemma cleanVersionString_plain_witness :
  isConstraintNotVersion " 4.1.0-rc.1 " = false
  /\ cleanVersionString " 4.1.0-rc.1 " = "4.1.0-rc.1".
Proof.
  split; [reflexivity |]. by apply cleanVersionString_plain.
Defined.

(** ** The version of a registry URL *)

Lemma HasSuffix_append (x suffix : string) : HasSuffix (x ++ suffix) suffix = true.
Proof.
  unfold HasSuffix. rewrite len_append.
  replace (len x + len suffix - len suffix)%nat with (len x) by lia.
  rewrite from_append, String.eqb_refl, andb_true_r. apply Nat.leb_le. lia.
Qed.

Lemma TrimSuffix_append (x suffix : string) : TrimSuffix (x ++ suffix) suffix = x.
Proof.
  unfold TrimSuffix. rewrite HasSuffix_append, len_append.
  replace (len x + len suffix - len suffix)%nat with (len x) by lia.
  apply upto_append.
Qed.

Lemma Contains_false (s substr : string) : Contains s substr = false -> Index s substr = None.
Proof. unfold Contains. by destruct (Index s substr). Qed.

Lemma versionStartFrom_app (i : nat) (before after : list string) :
  versionStartFrom i before = None ->
  versionStartFrom i (before ++ after) = versionStartFrom (i + length before) after.
Proof.
  revert i. induction before as [| p before IH]; intros i.
  - intros _. cbn. by rewrite Nat.add_0_r.
  - cbn [versionStartFrom app length].
    replace (i + S (length before))%nat with (S i + length before)%nat by lia.
    destruct p as [| c p]; [apply IH |].
    destruct (isDigit c); [discriminate | apply IH].
Qed.

Lemma isDigit_not_dash (c : ascii) : isDigit c = true -> Ascii.eqb c "-" = false.
Proof.
  intros Hc. destruct (Ascii.eqb_spec c "-") as [-> | _]; [| reflexivity].
  vm_compute in Hc. discriminate Hc.
Qed.

(** X6. On the URL [registry/-/name-version.tgz] the extractor returns
    [version], and so does [getActualVersion] whatever the declared range,
    when [version] starts with a digit, the separator ["/-/"] occurs nowhere
    else, and no part of [name] between dashes, the first one apart, starts
    with a digit. *)
Theorem extractVersionFromResolved_round_trip (registry name version declared : string)
    (c : ascii) (rest : string) :
  Contains (registry ++ "/-") "/-/" = false ->
  Contains (name ++ "-" ++ version ++ ".tgz") "/-/" = false ->
  versionStartIdx (Split name "-") = None ->
  version = String c rest ->
  isDigit c = true ->
  extractVersionFromResolved (registry ++ "/-/" ++ name ++ "-" ++ version ++ ".tgz") = version
  /\ getActualVersion declared (registry ++ "/-/" ++ name ++ "-" ++ version ++ ".tgz")
     = version.
Proof.
  intros Hregistry%Contains_false Hfile%Contains_false Hname Hversion Hc.
  assert (Hextract : extractVersionFromResolved
                       (registry ++ "/-/" ++ name ++ "-" ++ version ++ ".tgz") = version).
  { assert (Hsplit : Split (registry ++ "/-/" ++ name ++ "-" ++ version ++ ".tgz") "/-/"
                     = [registry; (name ++ "-" ++ version ++ ".tgz")%string]).
    { unfold Split. rewrite cut_append by done. by rewrite (cut_absent _ _ Hfile). }
    assert (Htrim : TrimSuffix (name ++ "-" ++ version ++ ".tgz") ".tgz"
                    = (name ++ String "-" version)%string).
    { rewrite <- (append_assoc "-" version), <- (append_assoc name).
      by rewrite TrimSuffix_append. }
    unfold extractVersionFromResolved.
    replace (String.eqb (registry ++ "/-/" ++ name ++ "-" ++ version ++ ".tgz") "")
      with false by (by destruct registry).
    rewrite Hsplit. cbn [length Nat.ltb Nat.leb List.last].
    rewrite Htrim, Split_append_byte.
    pose proof (Split_length_byte "-" name) as Hlen1.
    pose proof (Split_length_byte "-" version) as Hlen2.
    rewrite length_app.
    unfold versionStartIdx in *.
    destruct (Split name "-") as [| first parts] eqn:Hparts; [cbn in Hlen1; lia |].
    cbn [app drop] in *. rewrite drop_0 in *.
    rewrite (versionStartFrom_app _ _ _ Hname).
    pose proof (Join_Split_byte "-" version) as Hjoin.
    assert (Hhead : exists p ps, Split version "-" = String c p :: ps) .
    { rewrite Hversion. unfold Split. cbn [cut].
      rewrite HasPrefix_byte, (isDigit_not_dash c Hc).
      pose proof (cut_nonempty "-" 0 rest) as Hne.
      destruct (cut "-" 0 rest) as [| p ps]; [done | eauto]. }
    destruct Hhead as (p & ps & Hhead). rewrite Hhead in *.
    cbn [versionStartFrom]. rewrite Hc.
    change (first :: parts ++ String c p :: ps) with ((first :: parts) ++ String c p :: ps).
    rewrite drop_app_length' by (cbn; lia).
    destruct (_ <=? 1)%nat eqn:Hle; [| exact Hjoin].
    apply Nat.leb_le in Hle. cbn in Hle. lia. }
  split; [exact Hextract |].
  unfold getActualVersion. rewrite Hextract, Hversion. reflexivity.
Qed.

(** The URLs of two packages, the name of the second with a dash. *)
Lemma extractVersionFromResolved_round_trip_witness :
  (extractVersionFromResolved
     "https://registry.npmjs.org/@ctrl/tinycolor/-/tinycolor-4.1.1.tgz" = "4.1.1"
   /\ getActualVersion "^4.1.0"
        "https://registry.npmjs.org/@ctrl/tinycolor/-/tinycolor-4.1.1.tgz" = "4.1.1")
  /\ (extractVersionFromResolved
        "https://registry.npmjs.org/react-dom/-/react-dom-18.0.0-beta.0.tgz" = "18.0.0-beta.0"
      /\ getActualVersion "next"
           "https://registry.npmjs.org/react-dom/-/react-dom-18.0.0-beta.0.tgz"
         = "18.0.0-beta.0").
Proof.
  split.
  - by apply (extractVersionFromResolved_round_trip
                "https://registry.npmjs.org/@ctrl/tinycolor" "tinycolor" "4.1.1" "^4.1.0"
                "4" ".1.1").
  - by apply (extractVersionFromResolved_round_trip
                "https://registry.npmjs.org/react-dom" "react-dom" "18.0.0-beta.0" "next"
                "1" "8.0.0-beta.0").
Defined.

(** ** Package names of yarn.lock and pnpm-lock.yaml *)

Lemma HasPrefix_byte_append (d : ascii) (a b : string) :
  a <> "" -> HasPrefix (a ++ b) (String d "") = HasPrefix a (String d "").
Proof.
  intros Ha. apply HasPrefix_long. destruct a; [done | cbn; lia].
Qed.

Lemma HasPrefix_byte_absent (d : ascii) (a : string) :
  Index a (String d "") = None -> HasPrefix a (String d "") = false.
Proof.
  destruct a as [| c a]; [reflexivity |].
  intros [Hne _]%Index_byte_cons. rewrite HasPrefix_byte. by apply Ascii.eqb_neq.
Qed.

(** X7. [extractPackageNameFromYarnSpec] returns the package name of a
    specification [name@range], for an unscoped [name] without ['@'] and for
    a scoped name [@scope/pkg]: the ['@'] of the scope is not taken for the
    separator of the range. *)
Theorem extractPackageNameFromYarnSpec_name (spec name range : string) :
  TrimSpace spec = (name ++ "@" ++ range)%string ->
  name <> "" /\ Index name "@" = None
  \/ (exists scope pkg, name = ("@" ++ scope ++ "/" ++ pkg)%string
                        /\ Index scope "/" = None /\ Index pkg "@" = None) ->
  extractPackageNameFromYarnSpec spec = name.
Proof.
  intros Hspec Hname. unfold extractPackageNameFromYarnSpec. rewrite Hspec.
  destruct Hname as [[Hne Hat] | (scope & pkg & -> & Hscope & Hpkg)].
  - rewrite (HasPrefix_byte_append "@" name _ Hne), (HasPrefix_byte_absent "@" name Hat).
    change ("@" ++ range)%string with (String "@" range).
    rewrite (Index_append_byte "@" name range Hat). apply upto_append.
  - rewrite !append_assoc. rewrite HasPrefix_append.
    assert (Hslash : Index ("@" ++ scope) "/" = None).
    { change ("@" ++ scope)%string with (String "@" scope).
      apply Index_byte_cons. by split. }
    rewrite <- (append_assoc "@" scope).
    change ("/" ++ pkg ++ "@" ++ range)%string with (String "/" (pkg ++ "@" ++ range)).
    rewrite (Index_append_byte "/" _ _ Hslash), from_append.
    assert (Hat : Index (String "/" pkg) "@" = None).
    { apply Index_byte_cons. by split. }
    change (String "/" (pkg ++ "@" ++ range)) with (String "/" pkg ++ String "@" range)%string.
    rewrite (Index_append_byte "@" _ _ Hat).
    rewrite <- (append_assoc ("@" ++ scope)), <- len_append.
    apply upto_append.
Qed.

(** An unscoped and a scoped specification. *)
Lemma extractPackageNameFromYarnSpec_name_witness :
  extractPackageNameFromYarnSpec " lodash@^4.17.21" = "lodash"
  /\ extractPackageNameFromYarnSpec "@babel/core@^7.12.3" = "@babel/core".
Proof.
  split.
  - apply (extractPackageNameFromYarnSpec_name _ "lodash" "^4.17.21"); [reflexivity |].
    left. split; [discriminate | reflexivity].
  - apply (extractPackageNameFromYarnSpec_name _ "@babel/core" "^7.12.3"); [reflexivity |].
    right. exists "babel", "core". split; [reflexivity |]. split; reflexivity.
Defined.

(** X8. [extractPackageNameAndVersionFromPnpmPath] splits a package path
    [/name/version] into its name and version, for an unscoped [name]
    without ['/'] and for a scoped name [@scope/pkg]. *)
Theorem extractPackageNameAndVersionFromPnpmPath_name (name version : string) :
  Index version "/" = None ->
  HasPrefix name "@" = false /\ Index name "/" = None
  \/ (exists scope pkg, name = ("@" ++ scope ++ "/" ++ pkg)%string
                        /\ Index scope "/" = None /\ Index pkg "/" = None) ->
  extractPackageNameAndVersionFromPnpmPath ("/" ++ name ++ "/" ++ version) = (name, version).
Proof.
  intros Hversion Hname. unfold extractPackageNameAndVersionFromPnpmPath.
  unfold TrimPrefix. rewrite HasPrefix_append, from_append.
  change ("/" ++ version)%string with (String "/" version).
  destruct Hname as [[Hscoped Hslash] | (scope & pkg & -> & Hscope & Hpkg)].
  - rewrite (proj2 (Split_two_byte "/" _ name version)) by done.
    cbn [length Nat.ltb Nat.leb nth].
    destruct name as [| c name]; [reflexivity |].
    rewrite (HasPrefix_byte_append "@" (String c name)), Hscoped by done. reflexivity.
  - rewrite !append_assoc, HasPrefix_append.
    assert (Hslash : Index ("@" ++ scope) "/" = None).
    { change ("@" ++ scope)%string with (String "@" scope).
      apply Index_byte_cons. by split. }
    rewrite <- (append_assoc "@" scope).
    change ("/" ++ pkg ++ String "/" version)%string
      with (String "/" (pkg ++ String "/" version)).
    rewrite (Split_first_byte "/" _ _ Hslash).
    rewrite (proj2 (Split_two_byte "/" _ pkg version)) by done.
    cbn [length Nat.ltb Nat.leb nth]. by rewrite !append_assoc.
Qed.

Lemma extractPackageNameAndVersionFromPnpmPath_name_witness :
  extractPackageNameAndVersionFromPnpmPath "/lodash/4.17.20" = ("lodash", "4.17.20")
  /\ extractPackageNameAndVersionFromPnpmPath "/@ctrl/tinycolor/4.1.1"
     = ("@ctrl/tinycolor", "4.1.1").
Proof.
  split.
  - apply (extractPackageNameAndVersionFromPnpmPath_name "lodash" "4.17.20"); [reflexivity |].
    left. split; reflexivity.
  - apply (extractPackageNameAndVersionFromPnpmPath_name "@ctrl/tinycolor" "4.1.1");
      [reflexivity |].
    right. exists "ctrl", "tinycolor". split; [reflexivity |]. split; reflexivity.
Defined.

Section PnpmPaths.
Context `{Semver}.

(** X9. A key of [packages] that holds no ['/'] after its leading one, as
    the keys [/name@version] of the lock files of pnpm 8 and
    [name@version] of pnpm 9 do, is passed over: whatever the index holds,
    the entry adds no finding. *)
Theorem scanPnpmPath_without_separator (vulnerablePackageMap : VulnerablePackageMap)
    (filename pkgPath : string) (pkgInfo : PnpmPackageInfo.t) :
  Index (TrimPrefix pkgPath "/") "/" = None ->
  scanPnpmPath vulnerablePackageMap filename (pkgPath, pkgInfo) = [].
Proof.
  intros Hslash. unfold scanPnpmPath. cbn [fst].
  destruct (String.eqb pkgPath "" || String.eqb pkgPath "/"); [reflexivity |].
  unfold extractPackageNameAndVersionFromPnpmPath, Split.
  by rewrite (cut_absent _ _ Hslash).
Qed.

End PnpmPaths.

(** The key of lodash 4.17.20 in a lock file of pnpm 8, with lodash 4.17.20
    in the index. *)
Lemma scanPnpmPath_without_separator_witness :
  Index (TrimPrefix "/lodash@4.17.20" "/") "/" = None
  /\ scanPnpmPath (buildVulnerablePackageMap [lodash]) "pnpm-lock.yaml"
       ("/lodash@4.17.20",
        {| PnpmPackageInfo.Version := ""; PnpmPackageInfo.Dev := false;
           PnpmPackageInfo.Dependencies := ∅ |})
     = [].
Proof.
  split; [reflexivity |]. by apply scanPnpmPath_without_separator.
Defined.

(** ** The index and the list it is built from *)

Section IndexKeys.
Context `{Semver}.

Lemma foldl_insert_lookup (l : list VulnerablePackage) (m : VulnerablePackageMap)
    (name : string) (p : VulnerablePackage) :
  foldl (fun packageMap pkg => <[Name pkg := pkg]> packageMap) m l !! name = Some p ->
  m !! name = Some p \/ (In p l /\ Name p = name).
Proof.
  revert m. induction l as [| q l IH]; intros m; [by left |].
  cbn [foldl]. intros [Hm | [Hin Hname]]%IH.
  - destruct (decide (Name q = name)) as [Heq | Hne].
    + rewrite <- Heq, lookup_insert_eq in Hm. injection Hm as <-. right. split; [by left | done].
    + rewrite lookup_insert_ne in Hm by done. by left.
  - right. split; [by right | done].
Qed.

Lemma foldl_insert_is_Some (l : list VulnerablePackage) (m : VulnerablePackageMap)
    (name : string) :
  is_Some (m !! name) \/ In name (map Name l) ->
  is_Some (foldl (fun packageMap pkg => <[Name pkg := pkg]> packageMap) m l !! name).
Proof.
  revert m. induction l as [| q l IH]; intros m; [by intros [Hm | []] |].
  cbn [foldl map]. intros [Hm | [Hq | Hl]]; apply IH.
  - left. destruct (decide (Name q = name)) as [<- | Hne].
    + rewrite lookup_insert_eq. by eexists.
    + by rewrite lookup_insert_ne.
  - left. rewrite <- Hq, lookup_insert_eq. by eexists.
  - by right.
Qed.

Lemma buildVulnerablePackageMap_lookup (vulnerablePackages : list VulnerablePackage)
    (name : string) (p : VulnerablePackage) :
  buildVulnerablePackageMap vulnerablePackages !! name = Some p ->
  In p vulnerablePackages /\ Name p = name.
Proof.
  unfold buildVulnerablePackageMap.
  intros [Hempty | Hp]%foldl_insert_lookup; [by rewrite lookup_empty in Hempty | exact Hp].
Qed.

(** X10. The keys of the index are the names of the list, and the entry
    under a key is an element of the list that bears that name. *)
Theorem buildVulnerablePackageMap_keys (vulnerablePackages : list VulnerablePackage)
    (name : string) :
  (is_Some (buildVulnerablePackageMap vulnerablePackages !! name)
   <-> In name (map Name vulnerablePackages))
  /\ (forall p, buildVulnerablePackageMap vulnerablePackages !! name = Some p ->
                In p vulnerablePackages /\ Name p = name).
Proof.
  split; [split |].
  - intros [p [Hin <-]%buildVulnerablePackageMap_lookup]. by apply in_map.
  - intros Hin. apply foldl_insert_is_Some. by right.
  - intros p. apply buildVulnerablePackageMap_lookup.
Qed.

Lemma buildVulnerablePackageMap_unlisted (vulnerablePackages : list VulnerablePackage)
    (name : string) :
  (forall p, In p vulnerablePackages -> Name p <> name) ->
  buildVulnerablePackageMap vulnerablePackages !! name = None.
Proof.
  intros Hl. unfold buildVulnerablePackageMap. rewrite foldl_insert_other by done.
  apply lookup_empty.
Qed.

Lemma buildVulnerablePackageMap_cons_other (p : VulnerablePackage)
    (vulnerablePackages : list VulnerablePackage) (name : string) :
  Name p <> name ->
  buildVulnerablePackageMap (p :: vulnerablePackages) !! name
  = buildVulnerablePackageMap vulnerablePackages !! name.
Proof.
  intros Hne. unfold buildVulnerablePackageMap. cbn [foldl].
  generalize (∅ : VulnerablePackageMap).
  induction vulnerablePackages as [| q l IH] using rev_ind; intros m.
  - cbn. by apply lookup_insert_ne.
  - rewrite !foldl_app. cbn [foldl].
    destruct (decide (Name q = name)) as [<- | Hq].
    + by rewrite !lookup_insert_eq.
    + rewrite !lookup_insert_ne by done. apply IH.
Qed.

Lemma buildVulnerablePackageMap_cons_unique (p : VulnerablePackage)
    (vulnerablePackages : list VulnerablePackage) :
  ~ In (Name p) (map Name vulnerablePackages) ->
  buildVulnerablePackageMap (p :: vulnerablePackages) !! Name p = Some p.
Proof.
  intros Hfresh. apply (buildVulnerablePackageMap_last [] vulnerablePackages p).
  intros x Hx Heq. apply Hfresh. rewrite <- Heq. by apply in_map.
Qed.

(** ** The linear scanners and the scanners that use the index *)

(** When no two entries of the list bear the same name, a loop over the
    list that acts on the entries of one name acts on the entry that the
    index holds under that name. *)
Lemma flat_map_named {B : Type} (vulnerablePackages : list VulnerablePackage)
    (pkgName : string) (body : VulnerablePackage -> list B) :
  NoDup (map Name vulnerablePackages) ->
  flat_map (fun p => if String.eqb pkgName (Name p) then body p else []) vulnerablePackages
  = match buildVulnerablePackageMap vulnerablePackages !! pkgName with
    | Some p => body p
    | None => []
    end.
Proof.
  intros Hnodup. induction vulnerablePackages as [| p l IH].
  - reflexivity.
  - cbn [map] in Hnodup. apply NoDup_cons in Hnodup as [Hfresh Hnodup].
    rewrite list_elem_of_In in Hfresh. cbn [flat_map].
    destruct (String.eqb_spec pkgName (Name p)) as [-> | Hne].
    + rewrite (buildVulnerablePackageMap_cons_unique p l Hfresh).
      rewrite (IH Hnodup), buildVulnerablePackageMap_unlisted; [apply app_nil_r |].
      intros x Hx Heq. apply Hfresh. rewrite <- Heq. by apply in_map.
    + cbn [app]. rewrite (IH Hnodup).
      by rewrite (buildVulnerablePackageMap_cons_other p l pkgName) by done.
Qed.

Lemma linearFindings_findingsOf (vulnerablePackages : list VulnerablePackage)
    (pkgName version : string) (linear indexed : VulnerablePackage -> string) :
  NoDup (map Name vulnerablePackages) ->
  (forall p, Name p = pkgName -> linear p = indexed p) ->
  linearFindings vulnerablePackages pkgName version linear
  = findingsOf (buildVulnerablePackageMap vulnerablePackages) pkgName version indexed.
Proof.
  intros Hnodup Hmessage. unfold linearFindings.
  rewrite (flat_map_named vulnerablePackages pkgName
             (fun p => if isVersionVulnerable version (Versions p) then [linear p] else []))
    by done.
  unfold findingsOf, isVulnerable.
  destruct (buildVulnerablePackageMap vulnerablePackages !! pkgName) as [p |] eqn:Hp;
    [| reflexivity].
  apply buildVulnerablePackageMap_lookup in Hp as [_ Hname].
  rewrite (Hmessage p Hname). by destruct (isVersionVulnerable version (Versions p)).
Qed.

Lemma linearFindings_message (vulnerablePackages : list VulnerablePackage)
    (pkgName version filename : string) :
  NoDup (map Name vulnerablePackages) ->
  linearFindings vulnerablePackages pkgName version (linearMessage version filename)
  = findingsOf (buildVulnerablePackageMap vulnerablePackages) pkgName version
      (formatVulnerabilityMessage pkgName version filename).
Proof.
  intros Hnodup. apply linearFindings_findingsOf; [exact Hnodup |].
  by intros p <-.
Qed.

End IndexKeys.

Lemma fold_left_ext {A B : Type} (f g : A -> B -> A) (l : list B) (a : A) :
  (forall a b, f a b = g a b) -> fold_left f l a = fold_left g l a.
Proof.
  intros Hfg. revert a. induction l as [| b l IH]; intros a; [reflexivity |].
  cbn [fold_left]. by rewrite Hfg, IH.
Qed.

Lemma Forall2_impl_In {A B : Type} (Q R : A -> B -> Prop) (l : list A) (o : list B) :
  (forall x y, In x l -> Q x y -> R x y) -> Forall2 Q l o -> Forall2 R l o.
Proof.
  intros Himpl Hq. induction Hq as [| x y l o Hxy Hq IH]; constructor.
  - apply Himpl; [by left | exact Hxy].
  - apply IH. intros a b Ha. apply Himpl. by right.
Qed.

Lemma ranges_lookup {V : Type} (m : gmap string V) (visited : list (string * V))
    (entry : string * V) :
  ranges m visited -> In entry visited -> m !! entry.1 = Some entry.2.
Proof.
  unfold ranges. intros Hperm Hin%list_elem_of_In. rewrite Hperm in Hin.
  destruct entry. by apply elem_of_map_to_list.
Qed.

(** A loop that appends twice for each entry finds what two loops find. *)
Lemma flat_map_app_Permutation {A B : Type} (f g : A -> list B) (l : list A) :
  flat_map (fun x => f x ++ g x) l ≡ₚ flat_map f l ++ flat_map g l.
Proof.
  induction l as [| x l IH]; [reflexivity |].
  cbn [flat_map]. rewrite IH, <- !app_assoc. apply Permutation_app_head.
  rewrite !app_assoc. apply Permutation_app_tail, Permutation_app_comm.
Qed.

Lemma flat_map_nil {A B : Type} (f : A -> list B) (l : list A) :
  (forall x, f x = []) -> flat_map f l = [].
Proof.
  intros Hf. induction l as [| x l IH]; [reflexivity |]. cbn [flat_map]. by rewrite Hf, IH.
Qed.

Section LinearProperties.
Context `{Semver}.
Variable vulnerablePackages : list VulnerablePackage.
Hypothesis unique : NoDup (map Name vulnerablePackages).

Lemma scanYarnLineLinear_indexed (filename : string) (state : string * list string)
    (raw : string) :
  scanYarnLineLinear vulnerablePackages filename state raw
  = scanYarnLine (buildVulnerablePackageMap vulnerablePackages) filename state raw.
Proof.
  unfold scanYarnLineLinear, scanYarnLine. destruct state as [currentPackageName found].
  destruct (SplitN2 (TrimSpace raw) "version") as [| ? [| rest [| ? ?]]]; try reflexivity.
  by rewrite linearFindings_message.
Qed.

Lemma scanPackageLockEntryLinear_indexed (filename : string)
    (entry : string * PackageLockPackageInfo.t) :
  scanPackageLockEntryLinear vulnerablePackages filename entry
  = scanPackageLockEntry (buildVulnerablePackageMap vulnerablePackages) filename entry.
Proof.
  unfold scanPackageLockEntryLinear, scanPackageLockEntry. destruct entry as [pkgPath pkgInfo].
  destruct (_ || _); [reflexivity |]. by apply linearFindings_message.
Qed.

Lemma scanPackageLockNodeLinear_indexed (filename pkgName : string)
    (pkgInfo : PackageLockInfo.t) :
  scanPackageLockNodeLinear vulnerablePackages filename pkgName pkgInfo
  = scanPackageLockNode (buildVulnerablePackageMap vulnerablePackages) filename pkgName pkgInfo.
Proof. by apply linearFindings_message. Qed.

Lemma scanPnpmPathLinear_indexed (filename : string) (entry : string * PnpmPackageInfo.t) :
  scanPnpmPathLinear vulnerablePackages filename entry
  = scanPnpmPath (buildVulnerablePackageMap vulnerablePackages) filename entry.
Proof.
  unfold scanPnpmPathLinear, scanPnpmPath.
  destruct (_ || _); [reflexivity |].
  destruct (extractPackageNameAndVersionFromPnpmPath entry.1) as [pkgName version].
  destruct (_ || _); [reflexivity |]. by apply linearFindings_message.
Qed.

Lemma scanPnpmDependenciesLinear_indexed (filename : string)
    (visited : list (string * string)) :
  scanPnpmDependenciesLinear vulnerablePackages filename visited
  = scanPnpmDependencies (buildVulnerablePackageMap vulnerablePackages) filename visited.
Proof.
  unfold scanPnpmDependenciesLinear, scanPnpmDependencies.
  apply flat_map_ext. intros [pkgName version]. by apply linearFindings_message.
Qed.

(** The two recursive walks of a version-1 tree have the same runs. *)
Lemma scanPackageLockDependencies_indexed (filename : string)
    (dependencies : gmap string PackageLockInfo.t) (out : list string) :
  scanPackageLockDependencies vulnerablePackages filename dependencies out
  <-> scanPackageLockDependenciesOptimized (buildVulnerablePackageMap vulnerablePackages)
        filename dependencies out.
Proof.
  remember (weightOf dependencies) as n eqn:Hn. revert dependencies Hn out.
  induction n as [n IH] using lt_wf_ind. intros dependencies -> out. split.
  - intros Hwalk. inversion Hwalk as [? visited found Hranges Hfound]; subst.
    econstructor; [exact Hranges |].
    eapply Forall2_impl_In; [| exact Hfound].
    intros entry o Hin (nested & Hrun & ->). exists nested. split.
    + eapply IH; [| reflexivity | exact Hrun].
      apply (weight_child _ entry.1). by apply (ranges_lookup _ visited).
    + by rewrite scanPackageLockNodeLinear_indexed.
  - intros Hwalk. inversion Hwalk as [? visited found Hranges Hfound]; subst.
    econstructor; [exact Hranges |].
    eapply Forall2_impl_In; [| exact Hfound].
    intros entry o Hin (nested & Hrun & ->). exists nested. split.
    + eapply IH; [| reflexivity | exact Hrun].
      apply (weight_child _ entry.1). by apply (ranges_lookup _ visited).
    + by rewrite scanPackageLockNodeLinear_indexed.
Qed.

(** X11. When no two entries of the vulnerable list bear the same name,
    [scanYarnLock], which walks the list at every version line, returns what
    [scanYarnLockOptimized] returns with the index of the list. *)
Theorem scanYarnLock_indexed (path : string) (file : File string) :
  scanYarnLock vulnerablePackages path file
  = scanYarnLockOptimized (buildVulnerablePackageMap vulnerablePackages) path file.
Proof.
  unfold scanYarnLock, scanYarnLockOptimized. destruct (ReadFile file); [| reflexivity].
  f_equal. f_equal. apply fold_left_ext. intros state raw. apply scanYarnLineLinear_indexed.
Qed.

(** X12. When no two entries of the vulnerable list bear the same name,
    [scanPackageLockJSON] with its two helpers, which walk the list at every
    entry of the lock file, has the runs of [scanPackageLockJSONOptimized]
    with the index of the list: the same errors and the same findings in the
    same orders, on the flat map of the versions 2 and 3 and on the tree of
    version 1. *)
Theorem scanPackageLockJSON_indexed (path : string) (file : File (option PackageLockJSON.t))
    (r : Result) :
  scanPackageLockJSON vulnerablePackages path file r
  <-> scanPackageLockJSONOptimized (buildVulnerablePackageMap vulnerablePackages) path file r.
Proof.
  split.
  - intros [? Hread | | lock found Hflat [visited Hranges] | lock found Hflat Hdeps Hfound
           | lock Hflat Hdeps].
    + by apply scanPackageLockJSON_unreadable.
    + apply scanPackageLockJSON_malformed.
    + apply scanPackageLockJSON_packages; [exact Hflat |].
      rewrite (flat_map_ext _ _ (scanPackageLockEntryLinear_indexed (filepath.Base path))).
      by constructor.
    + apply scanPackageLockJSON_dependencies; [exact Hflat | exact Hdeps |].
      by apply scanPackageLockDependencies_indexed.
    + by apply scanPackageLockJSON_neither.
  - intros [? Hread | | lock found Hflat [visited Hranges] | lock found Hflat Hdeps Hfound
           | lock Hflat Hdeps].
    + by apply scanPackageLockJSONLinear_unreadable.
    + apply scanPackageLockJSONLinear_malformed.
    + apply scanPackageLockJSONLinear_packages; [exact Hflat |].
      rewrite <- (flat_map_ext _ _ (scanPackageLockEntryLinear_indexed (filepath.Base path))).
      by constructor.
    + apply scanPackageLockJSONLinear_dependencies; [exact Hflat | exact Hdeps |].
      by apply scanPackageLockDependencies_indexed.
    + by apply scanPackageLockJSONLinear_neither.
Qed.

(** X13. When no two entries of the vulnerable list bear the same name,
    [scanPnpmLock] has the runs of [scanPnpmLockOptimized] with the index of
    the list. *)
Theorem scanPnpmLock_indexed (path : string) (file : File (option PnpmLock.t)) (r : Result) :
  scanPnpmLock vulnerablePackages path file r
  <-> scanPnpmLockOptimized (buildVulnerablePackageMap vulnerablePackages) path file r.
Proof.
  split.
  - intros [? Hread | | pnpmLock packages deps devDeps Hpackages Hdeps HdevDeps filename].
    + by apply scanPnpmLock_unreadable.
    + apply scanPnpmLock_malformed.
    + rewrite (flat_map_ext _ _ (scanPnpmPathLinear_indexed filename)),
        !scanPnpmDependenciesLinear_indexed.
      by apply scanPnpmLock_found.
  - intros [? Hread | | pnpmLock packages deps devDeps Hpackages Hdeps HdevDeps filename].
    + by apply scanPnpmLockLinear_unreadable.
    + apply scanPnpmLockLinear_malformed.
    + rewrite <- (flat_map_ext _ _ (scanPnpmPathLinear_indexed filename)),
        <- !scanPnpmDependenciesLinear_indexed.
      by apply scanPnpmLockLinear_found.
Qed.

(** *** package.json: the same findings, in another order *)

(** What [scanPackageJSON] finds of one vulnerable package in one dependency
    map. *)
Lemma scanPackageJSONEntry_shape (filename : string) (packageJSON : PackageJSON.t)
    (named : string -> gmap string string -> VulnerablePackage -> list string) :
  named = (fun name deps p =>
             match deps !! Name p with
             | Some version =>
                 if isVersionVulnerable version (Versions p)
                 then [(linearMessage version filename p ++ " (" ++ name ++ ")")%string]
                 else []
             | None => []
             end) ->
  forall p,
    scanPackageJSONEntry filename packageJSON p
    = named "dependencies" (PackageJSON.Dependencies packageJSON) p
      ++ named "devDependencies" (PackageJSON.DevDependencies packageJSON) p
      ++ named "peerDependencies" (PackageJSON.PeerDependencies packageJSON) p
      ++ named "optionalDependencies" (PackageJSON.OptionalDependencies packageJSON) p
      ++ flat_map
           (fun bundledPkg =>
              if String.eqb bundledPkg (Name p)
              then ["Found vulnerable package " ++ Name p ++ " in " ++ filename
                    ++ " (bundledDependencies) - version unknown, check manually"]%string
              else [])
           (PackageJSON.BundledDependencies packageJSON).
Proof.
  intros -> p. unfold scanPackageJSONEntry, dependencyTypes. cbn [flat_map fst snd].
  by rewrite app_nil_r, <- !app_assoc.
Qed.

(** The loop over the list, on one dependency map, finds what the loop over
    the map finds. *)
Lemma scanDependencyType_linear (filename name : string) (deps : gmap string string) :
  flat_map
    (fun p =>
       match deps !! Name p with
       | Some version =>
           if isVersionVulnerable version (Versions p)
           then [(linearMessage version filename p ++ " (" ++ name ++ ")")%string]
           else []
       | None => []
       end)
    vulnerablePackages
  ≡ₚ scanDependencyType (buildVulnerablePackageMap vulnerablePackages) filename name
       (map_to_list deps).
Proof.
  induction deps as [| pkgName version deps Hfresh IH] using map_ind.
  - rewrite map_to_list_empty. cbn. rewrite flat_map_nil; [reflexivity |].
    intros p. by rewrite lookup_empty.
  - rewrite (scanDependencyType_agree _ _ _ _ _ (map_to_list_insert _ _ _ Hfresh)).
    unfold scanDependencyType in *. cbn [flat_map]. rewrite <- IH.
    rewrite <- (linearFindings_findingsOf vulnerablePackages pkgName version
                  (fun p => linearMessage version filename p ++ " (" ++ name ++ ")")%string)
      by (done || by intros p <-).
    unfold linearFindings. rewrite <- flat_map_app_Permutation.
    erewrite flat_map_ext; [reflexivity |].
    intros p. cbn beta. destruct (String.eqb_spec pkgName (Name p)) as [-> | Hne].
    + by rewrite lookup_insert_eq, Hfresh, app_nil_r.
    + by rewrite lookup_insert_ne.
Qed.

Lemma scanBundled_linear (filename : string) (bundled : list string) :
  flat_map
    (fun p =>
       flat_map
         (fun bundledPkg =>
            if String.eqb bundledPkg (Name p)
            then ["Found vulnerable package " ++ Name p ++ " in " ++ filename
                  ++ " (bundledDependencies) - version unknown, check manually"]%string
            else [])
         bundled)
    vulnerablePackages
  ≡ₚ scanBundled (buildVulnerablePackageMap vulnerablePackages) filename bundled.
Proof.
  induction bundled as [| bundledPkg bundled IH].
  - cbn. by rewrite flat_map_nil.
  - cbn [flat_map scanBundled]. rewrite flat_map_app_Permutation.
    unfold scanBundled in IH. rewrite IH. apply Permutation_app_tail.
    rewrite (flat_map_named vulnerablePackages bundledPkg
               (fun p => ["Found vulnerable package " ++ Name p ++ " in " ++ filename
                          ++ " (bundledDependencies) - version unknown, check manually"]%string))
      by done.
    destruct (buildVulnerablePackageMap vulnerablePackages !! bundledPkg) as [p |] eqn:Hp;
      [| reflexivity].
    apply buildVulnerablePackageMap_lookup in Hp as [_ ->]. reflexivity.
Qed.

(** X14. When no two entries of the vulnerable list bear the same name,
    every run of [scanPackageJSONOptimized] with the index of the list
    returns the error of [scanPackageJSON] and its findings in some order:
    [scanPackageJSON] groups them by vulnerable package, in the order of the
    list, where the other groups them by dependency map. *)
Theorem scanPackageJSON_indexed (path : string) (file : File (option PackageJSON.t))
    (r : Result) :
  scanPackageJSONOptimized (buildVulnerablePackageMap vulnerablePackages) path file r ->
  r.2 = (scanPackageJSON vulnerablePackages path file).2
  /\ r.1 ≡ₚ (scanPackageJSON vulnerablePackages path file).1.
Proof.
  intros [? Hread | | packageJSON deps devDeps peerDeps optDeps Hdeps HdevDeps HpeerDeps
                      HoptDeps filename]; unfold scanPackageJSON.
  - by rewrite Hread.
  - done.
  - cbn [ReadFile fst snd]. split; [reflexivity |]. fold filename.
    rewrite (flat_map_ext _ _ (scanPackageJSONEntry_shape filename packageJSON _ eq_refl)).
    rewrite !flat_map_app_Permutation.
    rewrite !scanDependencyType_linear, scanBundled_linear.
    unfold ranges in *.
    by rewrite (scanDependencyType_agree _ _ _ _ _ Hdeps),
      (scanDependencyType_agree _ _ _ _ _ HdevDeps),
      (scanDependencyType_agree _ _ _ _ _ HpeerDeps),
      (scanDependencyType_agree _ _ _ _ _ HoptDeps).
Qed.

End LinearProperties.

Lemma NoDup_tinycolor_lodash : NoDup (map Name [tinycolor; lodash]).
Proof.
  cbn. apply NoDup_cons_2; [by intros [=]%list_elem_of_singleton | apply NoDup_singleton].
Qed.

(** The two yarn.lock scanners on the lock file of the tests. *)
Lemma scanYarnLock_indexed_witness :
  NoDup (map Name [tinycolor; lodash])
  /\ scanYarnLock [tinycolor; lodash] "action/yarn.lock" (Contents yarnLockOfTest)
     = scanYarnLockOptimized (buildVulnerablePackageMap [tinycolor; lodash])
         "action/yarn.lock" (Contents yarnLockOfTest).
Proof.
  split; [exact NoDup_tinycolor_lodash |].
  apply (scanYarnLock_indexed [tinycolor; lodash] NoDup_tinycolor_lodash).
Defined.

(** The two package-lock.json scanners on the tree of [lockfileV1]. *)
Lemma scanPackageLockJSON_indexed_witness :
  NoDup (map Name [tinycolor; lodash])
  /\ (scanPackageLockJSON [tinycolor; lodash] "action/package-lock.json"
        (Contents (Some lockfileV1))
        (["Found vulnerable package @ctrl/tinycolor with version 4.1.1 in package-lock.json"],
         None)
      <-> scanPackageLockJSONOptimized (buildVulnerablePackageMap [tinycolor; lodash])
            "action/package-lock.json" (Contents (Some lockfileV1))
            (["Found vulnerable package @ctrl/tinycolor with version 4.1.1 in package-lock.json"],
             None)).
Proof.
  split; [exact NoDup_tinycolor_lodash |].
  apply (scanPackageLockJSON_indexed [tinycolor; lodash] NoDup_tinycolor_lodash).
Defined.

(** The two pnpm-lock.yaml scanners on [pnpmLockOfLodash]. *)
Lemma scanPnpmLock_indexed_witness :
  NoDup (map Name [tinycolor; lodash])
  /\ (scanPnpmLock [tinycolor; lodash] "action/pnpm-lock.yaml"
        (Contents (Some pnpmLockOfLodash))
        (["Found vulnerable package lodash with version 4.17.20 in pnpm-lock.yaml";
          "Found vulnerable package lodash with version 4.17.20 in pnpm-lock.yaml"],
         None)
      <-> scanPnpmLockOptimized (buildVulnerablePackageMap [tinycolor; lodash])
            "action/pnpm-lock.yaml" (Contents (Some pnpmLockOfLodash))
            (["Found vulnerable package lodash with version 4.17.20 in pnpm-lock.yaml";
              "Found vulnerable package lodash with version 4.17.20 in pnpm-lock.yaml"],
             None)).
Proof.
  split; [exact NoDup_tinycolor_lodash |].
  apply (scanPnpmLock_indexed [tinycolor; lodash] NoDup_tinycolor_lodash).
Defined.

(** The run of [scanPackageJSONOptimized] on [twoDependencies] that visits
    lodash first, and [scanPackageJSON], which follows the list. *)
Lemma scanPackageJSON_indexed_witness :
  let found :=
    ["Found vulnerable package lodash with version 4.17.20 in package.json (dependencies)";
     "Found vulnerable package @ctrl/tinycolor with version 4.1.1 in package.json (dependencies)"]
  in
  NoDup (map Name [tinycolor; lodash])
  /\ scanPackageJSONOptimized (buildVulnerablePackageMap [tinycolor; lodash])
       "action/package.json" (Contents (Some twoDependencies)) (found, None)
  /\ scanPackageJSON [tinycolor; lodash] "action/package.json"
       (Contents (Some twoDependencies))
     = (["Found vulnerable package @ctrl/tinycolor with version 4.1.1 in package.json (dependencies)";
         "Found vulnerable package lodash with version 4.17.20 in package.json (dependencies)"],
        None)
  /\ found ≡ₚ (scanPackageJSON [tinycolor; lodash] "action/package.json"
                 (Contents (Some twoDependencies))).1.
Proof.
  intros found. destruct scanPackageJSON_twoDependencies_runs as [_ Hrun].
  split; [exact NoDup_tinycolor_lodash |]. split; [exact Hrun |].
  split; [vm_compute; reflexivity |].
  exact (proj2 (scanPackageJSON_indexed [tinycolor; lodash] NoDup_tinycolor_lodash
                  "action/package.json" (Contents (Some twoDependencies)) _ Hrun)).
Defined.

(** ** What [ScanAction] reports *)

Section Reports.
Context `{Semver}.
Variable vulnerablePackages : list VulnerablePackage.

Lemma findingsOf_reported (pkgName version filename suffix : string)
    (message : VulnerablePackage -> string) (finding : string) :
  (forall p, message p
             = (formatVulnerabilityMessage pkgName version filename p ++ suffix)%string) ->
  In finding
    (findingsOf (buildVulnerablePackageMap vulnerablePackages) pkgName version message) ->
  reported vulnerablePackages finding.
Proof.
  intros Hmessage. unfold findingsOf, isVulnerable.
  destruct (buildVulnerablePackageMap vulnerablePackages !! pkgName) as [p |] eqn:Hp;
    [| by intros []].
  apply buildVulnerablePackageMap_lookup in Hp as [Hin <-].
  destruct (isVersionVulnerable version (Versions p)) eqn:Hvulnerable; [| by intros []].
  intros [<- | []]. exists p, filename. split; [exact Hin |]. left.
  exists version, suffix. by split.
Qed.

Lemma findingsOf_reported_plain (pkgName version filename finding : string) :
  In finding
    (findingsOf (buildVulnerablePackageMap vulnerablePackages) pkgName version
       (formatVulnerabilityMessage pkgName version filename)) ->
  reported vulnerablePackages finding.
Proof.
  apply (findingsOf_reported pkgName version filename "").
  intros p. by rewrite append_empty_r.
Qed.

Lemma scanPackageJSON_reported (path : string) (file : File (option PackageJSON.t))
    (found : list string) (err : option ScanError) (finding : string) :
  scanPackageJSONOptimized (buildVulnerablePackageMap vulnerablePackages) path file
    (found, err) ->
  In finding found -> reported vulnerablePackages finding.
Proof.
  intros Hrun.
  inversion Hrun as [| | packageJSON deps devDeps peerDeps optDeps Hr1 Hr2 Hr3 Hr4 filename];
    subst; [by intros [] | by intros [] |].
  assert (Hdeps : forall name visited,
             In finding
               (scanDependencyType (buildVulnerablePackageMap vulnerablePackages)
                  filename name visited) ->
             reported vulnerablePackages finding).
  { intros name visited (entry & _ & Hin)%in_flat_map. destruct entry as [pkgName version].
    by apply (findingsOf_reported pkgName version filename (" (" ++ name ++ ")")) in Hin. }
  rewrite !in_app_iff. intros [Hin | [Hin | [Hin | [Hin | Hin]]]]; try by eapply Hdeps.
  apply in_flat_map in Hin as (bundledPkg & _ & Hin).
  destruct (buildVulnerablePackageMap vulnerablePackages !! bundledPkg) as [p |] eqn:Hp;
    [| destruct Hin].
  apply buildVulnerablePackageMap_lookup in Hp as [Hp <-].
  destruct Hin as [<- | []]. exists p, filename. split; [exact Hp | by right].
Qed.

Lemma scanPackageLockDependencies_reported (filename : string)
    (dependencies : gmap string PackageLockInfo.t) (found : list string) :
  scanPackageLockDependenciesOptimized (buildVulnerablePackageMap vulnerablePackages)
    filename dependencies found ->
  forall finding, In finding found -> reported vulnerablePackages finding.
Proof.
  revert dependencies found.
  apply (scanPackageLockDependencies_nested_ind
           (buildVulnerablePackageMap vulnerablePackages) filename
           (fun _ found => forall finding, In finding found ->
                                           reported vulnerablePackages finding)).
  intros dependencies visited found _ Hfound finding (out & Hout & Hin)%in_concat.
  revert out Hout Hin. induction Hfound as [| entry o visited found Hentry _ IH].
  - by intros out [].
  - intros out [<- | Hout] Hin; [| by eapply IH].
    destruct Hentry as (nested & [_ Hnested] & ->).
    apply in_app_iff in Hin as [Hin | Hin]; [| by apply Hnested].
    by apply findingsOf_reported_plain in Hin.
Qed.

Lemma scanPackageLockJSON_reported (path : string) (file : File (option PackageLockJSON.t))
    (found : list string) (err : option ScanError) (finding : string) :
  scanPackageLockJSONOptimized (buildVulnerablePackageMap vulnerablePackages) path file
    (found, err) ->
  In finding found -> reported vulnerablePackages finding.
Proof.
  intros Hrun.
  inversion Hrun as [| | lock found' Hcond Hflat | lock found' Hcond Hdeps Hwalk |]; subst;
    try by intros [].
  - destruct Hflat as [visited Hranges]. intros (entry & _ & Hin)%in_flat_map.
    destruct entry as [pkgPath pkgInfo]. unfold scanPackageLockEntry in Hin.
    destruct (_ || _); [destruct Hin |]. by apply findingsOf_reported_plain in Hin.
  - by apply (scanPackageLockDependencies_reported _ _ _ Hwalk).
Qed.

Lemma scanYarnLine_reported (filename : string) (state : string * list string) (raw : string) :
  (forall finding, In finding state.2 -> reported vulnerablePackages finding) ->
  forall finding,
    In finding
      (scanYarnLine (buildVulnerablePackageMap vulnerablePackages) filename state raw).2 ->
    reported vulnerablePackages finding.
Proof.
  intros Hstate finding. unfold scanYarnLine. destruct state as [currentPackageName found].
  destruct (_ || _); [apply Hstate |].
  destruct (_ && _).
  { destruct (firstPackageName _); apply Hstate. }
  destruct (_ && _); [| apply Hstate].
  destruct (SplitN2 _ _) as [| ? [| rest [| ? ?]]]; try apply Hstate.
  cbn [snd]. intros [Hin | Hin]%in_app_iff; [by apply Hstate |].
  by apply findingsOf_reported_plain in Hin.
Qed.

Lemma scanYarnLock_reported (path : string) (file : File string) (finding : string) :
  In finding
    (scanYarnLockOptimized (buildVulnerablePackageMap vulnerablePackages) path file).1 ->
  reported vulnerablePackages finding.
Proof.
  unfold scanYarnLockOptimized. destruct (ReadFile file) as [data |]; [| by intros []].
  cbn [fst]. generalize (Split data (String "010" "")). intros lines.
  assert (Hstart : forall finding, In finding (EmptyString, @nil string).2 ->
                                   reported vulnerablePackages finding) by (by intros ? []).
  revert finding. revert Hstart. generalize (EmptyString, @nil string).
  induction lines as [| raw lines IH]; intros state Hstate; [exact Hstate |].
  cbn [fold_left]. apply IH. by apply scanYarnLine_reported.
Qed.

Lemma scanPnpmLock_reported (path : string) (file : File (option PnpmLock.t))
    (found : list string) (err : option ScanError) (finding : string) :
  scanPnpmLockOptimized (buildVulnerablePackageMap vulnerablePackages) path file
    (found, err) ->
  In finding found -> reported vulnerablePackages finding.
Proof.
  intros Hrun.
  inversion Hrun as [| | pnpmLock packages deps devDeps Hr1 Hr2 Hr3 filename];
    subst; [by intros [] | by intros [] |].
  assert (Hdeps : forall visited,
             In finding
               (scanPnpmDependencies (buildVulnerablePackageMap vulnerablePackages)
                  filename visited) ->
             reported vulnerablePackages finding).
  { intros visited (entry & _ & Hin)%in_flat_map. destruct entry as [pkgName version].
    by apply findingsOf_reported_plain in Hin. }
  rewrite !in_app_iff. intros [Hin | [Hin | Hin]]; try by eapply Hdeps.
  apply in_flat_map in Hin as (entry & _ & Hin). unfold scanPnpmPath in Hin.
  destruct (_ || _); [destruct Hin |].
  destruct (extractPackageNameAndVersionFromPnpmPath entry.1) as [pkgName version].
  destruct (_ || _); [destruct Hin |]. by apply findingsOf_reported_plain in Hin.
Qed.

Lemma scanBlock_reported {T : Type} (file : File T) (scanner : File T -> Result -> Prop)
    (before : list string) (r : Result) :
  (forall found err finding,
      scanner file (found, err) -> In finding found -> reported vulnerablePackages finding) ->
  (forall finding, In finding before -> reported vulnerablePackages finding) ->
  scanBlock file scanner before r ->
  forall finding, In finding r.1 -> reported vulnerablePackages finding.
Proof.
  intros Hscanner Hbefore [_ | found _ Hrun | found err _ Hrun] finding; cbn [fst].
  - apply Hbefore.
  - intros [Hin | Hin]%in_app_iff; [by apply Hbefore | by eapply Hscanner].
  - by intros [].
Qed.

(** X15. Every finding that [ScanAction] returns is about a package of the
    vulnerable list: it is the message of that package with a version that
    [isVersionVulnerable] tells vulnerable to the versions of the package, or
    the message of a bundled dependency of that name.  No package that is
    not in the list is ever reported. *)
Theorem ScanAction_reports_listed (actionDir : string) (files : ActionFiles)
    (found : list string) (err : option ScanError) (finding : string) :
  ScanAction actionDir files vulnerablePackages (found, err) ->
  In finding found ->
  reported vulnerablePackages finding.
Proof.
  intros Hrun Hin. change found with (found, err).1 in Hin.
  revert Hrun finding Hin. generalize (found, err). clear found err.
  intros out (r1 & r2 & r3 & Hblock1 & Hthen1).
  pose proof (scanBlock_reported _ _ _ _
                (fun found err finding => scanPackageJSON_reported _ _ found err finding)
                (fun finding (Hin : In finding []) => match Hin with end) Hblock1) as Hr1.
  unfold thenBlock in Hthen1. destruct r1 as [found1 [err1 |]]; cbn [snd fst] in Hthen1;
    [by rewrite Hthen1 |].
  destruct Hthen1 as [Hblock2 Hthen2].
  pose proof (scanBlock_reported _ _ _ _
                (fun found err finding => scanPackageLockJSON_reported _ _ found err finding)
                Hr1 Hblock2) as Hr2.
  unfold thenBlock in Hthen2. destruct r2 as [found2 [err2 |]]; cbn [snd fst] in Hthen2;
    [by rewrite Hthen2 |].
  destruct Hthen2 as [Hblock3 Hthen3].
  assert (Hr3 : forall finding, In finding r3.1 -> reported vulnerablePackages finding).
  { apply (fun Hscanner => scanBlock_reported _ _ _ _ Hscanner Hr2 Hblock3).
    intros found err finding Heq. cbn beta in Heq.
    change found with (found, err).1. rewrite Heq. apply scanYarnLock_reported. }
  unfold thenBlock in Hthen3. destruct r3 as [found3 [err3 |]]; cbn [snd fst] in Hthen3;
    [by rewrite Hthen3 |].
  exact (scanBlock_reported _ _ _ _
           (fun found err finding => scanPnpmLock_reported _ _ found err finding)
           Hr3 Hthen3).
Qed.

End Reports.

(** A run of [ScanAction] on the action that only has a yarn.lock. *)
Lemma ScanAction_yarnOnly_runs :
  ScanAction "action" yarnOnly [tinycolor]
    (["Found vulnerable package @ctrl/tinycolor with version 4.1.1 in yarn.lock"], None).
Proof.
  exists ([], None), ([], None),
    (["Found vulnerable package @ctrl/tinycolor with version 4.1.1 in yarn.lock"], None).
  split; [by apply scanBlock_skipped |].
  split; [by apply scanBlock_skipped |].
  split; [| by apply scanBlock_skipped].
  apply (scanBlock_appended _ _ []
           ["Found vulnerable package @ctrl/tinycolor with version 4.1.1 in yarn.lock"]);
    [reflexivity |].
  vm_compute. reflexivity.
Qed.

Lemma ScanAction_reports_listed_witness :
  ScanAction "action" yarnOnly [tinycolor]
    (["Found vulnerable package @ctrl/tinycolor with version 4.1.1 in yarn.lock"], None)
  /\ reported [tinycolor]
       "Found vulnerable package @ctrl/tinycolor with version 4.1.1 in yarn.lock".
Proof.
  split; [exact ScanAction_yarnOnly_runs |].
  apply (ScanAction_reports_listed [tinycolor] "action" yarnOnly _ None _
           ScanAction_yarnOnly_runs).
  by left.
Defined.

Section Composition.
Context `{Semver}.

Lemma scanBlock_contributes {T : Type} (file : File T) (scanner : File T -> Result -> Prop)
    (before after : list string) :
  scanBlock file scanner before (after, None)
  <-> exists found, after = before ++ found /\ contributes file scanner found.
Proof.
  unfold contributes. split.
  - intros Hblock.
    inversion Hblock as [Hstat | found Hstat Hrun | found err Hstat Hrun]; subst.
    + exists []. rewrite Hstat. by rewrite app_nil_r.
    + exists found. by rewrite Hstat.
  - intros (found & -> & Hfound). destruct (Stat file) eqn:Hstat.
    + by apply scanBlock_appended.
    + rewrite Hfound, app_nil_r. by apply scanBlock_skipped.
Qed.

Lemma scanBlock_failed {T : Type} (file : File T) (scanner : File T -> Result -> Prop)
    (before found : list string) (err : ScanError) :
  scanBlock file scanner before (found, Some err) -> found = [].
Proof. intros Hblock. by inversion Hblock. Qed.

(** X16. When [ScanAction] returns no error, its findings are those of
    package.json, then those of package-lock.json, then those of yarn.lock,
    then those of pnpm-lock.yaml, each file contributing the findings of one
    run of its scanner with the index of the list, and nothing when it is
    absent; and every such concatenation is a result of [ScanAction].  All
    four files are scanned: a lock file does not hide the others. *)
Theorem ScanAction_concatenates (actionDir : string) (files : ActionFiles)
    (vulnerablePackages : list VulnerablePackage) (found : list string) :
  let vulnerablePackageMap := buildVulnerablePackageMap vulnerablePackages in
  ScanAction actionDir files vulnerablePackages (found, None)
  <-> exists found1 found2 found3 found4,
        found = found1 ++ found2 ++ found3 ++ found4
        /\ contributes (package_json files)
             (scanPackageJSONOptimized vulnerablePackageMap
                (filepath.Join actionDir "package.json")) found1
        /\ contributes (package_lock_json files)
             (scanPackageLockJSONOptimized vulnerablePackageMap
                (filepath.Join actionDir "package-lock.json")) found2
        /\ contributes (yarn_lock files)
             (fun file r =>
                r = scanYarnLockOptimized vulnerablePackageMap
                      (filepath.Join actionDir "yarn.lock") file) found3
        /\ contributes (pnpm_lock_yaml files)
             (scanPnpmLockOptimized vulnerablePackageMap
                (filepath.Join actionDir "pnpm-lock.yaml")) found4.
Proof.
  intros vulnerablePackageMap. unfold ScanAction. fold vulnerablePackageMap. split.
  - intros (r1 & r2 & r3 & Hblock1 & Hthen1). unfold thenBlock in Hthen1.
    destruct r1 as [out1 [err1 |]]; cbn [fst snd] in Hthen1; [discriminate Hthen1 |].
    destruct Hthen1 as [Hblock2 Hthen2]. unfold thenBlock in Hthen2.
    destruct r2 as [out2 [err2 |]]; cbn [fst snd] in Hthen2; [discriminate Hthen2 |].
    destruct Hthen2 as [Hblock3 Hthen3]. unfold thenBlock in Hthen3.
    destruct r3 as [out3 [err3 |]]; cbn [fst snd] in Hthen3; [discriminate Hthen3 |].
    apply scanBlock_contributes in Hblock1 as (found1 & -> & Hfound1).
    apply scanBlock_contributes in Hblock2 as (found2 & -> & Hfound2).
    apply scanBlock_contributes in Hblock3 as (found3 & -> & Hfound3).
    apply scanBlock_contributes in Hthen3 as (found4 & -> & Hfound4).
    exists found1, found2, found3, found4. cbn [app]. by rewrite <- !app_assoc.
  - intros (found1 & found2 & found3 & found4 & -> & Hfound1 & Hfound2 & Hfound3 & Hfound4).
    exists (found1, None), (found1 ++ found2, None), ((found1 ++ found2) ++ found3, None).
    split; [apply scanBlock_contributes; by exists found1 |].
    split; [apply scanBlock_contributes; by exists found2 |].
    split; [apply scanBlock_contributes; by exists found3 |].
    apply scanBlock_contributes. exists found4. cbn [fst]. by rewrite <- !app_assoc.
Qed.

(** ** Lines of a yarn.lock that are passed over *)

(** X17. A blank line or a comment line, wherever it stands in a yarn.lock,
    changes nothing to what [scanYarnLockOptimized] returns: the package
    that a version line is read for is the one of the last package line
    before it, whatever lines of this kind come between. *)
Theorem scanYarnLockOptimized_comment (vulnerablePackageMap : VulnerablePackageMap)
    (path before comment after : string) :
  Index comment newline = None ->
  TrimSpace comment = "" \/ HasPrefix (TrimSpace comment) "#" = true ->
  scanYarnLockOptimized vulnerablePackageMap path
    (Contents (before ++ newline ++ comment ++ newline ++ after)%string)
  = scanYarnLockOptimized vulnerablePackageMap path
      (Contents (before ++ newline ++ after)%string).
Proof.
  intros Hline Hcomment. unfold scanYarnLockOptimized. cbn [ReadFile]. f_equal. f_equal.
  change (newline ++ comment ++ newline ++ after)%string
    with (String "010" (comment ++ String "010" after)).
  change (newline ++ after)%string with (String "010" after).
  rewrite !Split_append_byte.
  replace (Split comment (String "010" "")) with [comment]
    by (symmetry; exact (cut_absent (String "010" "") comment Hline)).
  rewrite !fold_left_app. cbn [fold_left]. f_equal.
  destruct (fold_left _ _ _) as [currentPackageName found]. unfold scanYarnLine.
  destruct Hcomment as [-> | ->]; [reflexivity | by rewrite orb_true_r].
Qed.

End Composition.

(** A comment between the package line and the version line of
    [yarnLockOfLodash]. *)
Lemma scanYarnLockOptimized_comment_witness :
  scanYarnLockOptimized (buildVulnerablePackageMap [lodash]) "action/yarn.lock"
    (Contents ("lodash@^4.17.20:" ++ newline ++ "  # locked" ++ newline
               ++ "  version " ++ quoted "4.17.20" ++ newline)%string)
  = scanYarnLockOptimized (buildVulnerablePackageMap [lodash]) "action/yarn.lock"
      (Contents ("lodash@^4.17.20:" ++ newline ++ "  version " ++ quoted "4.17.20"
                 ++ newline)%string).
Proof.
  apply (scanYarnLockOptimized_comment (buildVulnerablePackageMap [lodash]) "action/yarn.lock"
           "lodash@^4.17.20:" "  # locked"); [reflexivity | by right].
Defined.

(** ** Action references *)

(** What [parseAction] makes of a reference it accepts, read backwards: the
    reference is rebuilt from the fields. *)
Lemma parseAction_inv (uses : string) (a : Action) :
  parseAction uses = Some a ->
  HasPrefix uses "./" = false
  /\ exists rest,
       Split uses "@" = [Join (Owner a :: Repo a :: rest) "/"; ActionVersion a]
       /\ Split (Join (Owner a :: Repo a :: rest) "/") "/" = Owner a :: Repo a :: rest
       /\ Path a = Join rest "/".
Proof.
  unfold parseAction. destruct (HasPrefix uses "./"); [discriminate |].
  destruct (Split uses "@") as [| actionName [| version [| ? ?]]] eqn:Hat; try discriminate.
  pose proof (Join_Split_byte "/" actionName) as Hjoin.
  destruct (Split actionName "/") as [| owner [| repo rest]] eqn:Hslash; try discriminate.
  cbn [length Nat.ltb Nat.leb nth drop].
  intros [= <-]. cbn [Owner Repo ActionVersion Path].
  split; [reflexivity |]. exists rest. rewrite Hjoin.
  split; [reflexivity |]. split; [exact Hslash |].
  by destruct rest.
Qed.

Lemma parseAction_intro (owner repo version : string) (rest : list string) :
  HasPrefix (Join (owner :: repo :: rest) "/" ++ "@" ++ version) "./" = false ->
  Index (Join (owner :: repo :: rest) "/") "@" = None ->
  Index version "@" = None ->
  Split (Join (owner :: repo :: rest) "/") "/" = owner :: repo :: rest ->
  parseAction (Join (owner :: repo :: rest) "/" ++ "@" ++ version)
  = Some {| Owner := owner; Repo := repo; ActionVersion := version;
            Path := Join rest "/" |}.
Proof.
  intros Hlocal Hname Hversion Hslash. unfold parseAction. rewrite Hlocal.
  rewrite (proj2 (Split_two_byte "@" _ _ version)) by done.
  rewrite Hslash. cbn [length Nat.ltb Nat.leb nth drop]. by destruct rest.
Qed.

(** X18. [parseAction] accepts exactly the references [owner/repo@version]
    and [owner/repo/path@version] that do not start with ["./"], where
    neither [owner] nor [repo] holds a ['/'] and no field holds a ['@']; the
    fields of the action are those parts, the path being empty in the first
    form. *)
Theorem parseAction_accepts (uses : string) (a : Action) :
  parseAction uses = Some a
  <-> HasPrefix uses "./" = false
      /\ Index (Owner a) "/" = None /\ Index (Repo a) "/" = None
      /\ Index (Owner a) "@" = None /\ Index (Repo a) "@" = None
      /\ Index (Path a) "@" = None /\ Index (ActionVersion a) "@" = None
      /\ (uses = (Owner a ++ "/" ++ Repo a ++ "@" ++ ActionVersion a)%string
          /\ Path a = ""
          \/ uses = (Owner a ++ "/" ++ Repo a ++ "/" ++ Path a ++ "@"
                     ++ ActionVersion a)%string).
Proof.
  split.
  - intros (Hlocal & rest & Hat & Hslash & Hpath)%parseAction_inv.
    apply Split_two_byte in Hat as (Huses & Hname & Hversion).
    assert (Hparts : forall p, In p (Owner a :: Repo a :: rest) -> Index p "/" = None).
    { intros p Hp.
      apply (Split_pieces_byte "/" (Join (Owner a :: Repo a :: rest) "/") p).
      by rewrite Hslash. }
    pose proof (Join_pieces_byte "/" "@" _ Hname) as Hat.
    split; [exact Hlocal |].
    split; [apply Hparts; by left |]. split; [apply Hparts; right; by left |].
    split; [apply Hat; by left |]. split; [apply Hat; right; by left |].
    destruct rest as [| p rest].
    + cbn [Join] in *. rewrite Hpath. split; [reflexivity |]. split; [exact Hversion |].
      left. split; [| reflexivity]. by rewrite Huses, !append_assoc.
    + rewrite !Join_cons in Hname, Huses by done.
      rewrite <- Hpath in Hname, Huses.
      apply Index_None_append_byte in Hname as [_ Hname].
      apply Index_None_append_byte in Hname as [_ Hname].
      apply Index_None_append_byte in Hname as [_ Hname].
      apply Index_None_append_byte in Hname as [_ Hname].
      split; [exact Hname |]. split; [exact Hversion |].
      right. by rewrite Huses, !append_assoc.
  - destruct a as [owner repo version path]. cbn [Owner Repo ActionVersion Path].
    intros (Hlocal & Hso & Hsr & Hao & Har & Hap & Hav & Hshape).
    destruct Hshape as [[-> ->] | ->].
    + pose proof (parseAction_intro owner repo version []) as Hintro.
      cbn [Join] in Hintro. rewrite !append_assoc in Hintro. apply Hintro; try done.
      * apply Index_None_append_byte. split; [done |].
        apply Index_None_append_byte. by split.
      * change ("/" ++ repo)%string with (String "/" repo).
        rewrite (Split_first_byte "/" owner repo Hso).
        unfold Split. by rewrite (cut_absent _ _ Hsr).
    + pose proof (parseAction_intro owner repo version (Split path "/")) as Hintro.
      pose proof (Split_length_byte "/" path) as Hlen.
      rewrite !Join_cons, Join_Split_byte in Hintro
        by (try done; intros Hnil; rewrite Hnil in Hlen; cbn in Hlen; lia).
      rewrite !append_assoc in Hintro. apply Hintro; try done.
      * apply Index_None_append_byte. split; [done |].
        apply Index_None_append_byte. split; [done |].
        apply Index_None_append_byte. split; [done |].
        apply Index_None_append_byte. by split.
      * change ("/" ++ repo ++ "/" ++ path)%string with (String "/" (repo ++ "/" ++ path)).
        rewrite (Split_first_byte "/" owner _ Hso).
        change ("/" ++ path)%string with (String "/" path).
        by rewrite (Split_first_byte "/" repo _ Hsr).
Qed.

(** X19. [parseAction] returns [nil] on a local action, on a reference that
    is not pinned (no ['@']), on one with more than one ['@'], and on one
    without ['/'], such as a Docker image or a bare name. *)
Theorem parseAction_rejects (uses : string) :
  HasPrefix uses "./" = true
  \/ Index uses "@" = None
  \/ (exists a b c, uses = (a ++ "@" ++ b ++ "@" ++ c)%string)
  \/ Index uses "/" = None ->
  parseAction uses = None.
Proof.
  unfold parseAction. intros [-> | Hcase]; [reflexivity |].
  destruct (HasPrefix uses "./"); [reflexivity |].
  destruct Hcase as [Hat | [(a & b & c & ->) | Hslash]].
  - unfold Split. by rewrite (cut_absent _ _ Hat).
  - change ("@" ++ b ++ "@" ++ c)%string with (String "@" (b ++ String "@" c)).
    rewrite !Split_append_byte.
    pose proof (Split_length_byte "@" a). pose proof (Split_length_byte "@" b).
    pose proof (Split_length_byte "@" c).
    destruct (Split a "@") as [| ? [| ? ?]], (Split b "@") as [| ? ?],
      (Split c "@") as [| ? ?]; cbn in *; try lia; try reflexivity.
    all: by destruct l.
  - destruct (Split uses "@") as [| actionName [| version [| ? ?]]] eqn:Hat; try reflexivity.
    apply Split_two_byte in Hat as (-> & _ & _).
    apply Index_None_append_byte in Hslash as [Hslash _].
    unfold Split. by rewrite (cut_absent _ _ Hslash).
Qed.

(** The cases of rejection, on an action without version, on a Docker
    image and on a local action. *)
Lemma parseAction_rejects_witness :
  (Index "actions/checkout" "@" = None /\ parseAction "actions/checkout" = None)
  /\ (Index "docker://alpine:3.8" "@" = None /\ parseAction "docker://alpine:3.8" = None)
  /\ (HasPrefix "./.github/actions/build" "./" = true
      /\ parseAction "./.github/actions/build" = None).
Proof.
  split; [| split].
  - split; [reflexivity |]. apply parseAction_rejects. right. by left.
  - split; [reflexivity |]. apply parseAction_rejects. right. by left.
  - split; [reflexivity |]. apply parseAction_rejects. by left.
Defined.

(** ** The actions of a workflow *)

Example TestExtractActions :
  forall actions,
    ExtractActions buildWorkflow actions ->
    actions = [ {| Owner := "actions"; Repo := "checkout"; ActionVersion := "v2"; Path := "" |};
                {| Owner := "actions"; Repo := "setup-node"; ActionVersion := "v2";
                   Path := "" |} ].
Proof.
  intros actions [visited Hranges]. unfold ranges, buildWorkflow in Hranges. cbn [Jobs] in Hranges.
  rewrite map_to_list_singleton in Hranges. apply Permutation_singleton_r in Hranges as ->.
  vm_compute. reflexivity.
Qed.

Lemma parseAction_empty : parseAction "" = None.
Proof. reflexivity. Qed.

(** X20. The actions that [ExtractActions] returns are those that
    [parseAction] makes of the [uses] of the steps of the jobs: every step
    whose reference is accepted gives its action, whatever its job, and
    nothing else is returned.  The test of the empty reference changes
    nothing, since [parseAction] rejects it. *)
Theorem ExtractActions_steps (workflow : Workflow) (actions : list Action) (action : Action) :
  ExtractActions workflow actions ->
  In action actions
  <-> exists name job step,
        Jobs workflow !! name = Some job
        /\ In step (Steps job)
        /\ parseAction (Uses step) = Some action.
Proof.
  intros [visited Hranges]. rewrite in_flat_map. split.
  - intros ([name job] & Hjob & Hin). cbn [snd] in Hin.
    apply in_flat_map in Hin as (step & Hstep & Hin).
    exists name, job, step. split; [by apply (ranges_lookup _ visited (name, job)) |].
    split; [exact Hstep |].
    destruct (negb (String.eqb (Uses step) "")); [| destruct Hin].
    destruct (parseAction (Uses step)) as [parsed |]; [| destruct Hin].
    by destruct Hin as [-> | []].
  - intros (name & job & step & Hjob & Hstep & Hparse). exists (name, job). split.
    + apply list_elem_of_In. unfold ranges in Hranges. rewrite Hranges.
      by apply elem_of_map_to_list.
    + cbn [snd]. apply in_flat_map. exists step. split; [exact Hstep |].
      destruct (String.eqb_spec (Uses step) "") as [Hempty | _].
      * rewrite Hempty, parseAction_empty in Hparse. discriminate Hparse.
      * cbn [negb]. rewrite Hparse. by left.
Qed.

(** A run of [ExtractActions] on the workflow of the tests. *)
Lemma ExtractActions_buildWorkflow_runs :
  ExtractActions buildWorkflow
    [ {| Owner := "actions"; Repo := "checkout"; ActionVersion := "v2"; Path := "" |};
      {| Owner := "actions"; Repo := "setup-node"; ActionVersion := "v2"; Path := "" |} ].
Proof.
  refine (eq_ind _ (ExtractActions buildWorkflow)
            (ExtractActions_range buildWorkflow (map_to_list (Jobs buildWorkflow))
               (ranges_map_to_list _)) _ _).
  vm_compute. reflexivity.
Qed.

Lemma ExtractActions_steps_witness :
  ExtractActions buildWorkflow
    [ {| Owner := "actions"; Repo := "checkout"; ActionVersion := "v2"; Path := "" |};
      {| Owner := "actions"; Repo := "setup-node"; ActionVersion := "v2"; Path := "" |} ]
  /\ exists name job step,
       Jobs buildWorkflow !! name = Some job
       /\ In step (Steps job)
       /\ parseAction (Uses step)
          = Some {| Owner := "actions"; Repo := "setup-node"; ActionVersion := "v2";
                    Path := "" |}.
Proof.
  split; [exact ExtractActions_buildWorkflow_runs |].
  apply (ExtractActions_steps buildWorkflow _ _ ExtractActions_buildWorkflow_runs).
  right. by left.
Defined.
